(** * Verification of the bill browser's retrieval core and tool-call orchestration

    Shallow embedding of the JavaScript sources:
    - [textUtils]              (src/unnamed/part_003): normalizeText, extractKeywords,
                               stripTags, calculateSimilarity;
    - [DocumentParser]         (src/src/server/services/documentParser.js):
                               processSectionsSimple, extractSectionDataSimple,
                               buildSearchIndex, searchSections;
    - [QueryProcessor]         (src/unnamed/part_005): validateQuery;
    - [LLMService]             (src/unnamed/part_005): handleToolCallsRecursively,
                               executeToolCalls, the executeSearch* tools, parseResponse.

    Strings are modelled as Stdlib [string] (ASCII characters); the character
    classes of the JavaScript regular expressions ([\s], [\w], [\d]) and
    [toLowerCase]/[trim] are written out on that alphabet.  JavaScript numbers
    are modelled as rationals [Q] extended with NaN and the infinities. *)

From Stdlib Require Import String Ascii List Bool Arith ZArith QArith Lia.
From Stdlib Require Import Permutation Sorted.
Import ListNotations.
Open Scope string_scope.
Set Warnings "-register-all".

(* ------------------------------------------------------------------ *)
(** ** Characters and strings *)

Module Chars.
Local Open Scope nat_scope.

Definition code (c : ascii) : nat := nat_of_ascii c.

(** [\s] restricted to ASCII: tab, LF, VT, FF, CR and space
    (also the set removed by [String.prototype.trim]). *)
Definition is_space (c : ascii) : bool :=
  let n := code c in
  (9 <=? n) && (n <=? 13) || (n =? 32).

Definition is_digit (c : ascii) : bool :=
  let n := code c in (48 <=? n) && (n <=? 57).

Definition is_upper (c : ascii) : bool :=
  let n := code c in (65 <=? n) && (n <=? 90).

Definition is_lower (c : ascii) : bool :=
  let n := code c in (97 <=? n) && (n <=? 122).

(** [\w] = [A-Za-z0-9_] *)
Definition is_word (c : ascii) : bool :=
  is_upper c || is_lower c || is_digit c || (code c =? 95).

Definition to_lower (c : ascii) : ascii :=
  if is_upper c then ascii_of_nat (code c + 32) else c.

End Chars.

Module Str.
Import Chars.
Local Open Scope nat_scope.

Definition chars (s : string) : list ascii := list_ascii_of_string s.
Definition of_chars (l : list ascii) : string := string_of_list_ascii l.

Fixpoint drop_spaces (l : list ascii) : list ascii :=
  match l with
  | c :: r => if is_space c then drop_spaces r else l
  | [] => []
  end.

(** [String.prototype.trim] *)
Definition trim (s : string) : string :=
  of_chars (rev (drop_spaces (rev (drop_spaces (chars s))))).

(** [String.prototype.toLowerCase] *)
Definition toLowerCase (s : string) : string := of_chars (map to_lower (chars s)).

(** [s.replace(/\s+/g, ' ')]: every maximal run of whitespace becomes one space. *)
Fixpoint collapse_ws (l : list ascii) (in_run : bool) : list ascii :=
  match l with
  | [] => []
  | c :: r =>
      if is_space c then (if in_run then collapse_ws r true else " "%char :: collapse_ws r true)
      else c :: collapse_ws r false
  end.

Definition replace_ws (s : string) : string := of_chars (collapse_ws (chars s) false).

(** [s.split(/\W+/)]: the pieces between maximal runs of non-word characters,
    with the empty leading/trailing pieces JavaScript produces. *)
Fixpoint split_nonword_aux (l : list ascii) (cur : list ascii) (in_sep : bool)
  : list (list ascii) :=
  match l with
  | [] => [rev cur]
  | c :: r =>
      if is_word c then split_nonword_aux r (c :: cur) false
      else if in_sep then split_nonword_aux r cur true
      else rev cur :: split_nonword_aux r [] true
  end.

Definition split_nonword (s : string) : list string :=
  map of_chars (split_nonword_aux (chars s) [] false).

(** [/^\d+$/.test(s)] *)
Definition all_digits (s : string) : bool :=
  match chars s with
  | [] => false
  | l => forallb is_digit l
  end.

End Str.

(* ------------------------------------------------------------------ *)
(** ** textUtils (src/unnamed/part_003) *)

Module TextUtils.
Local Open Scope nat_scope.

(** [normalizeText] on a string argument ([''] for the empty string). *)
Definition normalizeText (text : string) : string :=
  if String.eqb text "" then ""
  else Str.toLowerCase (Str.trim (Str.replace_ws text)).

Definition stopWords : list string :=
  [ "the"; "and"; "or"; "but"; "in"; "on"; "at"; "to"; "for"; "of"; "with";
    "by"; "from"; "up"; "about"; "into"; "through"; "during"; "before";
    "after"; "above"; "below"; "between"; "among"; "through"; "during";
    "before"; "after"; "above"; "below"; "between"; "among"; "a"; "an";
    "as"; "are"; "was"; "were"; "been"; "be"; "have"; "has"; "had";
    "do"; "does"; "did"; "will"; "would"; "could"; "should"; "may";
    "might"; "must"; "can"; "shall"; "this"; "that"; "these"; "those" ].

Definition stop_has (w : string) : bool := existsb (String.eqb w) stopWords.

(** [extractKeywords] on a string argument. *)
Definition extractKeywords (text : string) : list string :=
  if String.eqb text "" then []
  else
    filter (fun w => negb (Str.all_digits w))
      (filter (fun w => (2 <? String.length w) && negb (stop_has w))
         (Str.split_nonword (normalizeText text))).

(** [new Set(xs)]: first occurrences, in insertion order. *)
Fixpoint set_of (xs : list string) : list string :=
  match xs with
  | [] => []
  | x :: r => x :: filter (fun y => negb (String.eqb x y)) (set_of r)
  end.

Definition set_has (s : list string) (x : string) : bool := existsb (String.eqb x) s.

(** [calculateSimilarity]: intersection size over union size. *)
Definition calculateSimilarity (text1 text2 : string) : Q :=
  if String.eqb text1 "" || String.eqb text2 "" then 0
  else
    let words1 := set_of (extractKeywords text1) in
    let words2 := set_of (extractKeywords text2) in
    match words1, words2 with
    | [], _ | _, [] => 0
    | _, _ =>
        let intersection := set_of (filter (set_has words2) words1) in
        let union := set_of (words1 ++ words2) in
        inject_Z (Z.of_nat (length intersection)) / inject_Z (Z.of_nat (length union))
    end.

End TextUtils.

Example extract_ex :
  TextUtils.extractKeywords "The farm subsidy, for 2025 and 12 farmers!" =
  ["farm"; "subsidy"; "farmers"].
Proof. reflexivity. Qed.

(* ------------------------------------------------------------------ *)
(** ** JavaScript values, numbers and completions *)

Module JS.
Local Open Scope nat_scope.

(** Completion of a call: a value, a thrown exception, or a point where the
    language leaves the result to the implementation. *)
Inductive outcome (A : Type) :=
| Ok (a : A)
| Throw (err : string)
| Unspecified (why : string).
Arguments Ok {A} a.
Arguments Throw {A} err.
Arguments Unspecified {A} why.

Definition bind {A B} (m : outcome A) (k : A -> outcome B) : outcome B :=
  match m with
  | Ok a => k a
  | Throw e => Throw e
  | Unspecified w => Unspecified w
  end.

(** Numbers: values are kept as exact rationals (every value used here is a
    double), with NaN and the infinities. *)
Inductive jsnum := NFin (q : Q) | NNaN | NPosInf | NNegInf.

Inductive jv :=
| JUndef
| JNull
| JBool (b : bool)
| JNum (n : jsnum)
| JStr (s : string)
| JArr (items : list jv)
| JObj (props : list (string * jv)).

Definition num_truthy (n : jsnum) : bool :=
  match n with
  | NFin q => negb (Qeq_bool q 0)
  | NNaN => false
  | _ => true
  end.

(** [!!v] *)
Definition truthy (v : jv) : bool :=
  match v with
  | JUndef | JNull => false
  | JBool b => b
  | JNum n => num_truthy n
  | JStr s => negb (String.eqb s "")
  | JArr _ | JObj _ => true
  end.

Fixpoint assoc (ps : list (string * jv)) (k : string) : option jv :=
  match ps with
  | [] => None
  | (k', v) :: r => if String.eqb k k' then Some v else assoc r k
  end.

(** The property [k] of [const { k, ... } = input] for a property name [k]
    that no built-in prototype defines (["query"], ["topic"],
    ["sectionId"], ...): destructuring [null] or [undefined] throws, naming
    the first property of the pattern. *)
Definition get (v : jv) (k : string) : outcome jv :=
  match v with
  | JUndef => Throw ("TypeError: Cannot destructure property '" ++ k ++ "' of 'input' as it is undefined.")
  | JNull => Throw ("TypeError: Cannot destructure property '" ++ k ++ "' of 'input' as it is null.")
  | JObj ps => Ok (match assoc ps k with Some x => x | None => JUndef end)
  | _ => Ok JUndef
  end.

(** StringToNumber: optional surrounding whitespace; decimal literals with
    optional sign, fraction and exponent; [Infinity]; [0x]/[0o]/[0b] integers. *)
Definition digits_val (base : Z) (l : list ascii) : option Z :=
  let dv (c : ascii) : option Z :=
    let n := Chars.code c in
    let d := if Chars.is_digit c then Some (Z.of_nat n - 48)%Z
             else if Chars.is_lower c then Some (Z.of_nat n - 87)%Z
             else if Chars.is_upper c then Some (Z.of_nat n - 55)%Z
             else None in
    match d with Some x => if (x <? base)%Z then Some x else None | None => None end in
  match l with
  | [] => Some 0%Z
  | _ => fold_left (fun acc c => match acc, dv c with
                                 | Some a, Some x => Some (a * base + x)%Z
                                 | _, _ => None end) l (Some 0%Z)
  end.

Fixpoint span_digits (l : list ascii) : list ascii * list ascii :=
  match l with
  | c :: r => if Chars.is_digit c then let (d, rest) := span_digits r in (c :: d, rest) else ([], l)
  | [] => ([], [])
  end.

Definition pow10 (e : Z) : Q :=
  if (0 <=? e)%Z then inject_Z (10 ^ e) else / inject_Z (10 ^ (- e)).

(** unsigned decimal literal: digits [. digits] [e [+-] digits] *)
Definition unsigned_decimal (l : list ascii) : option Q :=
  let (ip, r1) := span_digits l in
  let '(fp, r2) := match r1 with
                   | "."%char :: r => span_digits r
                   | _ => ([], r1)
                   end in
  if (length ip =? 0) && (length fp =? 0) then None
  else
    let mant := match digits_val 10 (ip ++ fp) with Some m => m | None => 0%Z end in
    let scale := (- Z.of_nat (length fp))%Z in
    let expo : option Z :=
      match r2 with
      | [] => Some 0%Z
      | e :: r3 =>
          if Ascii.eqb e "e"%char || Ascii.eqb e "E"%char then
            let '(sgn, r4) := match r3 with
                              | "+"%char :: r => (1%Z, r)
                              | "-"%char :: r => ((-1)%Z, r)
                              | _ => (1%Z, r3)
                              end in
            let (ed, r5) := span_digits r4 in
            match ed, r5 with
            | _ :: _, [] => option_map (fun x => (sgn * x)%Z) (digits_val 10 ed)
            | _, _ => None
            end
          else None
      end in
    match expo with
    | Some x => Some (inject_Z mant * pow10 (scale + x))%Q
    | None => None
    end.

(** [m / den] rounded to the nearest integer, ties to even. *)
Definition round_half_even (num den : Z) : Z :=
  let m := (num / den)%Z in
  let r := (num mod den)%Z in
  if (den <? 2 * r)%Z || ((2 * r =? den)%Z && Z.odd m) then (m + 1)%Z else m.

(** Whether [a / d >= 2^k]. *)
Definition ge_pow2 (a d k : Z) : bool :=
  if (0 <=? k)%Z then (d * 2 ^ k <=? a)%Z else (d <=? a * 2 ^ (- k))%Z.

(** The Number value of an exact rational: the nearest IEEE-754 double
    (53-bit significand, ties to even, subnormals down to [2^-1074]), or an
    infinity when the rounded magnitude reaches [2^1024].  The result is
    kept as an exact rational in lowest terms, written as an integer when
    it is one. *)
Definition round_double (q : Q) : jsnum :=
  let n := Qnum q in
  let d := Zpos (Qden q) in
  if (n =? 0)%Z then NFin 0
  else
    let a := Z.abs n in
    let l0 := (Z.log2 a - Z.log2 d)%Z in
    let f := if ge_pow2 a d l0 then l0 else (l0 - 1)%Z in
    let e := Z.max (f - 52) (-1074) in
    if (0 <=? e)%Z then
      let m := round_half_even a (d * 2 ^ e) in
      if (2 ^ 1024 <=? m * 2 ^ e)%Z then (if (n <? 0)%Z then NNegInf else NPosInf)
      else NFin (inject_Z (Z.sgn n * m * 2 ^ e))
    else
      let m := round_half_even (a * 2 ^ (- e)) d in
      let v := (Z.sgn n * m)%Z in
      if (v mod 2 ^ (- e) =? 0)%Z then NFin (inject_Z (v / 2 ^ (- e)))
      else NFin (Qred (Qmake v (Z.to_pos (2 ^ (- e))))).

Definition StringToNumber (s : string) : jsnum :=
  let l := Str.chars (Str.trim s) in
  match l with
  | [] => NFin 0
  | _ =>
    if String.eqb (Str.trim s) "Infinity" || String.eqb (Str.trim s) "+Infinity" then NPosInf
    else if String.eqb (Str.trim s) "-Infinity" then NNegInf
    else match l with
         | "0"%char :: b :: r =>
             let base := if Ascii.eqb b "x"%char || Ascii.eqb b "X"%char then 16%Z
                         else if Ascii.eqb b "o"%char || Ascii.eqb b "O"%char then 8%Z
                         else if Ascii.eqb b "b"%char || Ascii.eqb b "B"%char then 2%Z
                         else 0%Z in
             if (base =? 0)%Z then
               match unsigned_decimal l with Some q => round_double q | None => NNaN end
             else match r, digits_val base r with
                  | _ :: _, Some z => round_double (inject_Z z)
                  | _, _ => NNaN
                  end
         | "-"%char :: r => match unsigned_decimal r with Some q => round_double (- q) | None => NNaN end
         | "+"%char :: r => match unsigned_decimal r with Some q => round_double q | None => NNaN end
         | _ => match unsigned_decimal l with Some q => round_double q | None => NNaN end
         end
  end.

Definition has_own_toString (ps : list (string * jv)) : bool :=
  match assoc ps "toString" with Some _ => true | None => false end.

(** Whether [ToString(v)] throws: a JSON object with an own (hence
    non-callable) [toString] property cannot be converted to a primitive. *)
Fixpoint to_string_throws (v : jv) : bool :=
  match v with
  | JObj ps => has_own_toString ps
  | JArr l => existsb to_string_throws l
  | _ => false
  end.

(** [ToNumber(v)] *)
Fixpoint ToNumber (v : jv) : outcome jsnum :=
  match v with
  | JUndef => Ok NNaN
  | JNull => Ok (NFin 0)
  | JBool b => Ok (NFin (if b then 1 else 0))
  | JNum n => Ok n
  | JStr s => Ok (StringToNumber s)
  | JObj ps => if has_own_toString ps then Throw "TypeError: Cannot convert object to primitive value"
               else Ok NNaN
  | JArr l =>
      (* ToPrimitive is [l.join(",")], then StringToNumber *)
      match l with
      | [] => Ok (NFin 0)
      | [x] =>
          match x with
          | JUndef | JNull => Ok (NFin 0)
          | JBool _ => Ok NNaN
          | JNum n => Ok n
          | JStr s => Ok (StringToNumber s)
          | JArr _ => ToNumber x
          | JObj ps => if has_own_toString ps
                       then Throw "TypeError: Cannot convert object to primitive value"
                       else Ok NNaN
          end
      | _ => if existsb to_string_throws l
             then Throw "TypeError: Cannot convert object to primitive value"
             else Ok NNaN
      end
  end.

(** [Math.min(a, b)] *)
Definition num_min (a b : jsnum) : jsnum :=
  match a, b with
  | NNaN, _ | _, NNaN => NNaN
  | NNegInf, _ | _, NNegInf => NNegInf
  | NPosInf, x | x, NPosInf => x
  | NFin p, NFin q => if Qle_bool p q then NFin p else NFin q
  end.

(** Relative end index of [Array.prototype.slice(0, e)] on an array of
    length [len] (ToIntegerOrInfinity truncates toward zero). *)
Definition slice_end (len : nat) (e : jsnum) : nat :=
  match e with
  | NNaN => 0
  | NPosInf => len
  | NNegInf => 0
  | NFin q =>
      let z := Z.quot (Qnum q) (Zpos (Qden q)) in
      if (z <? 0)%Z then Z.to_nat (Z.max (Z.of_nat len + z) 0)
      else Nat.min (Z.to_nat z) len
  end.

(** [arr.slice(0, e)] *)
Definition slice0 {A} (l : list A) (e : jsnum) : list A := firstn (slice_end (length l) e) l.

End JS.

(* ------------------------------------------------------------------ *)
(** ** Plain JavaScript objects used as maps

    [{}] literals used as dictionaries: own properties in creation order, and
    a lookup that falls through to [Object.prototype] for its members. *)

Module JSObj.
Local Open Scope nat_scope.

Definition obj (A : Type) := list (string * A).

(** Property names of [Object.prototype] (inherited by every [{}]). *)
Definition proto_members : list string :=
  [ "constructor"; "__defineGetter__"; "__defineSetter__"; "hasOwnProperty";
    "__lookupGetter__"; "__lookupSetter__"; "isPrototypeOf";
    "propertyIsEnumerable"; "toString"; "valueOf"; "__proto__";
    "toLocaleString" ].

Definition is_proto_member (k : string) : bool := existsb (String.eqb k) proto_members.

Fixpoint get_own {A} (o : obj A) (k : string) : option A :=
  match o with
  | [] => None
  | (k', v) :: r => if String.eqb k k' then Some v else get_own r k
  end.

(** Result of [o[k]]: an own value, an inherited [Object.prototype] member
    (a function, or [Object.prototype] itself for ["__proto__"]), or [undefined]. *)
Inductive lookup_result (A : Type) := LOwn (v : A) | LProto | LUndef.
Arguments LOwn {A} v.
Arguments LProto {A}.
Arguments LUndef {A}.

Definition lookup {A} (o : obj A) (k : string) : lookup_result A :=
  match get_own o k with
  | Some v => LOwn v
  | None => if is_proto_member k then LProto else LUndef
  end.

Fixpoint replace_own {A} (o : obj A) (k : string) (v : A) : obj A :=
  match o with
  | [] => []
  | (k', v') :: r => if String.eqb k k' then (k', v) :: r else (k', v') :: replace_own r k v
  end.

(** [o[k] = v]: updates an own property in place or appends a new one; an
    assignment to ["__proto__"] creates no own property.  It replaces the
    prototype with [v] when [v] is an object; that new prototype is not
    tracked here, so [lookup] describes an object in which no such
    assignment happened, and the theorems about lookups in a built section
    map assume that no node has the id ["__proto__"]. *)
Definition set {A} (o : obj A) (k : string) (v : A) : obj A :=
  if String.eqb k "__proto__" then o
  else match get_own o k with
       | Some _ => replace_own o k v
       | None => (o ++ [(k, v)])%list
       end.

Definition keys {A} (o : obj A) : list string := map fst o.

(** Array indices: canonical decimal numerals below 2^32 - 1. *)
Definition array_index (k : string) : option N :=
  match Str.chars k with
  | [] => None
  | c :: r =>
      if forallb Chars.is_digit (c :: r) &&
         (negb (Ascii.eqb c "0"%char) || (length r =? 0))
      then
        let n := fold_left (fun acc d => (acc * 10 + N.of_nat (Chars.code d - 48))%N) (c :: r) 0%N in
        if (n <? 4294967295)%N then Some n else None
      else None
  end.

Fixpoint insert_by_index {A} (x : N * (string * A)) (l : list (N * (string * A))) :=
  match l with
  | [] => [x]
  | y :: r => if (fst x <? fst y)%N then x :: l else y :: insert_by_index x r
  end.

Fixpoint index_keyed {A} (o : obj A) : list (N * (string * A)) :=
  match o with
  | [] => []
  | (k, v) :: r =>
      match array_index k with
      | Some n => insert_by_index (n, (k, v)) (index_keyed r)
      | None => index_keyed r
      end
  end.

(** [Object.entries(o)]: array-index keys in ascending numeric order, then
    the other keys in creation order. *)
Definition entries {A} (o : obj A) : list (string * A) :=
  (map snd (index_keyed o) ++ filter (fun kv => match array_index (fst kv) with
                                               | Some _ => false | None => true end) o)%list.

End JSObj.

(* ------------------------------------------------------------------ *)
(** ** xml2js output and the document parser
    (src/src/server/services/documentParser.js)

    [xml2js.Parser({explicitArray: true, mergeAttrs: false, explicitRoot: false})]
    yields objects whose property ["$"] holds the attribute map, ["_"] the
    character data, and every other property (an element name) an array of
    children; a child without attributes and children is a plain string. *)

Inductive xval :=
| XStr (s : string)
| XObj (props : list (string * xprop))
with xprop :=
| PAttrs (attrs : list (string * string))
| PText (s : string)
| PArr (items : list xval).

Module DocumentParser.
Local Open Scope nat_scope.

Record Section := mkSection {
  sec_id : string;
  sec_type : string;
  sec_title : string;
  sec_content : string;
  sec_fullText : string;
  sec_level : nat;
  sec_parentId : option string;   (* [null] is [None] *)
  sec_children : list string;
  meta_sectionType : string;
  meta_changed : option string;
  meta_displayStyle : option string
}.

Definition truthy_str (s : string) : bool := negb (String.eqb s "").

Fixpoint prop (props : list (string * xprop)) (k : string) : option xprop :=
  match props with
  | [] => None
  | (k', p) :: r => if String.eqb k k' then Some p else prop r k
  end.

Definition attrs_of (v : xval) : option (list (string * string)) :=
  match v with
  | XObj ps => match prop ps "$" with Some (PAttrs a) => Some a | _ => None end
  | XStr _ => None
  end.

Fixpoint attr (a : list (string * string)) (k : string) : option string :=
  match a with
  | [] => None
  | (k', v) :: r => if String.eqb k k' then Some v else attr r k
  end.

(** [obj.$ && obj.$.id] when truthy. *)
Definition node_id (v : xval) : option string :=
  match attrs_of v with
  | Some a => match attr a "id" with
              | Some i => if truthy_str i then Some i else None
              | None => None
              end
  | None => None
  end.

(** [obj._] when truthy. *)
Definition char_data (ps : list (string * xprop)) : option string :=
  match prop ps "_" with
  | Some (PText s) => if truthy_str s then Some s else None
  | _ => None
  end.

(** [textUtils.stripTags]: removes every match of [/<[^>]*>/g], then trims. *)
Fixpoint after_gt (l : list ascii) : option (list ascii) :=
  match l with
  | [] => None
  | c :: r => if Ascii.eqb c ">"%char then Some r else after_gt r
  end.

Fixpoint strip_tags_aux (fuel : nat) (l : list ascii) : list ascii :=
  match fuel with
  | 0 => l
  | S f =>
      match l with
      | [] => []
      | c :: r =>
          if Ascii.eqb c "<"%char then
            match after_gt r with
            | Some rest => strip_tags_aux f rest
            | None => l
            end
          else c :: strip_tags_aux f r
      end
  end.

Definition stripTags (text : string) : string :=
  Str.trim (Str.of_chars (strip_tags_aux (String.length text) (Str.chars text))).

(** [arr.join(sep)] on strings. *)
Fixpoint join (sep : string) (l : list string) : string :=
  match l with
  | [] => ""
  | [x] => x
  | x :: r => x ++ sep ++ join sep r
  end.

(** [extractTextContent] on an array item. *)
Definition extractTextContent (v : xval) : string :=
  match v with
  | XStr s => s
  | XObj ps => match char_data ps with Some s => s | None => "" end
  end.

(** [extractAllTextRecursive].  ["$"] is skipped; an attribute map met under
    another key is a plain object of strings. *)
Fixpoint extractAllTextRecursive (v : xval) : string :=
  match v with
  | XStr s => s
  | XObj ps =>
      (match char_data ps with Some s => s ++ " " | None => "" end) ++
      (fix go (ps : list (string * xprop)) : string :=
         match ps with
         | [] => ""
         | (k, p) :: r =>
             (if String.eqb k "$" then ""
              else match p with
                   | PArr items =>
                       (fix gi (items : list xval) : string :=
                          match items with
                          | [] => ""
                          | it :: rest => extractAllTextRecursive it ++ " " ++ gi rest
                          end) items
                   | PText t => t ++ " "
                   | PAttrs a =>
                       (match attr a "_" with
                        | Some u => if truthy_str u then u ++ " " else ""
                        | None => "" end) ++
                       String.concat "" (map (fun kv => snd kv ++ " ") a) ++ " "
                   end) ++ go r
         end) ps
  end.

(** [obj[name]] is an array whose first element is truthy. *)
Definition first_child (ps : list (string * xprop)) (name : string) : option xval :=
  match prop ps name with
  | Some (PArr (x :: _)) =>
      match x with
      | XStr t => if truthy_str t then Some x else None
      | XObj _ => Some x
      end
  | _ => None
  end.

Definition title_text (x : xval) : string :=
  match x with
  | XStr t => t
  | XObj ps => match char_data ps with Some t => t | None => "" end
  end.

Definition attr_truthy (v : xval) (k : string) : option string :=
  match attrs_of v with
  | Some a => match attr a k with
              | Some t => if truthy_str t then Some t else None
              | None => None
              end
  | None => None
  end.

(** [extractSectionDataSimple]; [None] is [null]. *)
Definition extractSectionDataSimple (v : xval) (parentId : option string) (level : nat)
  : option Section :=
  match node_id v, v with
  | Some id, XObj ps =>
      let title :=
        match first_child ps "header" with
        | Some x => title_text x
        | None => match first_child ps "enum" with
                  | Some x => title_text x
                  | None => ""
                  end
        end in
      let content :=
        match prop ps "text" with
        | Some (PArr items) => join " " (map extractTextContent items)
        | _ => ""
        end in
      let allText := extractAllTextRecursive v in
      let stype := match attr_truthy v "section-type" with Some t => t | None => "section" end in
      Some {| sec_id := id;
              sec_type := stype;
              sec_title := Str.trim (stripTags title);
              sec_content := Str.trim (stripTags content);
              sec_fullText := Str.trim (stripTags allText);
              sec_level := level;
              sec_parentId := parentId;
              sec_children := [];
              meta_sectionType := stype;
              meta_changed := attr_truthy v "changed";
              meta_displayStyle := attr_truthy v "reported-display-style" |}
  | _, _ => None
  end.

(** The loops of [processSectionsSimple] over [Object.entries(obj)] and over
    each array value, for the recursive call [f].  String properties and
    string array items are skipped as in the source; the recursion into the
    attribute map (a plain object whose values are strings) visits no object
    and is omitted. *)
Definition process_items
  (f : xval -> JSObj.obj Section -> option string -> nat -> JSObj.obj Section)
  (own_or_parent parentId : option string) (level : nat) :=
  fix go_items (items : list xval) (sections : JSObj.obj Section) : JSObj.obj Section :=
    match items with
    | [] => sections
    | item :: rest =>
        go_items rest
          (match item with
           | XStr _ => sections
           | XObj _ =>
               match node_id item with
               | Some _ => f item sections own_or_parent (S level)
               | None => f item sections parentId level
               end
           end)
    end.

Definition process_props
  (f : xval -> JSObj.obj Section -> option string -> nat -> JSObj.obj Section)
  (own_or_parent parentId : option string) (level : nat) :=
  fix go_props (ps : list (string * xprop)) (sections : JSObj.obj Section) : JSObj.obj Section :=
    match ps with
    | [] => sections
    | (_, PArr items) :: r => go_props r (process_items f own_or_parent parentId level items sections)
    | _ :: r => go_props r sections
    end.

(** [processSectionsSimple] *)
Fixpoint processSectionsSimple (v : xval) (sections : JSObj.obj Section)
  (parentId : option string) (level : nat) {struct v} : JSObj.obj Section :=
  match v with
  | XStr _ => sections
  | XObj ps =>
      let sections :=
        match node_id v with
        | Some _ =>
            match extractSectionDataSimple v parentId level with
            | Some sec => JSObj.set sections (sec_id sec) sec
            | None => sections
            end
        | None => sections
        end in
      let own_or_parent := match node_id v with Some i => Some i | None => parentId end in
      process_props processSectionsSimple own_or_parent parentId level ps sections
  end.

(** The section map of [buildDocumentStructure]. *)
Definition build_sections (parsedXml : xval) : JSObj.obj Section :=
  processSectionsSimple parsedXml [] None 0.

(** Identifiers of the nodes [processSectionsSimple] visits. *)
Fixpoint node_ids (v : xval) : list string :=
  match v with
  | XStr _ => []
  | XObj ps =>
      app (match node_id v with Some i => [i] | None => [] end)
          (flat_map (fun kp => match kp with
                               | (_, PArr items) => flat_map node_ids items
                               | _ => []
                               end) ps)
  end.

(** The section-map invariant of the spec: every [parentId] is [null] or an
    own key of the map. *)
Definition parent_ok (sections : JSObj.obj Section) (pid : option string) : Prop :=
  match pid with
  | None => True
  | Some p => In p (JSObj.keys sections)
  end.

Definition parents_ok (sections : JSObj.obj Section) : Prop :=
  forall k sec, In (k, sec) sections -> parent_ok sections (sec_parentId sec).

End DocumentParser.

(* ------------------------------------------------------------------ *)
(** ** Search index and keyword search (documentParser.js) *)

Module Search.
Import JS DocumentParser.
Local Open Scope nat_scope.

Fixpoint fold_outcome {A B} (f : A -> B -> outcome A) (l : list B) (a : A) : outcome A :=
  match l with
  | [] => Ok a
  | x :: r => bind (f a x) (fold_outcome f r)
  end.

Definition index_obj := JSObj.obj (list string).

(** One keyword of [buildSearchIndex]:
    [if (!searchIndex[keyword]) searchIndex[keyword] = [];
     if (!searchIndex[keyword].includes(sectionId)) searchIndex[keyword].push(sectionId);] *)
Definition index_keyword (sectionId : string) (idx : index_obj) (keyword : string)
  : outcome index_obj :=
  let idx := match JSObj.lookup idx keyword with
             | JSObj.LUndef => JSObj.set idx keyword []
             | _ => idx
             end in
  match JSObj.lookup idx keyword with
  | JSObj.LOwn l =>
      if existsb (String.eqb sectionId) l then Ok idx
      else Ok (JSObj.set idx keyword (app l [sectionId]))
  | _ => Throw "TypeError: searchIndex[keyword].includes is not a function"
  end.

(** [buildSearchIndex(sections, searchIndex)] from an empty [searchIndex]. *)
Definition buildSearchIndex (sections : JSObj.obj Section) : outcome index_obj :=
  fold_outcome
    (fun idx (kv : string * Section) =>
       let (sectionId, section) := kv in
       let allKeywords := app (TextUtils.extractKeywords (sec_title section))
                              (TextUtils.extractKeywords (sec_fullText section)) in
       fold_outcome (index_keyword sectionId) allKeywords idx)
    (JSObj.entries sections) [].

Record snapshot := mkSnapshot {
  sections : JSObj.obj Section;
  searchIndex : index_obj
}.

(** [buildDocumentStructure] restricted to the section map and the index. *)
Definition buildDocumentStructure (parsedXml : xval) : outcome snapshot :=
  let secs := build_sections parsedXml in
  bind (buildSearchIndex secs) (fun idx => Ok (mkSnapshot secs idx)).

(** [sectionScores[sectionId] = (sectionScores[sectionId] || 0) + 1].  For
    the name of an inherited [Object.prototype] member the sum is a string
    (the member converted to a string, then ["1"]); the comparator
    [b[1] - a[1]] of the later sort is then [NaN], read as [0], against
    every other entry, which is not a consistent comparator, so the order
    [Array.prototype.sort] produces is implementation-defined. *)
Definition bump (scores : JSObj.obj nat) (sectionId : string) : outcome (JSObj.obj nat) :=
  match JSObj.lookup scores sectionId with
  | JSObj.LOwn n => Ok (JSObj.set scores sectionId (S n))
  | JSObj.LUndef => Ok (JSObj.set scores sectionId 1)
  | JSObj.LProto =>
      Unspecified "a string score makes the sort comparator inconsistent: the sort order is implementation-defined"
  end.

(** [keywords.forEach(keyword => { const matchingSections = this.documentData.searchIndex[keyword] || []; ... })] *)
Definition score_keyword (idx : index_obj) (scores : JSObj.obj nat) (keyword : string)
  : outcome (JSObj.obj nat) :=
  match JSObj.lookup idx keyword with
  | JSObj.LOwn matching => fold_outcome bump matching scores
  | JSObj.LUndef => Ok scores
  | JSObj.LProto => Throw "TypeError: matchingSections.forEach is not a function"
  end.

(** [textUtils.extractKeywords] on any JavaScript value. *)
Definition extractKeywords_js (v : jv) : list string :=
  match v with
  | JStr s => TextUtils.extractKeywords s
  | _ => []
  end.

(** [Array.prototype.sort] with comparator [(a, b) => b[1] - a[1]] (stable):
    insertion of each entry before the first entry of smaller or equal score
    taken from the sorted rest. *)
Fixpoint insert_desc (x : string * nat) (l : list (string * nat)) : list (string * nat) :=
  match l with
  | [] => [x]
  | y :: r => if snd y <=? snd x then x :: l else y :: insert_desc x r
  end.

Fixpoint sort_desc (l : list (string * nat)) : list (string * nat) :=
  match l with
  | [] => []
  | x :: r => insert_desc x (sort_desc r)
  end.

(** The ranked [[sectionId, score]] entries of [searchSections(query, limit)]. *)
Definition searchSections_ranked (doc : snapshot) (query : jv) (limit : jsnum)
  : outcome (list (string * nat)) :=
  let keywords := extractKeywords_js query in
  bind (fold_outcome (score_keyword (searchIndex doc)) keywords [])
       (fun sectionScores => Ok (slice0 (sort_desc (JSObj.entries sectionScores)) limit)).

(** [searchSections(query, limit)]: [{section: sections[sectionId], score}]
    ([None] is [undefined]). *)
Definition searchSections (doc : snapshot) (query : jv) (limit : jsnum)
  : outcome (list (option Section * nat)) :=
  bind (searchSections_ranked doc query limit)
       (fun ranked => Ok (map (fun kv => (JSObj.get_own (sections doc) (fst kv), snd kv)) ranked)).

(** Specification-side notions for the ranking: the index list of a keyword
    ([[]] when absent), the number of query tokens (with repetitions) whose
    list holds [id], and the ids in the order they are first encountered. *)
Definition index_list (idx : index_obj) (t : string) : list string :=
  match JSObj.get_own idx t with Some l => l | None => [] end.

Definition query_score (idx : index_obj) (toks : list string) (id : string) : nat :=
  length (filter (fun t => existsb (String.eqb id) (index_list idx t)) toks).

Definition first_seen (l : list string) : list string :=
  fold_left (fun acc x => if existsb (String.eqb x) acc then acc else app acc [x]) l [].

(** The snapshot of a document without sections. *)
Definition empty_doc : snapshot := mkSnapshot [] [].

End Search.

(* ------------------------------------------------------------------ *)
(** ** The tools of the LLM service (src/unnamed/part_005) *)

Module Tools.
Import JS DocumentParser Search.
Local Open Scope nat_scope.

(** The double-quote character as a one-character string. *)
Definition dq : string := String (ascii_of_nat 34) EmptyString.

(** [textUtils.truncateText(text, maxLength)] on a string argument. *)
Definition truncateText (text : string) (maxLength : nat) : string :=
  if String.eqb text "" then ""
  else if String.length text <=? maxLength then text
  else Str.trim (substring 0 maxLength text) ++ "...".

Definition jnat (n : nat) : jv := JNum (NFin (inject_Z (Z.of_nat n))).

Fixpoint map_outcome {A B} (f : A -> outcome B) (l : list A) : outcome (list B) :=
  match l with
  | [] => Ok []
  | x :: r => bind (f x) (fun y => bind (map_outcome f r) (fun ys => Ok (y :: ys)))
  end.

(** One element of [searchResults.map(result => ({id: result.section.id, ...}))];
    [cut] is the truncation length of [content]. *)
Definition result_entry (cut : nat) (r : option Section * nat) : outcome jv :=
  match fst r with
  | None => Throw "TypeError: Cannot read properties of undefined (reading 'id')"
  | Some s =>
      Ok (JObj [("id", JStr (sec_id s)); ("title", JStr (sec_title s));
                ("content", JStr (truncateText (sec_fullText s) cut));
                ("level", jnat (sec_level s)); ("type", JStr (sec_type s));
                ("score", jnat (snd r));
                ("excerpt", JStr (truncateText (sec_fullText s) 200))])
  end.

(** The destructuring default [maxResults = 3], then [Math.min(maxResults, 3)]. *)
Definition result_limit (maxResults : jv) : outcome jsnum :=
  let m := match maxResults with JUndef => JNum (NFin 3) | v => v end in
  bind (ToNumber m) (fun n => Ok (num_min n (NFin 3))).

(** [executeSearchSections(input)] *)
Definition executeSearchSections (doc : snapshot) (input : jv) : outcome jv :=
  bind (get input "query") (fun query =>
  bind (get input "maxResults") (fun maxResults =>
  bind (result_limit maxResults) (fun limit =>
  bind (searchSections doc query limit) (fun searchResults =>
  bind (map_outcome (result_entry 300) searchResults) (fun results =>
  Ok (JObj [("query", query); ("results", JArr results);
            ("totalFound", jnat (length searchResults))])))))).

Definition topicKeywords : JSObj.obj (list string) :=
  [("tax", ["tax"; "taxes"; "taxation"; "income"; "deduction"; "credit"; "revenue"; "IRS"]);
   ("defense", ["defense"; "military"; "armed forces"; "national security"; "pentagon"; "veteran"]);
   ("agriculture", ["agriculture"; "farm"; "farming"; "food"; "SNAP"; "nutrition"; "USDA"; "crop"]);
   ("energy", ["energy"; "oil"; "gas"; "petroleum"; "renewable"; "solar"; "wind"; "coal"]);
   ("environment", ["environment"; "climate"; "EPA"; "pollution"; "emission"; "green"; "conservation"]);
   ("banking", ["banking"; "finance"; "financial"; "bank"; "credit"; "loan"; "mortgage"]);
   ("healthcare", ["health"; "medical"; "medicare"; "medicaid"; "hospital"; "insurance"; "doctor"]);
   ("education", ["education"; "school"; "student"; "teacher"; "university"; "college"; "learning"]);
   ("immigration", ["immigration"; "immigrant"; "border"; "visa"; "citizenship"; "deportation"]);
   ("housing", ["housing"; "home"; "rent"; "mortgage"; "affordable housing"; "HUD"])].

Definition impactKeywords : JSObj.obj (list string) :=
  [("appropriation", ["appropriation"; "appropriated"; "appropriates"; "funds available"]);
   ("funding", ["funding"; "funded"; "fund"; "allocated"; "allocation"]);
   ("cost", ["cost"; "costs"; "expense"; "expenditure"; "budget"]);
   ("budget", ["budget"; "budgeted"; "budgetary"; "fiscal"]);
   ("spending", ["spending"; "spend"; "expenditure"; "outlay"]);
   ("revenue", ["revenue"; "income"; "receipts"; "collections"]);
   ("tax_change", ["tax increase"; "tax decrease"; "tax rate"; "tax reform"; "tax credit"; "tax deduction"])].

(** [const keywords = table[topic.toLowerCase()] || [topic]], up to the
    following [keywords.join(' OR ')]: a non-string [topic] has no
    [toLowerCase] method, and an inherited [Object.prototype] member has no
    [join] method. *)
Definition keywords_for (table : JSObj.obj (list string)) (field : string) (topic : jv)
  : outcome (list string) :=
  match topic with
  | JStr t =>
      match JSObj.lookup table (Str.toLowerCase t) with
      | JSObj.LOwn l => Ok l
      | JSObj.LUndef => Ok [t]
      | JSObj.LProto => Throw "TypeError: keywords.join is not a function"
      end
  | JUndef => Throw "TypeError: Cannot read properties of undefined (reading 'toLowerCase')"
  | JNull => Throw "TypeError: Cannot read properties of null (reading 'toLowerCase')"
  | _ => Throw ("TypeError: " ++ field ++ ".toLowerCase is not a function")
  end.

(** The common body of [executeSearchByTopic] and [executeSearchFinancialImpact]:
    [field] is ["topic"] or ["impactType"]. *)
Definition keyword_search (table : JSObj.obj (list string)) (field : string)
  (doc : snapshot) (input : jv) : outcome jv :=
  bind (get input field) (fun topic =>
  bind (get input "maxResults") (fun maxResults =>
  bind (keywords_for table field topic) (fun keywords =>
  let searchQuery := join " OR " keywords in
  bind (result_limit maxResults) (fun limit =>
  bind (searchSections doc (JStr searchQuery) limit) (fun searchResults =>
  bind (map_outcome (result_entry 250) searchResults) (fun results =>
  Ok (JObj [(field, topic); ("searchKeywords", JArr (map JStr keywords));
            ("results", JArr results); ("totalFound", jnat (length searchResults))]))))))).

Definition executeSearchByTopic (doc : snapshot) (input : jv) : outcome jv :=
  keyword_search topicKeywords "topic" doc input.

Definition executeSearchFinancialImpact (doc : snapshot) (input : jv) : outcome jv :=
  keyword_search impactKeywords "impactType" doc input.

(** The property key of [sections[sectionId]]. *)
Definition property_key (v : jv) : outcome string :=
  match v with
  | JStr s => Ok s
  | JUndef => Ok "undefined"
  | JNull => Ok "null"
  | JBool b => Ok (if b then "true" else "false")
  | _ => Unspecified "property key of a number, array or object: Number::toString and Array.prototype.join are outside this model"
  end.

(** [executeGetSectionById(input)]; [section.parent] is not a property of a
    section record, and an inherited [Object.prototype] member is a function
    or [Object.prototype], on which every read property is [undefined]. *)
Definition executeGetSectionById (doc : snapshot) (input : jv) : outcome jv :=
  bind (get input "sectionId") (fun sectionId =>
  bind (property_key sectionId) (fun k =>
  match JSObj.lookup (sections doc) k with
  | JSObj.LOwn s =>
      Ok (JObj [("id", JStr (sec_id s)); ("title", JStr (sec_title s));
                ("content", JStr (truncateText (sec_fullText s) 600));
                ("level", jnat (sec_level s)); ("type", JStr (sec_type s));
                ("parent", JUndef); ("children", JArr (map JStr (sec_children s)))])
  | JSObj.LProto =>
      Ok (JObj [("id", JUndef); ("title", JUndef); ("content", JStr "");
                ("level", JUndef); ("type", JUndef); ("parent", JUndef); ("children", JArr [])])
  | JSObj.LUndef => Throw ("Section with ID " ++ dq ++ k ++ dq ++ " not found")
  end)).

(** [executeGetBillOverview(input)]: the document snapshot has no [title]
    and no [structure] property. *)
Definition executeGetBillOverview (doc : snapshot) (input : jv) : outcome jv :=
  Ok (JObj [("title", JStr "H.R. 1 (2025)");
            ("totalSections", jnat (length (JSObj.keys (sections doc))));
            ("structure", JStr "Structure not available");
            ("mainTopics", JArr (map JStr ["Agriculture and Food Policy";
                                           "Defense and National Security";
                                           "Banking and Financial Services";
                                           "Energy and Natural Resources";
                                           "Environmental Protection";
                                           "Tax Policy and Revenue"]));
            ("summary", JStr "H.R. 1 (2025) is a comprehensive legislative bill covering multiple policy areas including agriculture, defense, banking, energy, environment, and tax policy.")]).

(** The [switch (toolCall.name)] of [executeToolCalls]. *)
Definition run_tool (doc : snapshot) (name : string) (input : jv) : outcome jv :=
  if String.eqb name "search_sections" then executeSearchSections doc input
  else if String.eqb name "get_section_by_id" then executeGetSectionById doc input
  else if String.eqb name "search_by_topic" then executeSearchByTopic doc input
  else if String.eqb name "get_bill_overview" then executeGetBillOverview doc input
  else if String.eqb name "search_financial_impact" then executeSearchFinancialImpact doc input
  else Ok (JObj [("error", JStr ("Unknown tool: " ++ name))]).

(** Content items of a message.  The [content] of a tool result is the value
    handed to [JSON.stringify]. *)
Inductive item :=
| IText (text : string)
| IToolUse (id name : string) (input : jv)
| IToolResult (tool_use_id : string) (content : jv).

Definition tool_uses (content : list item) : list (string * string * jv) :=
  flat_map (fun it => match it with IToolUse i n x => [(i, n, x)] | _ => [] end) content.

Definition use_id (call : string * string * jv) : string := fst (fst call).

Definition result_id (it : item) : option string :=
  match it with IToolResult i _ => Some i | _ => None end.

(** [{ error: message }] *)
Definition error_payload (msg : string) : jv := JObj [("error", JStr msg)].

(** [error.message] of a thrown error: the model writes a [TypeError] as
    ["TypeError: "] followed by its message. *)
Definition error_message (e : string) : string :=
  if String.prefix "TypeError: " e then substring 11 (String.length e - 11) e else e.

(** One iteration of the [for (const toolCall of toolCalls)] loop, with its
    [try]/[catch]. *)
Definition run_call (doc : snapshot) (call : string * string * jv) : outcome item :=
  let '(id, name, input) := call in
  match run_tool doc name input with
  | Ok r => Ok (IToolResult id r)
  | Throw e => Ok (IToolResult id (error_payload (error_message e)))
  | Unspecified w => Unspecified w
  end.

(** [executeToolCalls(response)], with the final loop adding a fallback
    result for every tool_use id absent from [toolResultIds]. *)
Definition executeToolCalls (doc : snapshot) (content : list item) : outcome (list item) :=
  let toolCalls := tool_uses content in
  bind (map_outcome (run_call doc) toolCalls) (fun toolResults =>
  let toolUseIds := map use_id toolCalls in
  let toolResultIds := flat_map (fun r => match result_id r with Some i => [i] | None => [] end) toolResults in
  Ok (app toolResults
          (map (fun i => IToolResult i (error_payload "Tool execution failed"))
               (filter (fun i => negb (existsb (String.eqb i) toolResultIds)) toolUseIds)))).

End Tools.

(* ------------------------------------------------------------------ *)
(** ** The orchestration loop (src/unnamed/part_005) *)

Module Orchestrator.
Import JS Search Tools.
Local Open Scope nat_scope.

Inductive msg_content := CText (s : string) | CItems (l : list item).

Record message := mkMessage { role : string; content : msg_content }.

(** A request body; its other fields (model, max_tokens, temperature) are
    copied unchanged by [{...originalPayload, messages}] and left out. *)
Record payload := mkPayload { messages : list message; tools : list string }.

Definition has_tool_use (c : list item) : bool :=
  existsb (fun it => match it with IToolUse _ _ _ => true | _ => false end) c.

Definition q (s : string) : string := dq ++ s ++ dq.

Definition final_instruction : string :=
  "Based on all the information gathered from the tools above, please provide your final JSON response using this exact format: {"
  ++ q "answer" ++ ": " ++ q "comprehensive answer" ++ ", "
  ++ q "sections" ++ ": [" ++ q "relevant section IDs" ++ "], "
  ++ q "keyPoints" ++ ": [" ++ q "key takeaways" ++ "], "
  ++ q "implications" ++ ": " ++ q "what this means" ++ ", "
  ++ q "confidence" ++ ": " ++ q "high/medium/low" ++ "}".

Definition maxIterations : nat := 3.

Section Loop.
(** The loaded document, and the model: the content of its reply to a request. *)
Variable doc : snapshot.
Variable reply : payload -> list item.
Variable originalPayload : payload.

(** The [while] loop; [fuel] is [maxIterations - iterationCount].  The result
    is the final [iterationCount], [currentResponse.content],
    [conversationHistory] and the requests posted, in order. *)
Fixpoint tool_loop (fuel iterationCount : nat) (current : list item) (history : list message)
  : outcome (nat * list item * list message * list payload) :=
  match fuel with
  | O => Ok (iterationCount, current, history, [])
  | S k =>
      if has_tool_use current then
        bind (executeToolCalls doc current) (fun toolResults =>
        let history := app history [mkMessage "assistant" (CItems current);
                                    mkMessage "user" (CItems toolResults)] in
        let nextPayload := mkPayload history (tools originalPayload) in
        bind (tool_loop k (S iterationCount) (reply nextPayload) history) (fun r =>
        let '(n, cur, h, posted) := r in Ok (n, cur, h, nextPayload :: posted)))
      else Ok (iterationCount, current, history, [])
  end.

(** [handleToolCallsRecursively] with the iteration budget [maxIter]: the
    returned content and the requests posted. *)
Definition handle_with (maxIter : nat) (response : list item) : outcome (list item * list payload) :=
  bind (tool_loop maxIter 0 response (messages originalPayload)) (fun r =>
  let '(iterationCount, current, history, posted) := r in
  if (maxIter <=? iterationCount) && has_tool_use current then
    bind (executeToolCalls doc current) (fun finalToolResults =>
    let history := app history [mkMessage "assistant" (CItems current);
                                mkMessage "user" (CItems finalToolResults);
                                mkMessage "user" (CItems [IText final_instruction])] in
    let finalPayload := mkPayload history (tools originalPayload) in
    Ok (reply finalPayload, app posted [finalPayload]))
  else Ok (current, posted)).

Definition handleToolCallsRecursively (response : list item) : outcome (list item * list payload) :=
  handle_with maxIterations response.

(** [makeApiCall] from the first request on ([response.data.content] is
    always present here), with the budget [maxIter]. *)
Definition makeApiCall_with (maxIter : nat) : outcome (list item * list payload) :=
  let first := reply originalPayload in
  if has_tool_use first then
    bind (handle_with maxIter first) (fun r => Ok (fst r, originalPayload :: snd r))
  else Ok (first, [originalPayload]).

End Loop.

(** Every assistant turn is followed by a user turn whose tool-result ids are
    the tool_use ids of the assistant turn, in the same order. *)
Definition items (c : msg_content) : list item :=
  match c with CItems l => l | CText _ => [] end.

Fixpoint pairing_ok (ms : list message) : Prop :=
  match ms with
  | [] => True
  | m :: r =>
      (if String.eqb (role m) "assistant" then
         match r with
         | m' :: _ => role m' = "user" /\
                      exists res, content m' = CItems res /\
                      map result_id res = map (fun u => Some (use_id u)) (tool_uses (items (content m)))
         | [] => False
         end
       else True) /\ pairing_ok r
  end.

Definition count_assistant (ms : list message) : nat :=
  length (filter (fun m => String.eqb (role m) "assistant") ms).

End Orchestrator.

(* ------------------------------------------------------------------ *)
(** ** Query validation (src/unnamed/part_005) *)

Module QueryProcessor.
Import JS.
Local Open Scope nat_scope.

(** [validateQuery(query)]: [(valid, errors)].  A truthy non-string has no
    [trim] method. *)
Definition validateQuery (query : jv) : outcome (bool * list string) :=
  let e1 := if truthy query then [] else ["Query is required"] in
  let e2 := match query with JStr _ => [] | _ => ["Query must be a string"] end in
  let rest : outcome (list string) :=
    if truthy query then
      match query with
      | JStr s =>
          Ok (app (if String.length (Str.trim s) =? 0 then ["Query cannot be empty"] else [])
                  (if 1000 <? String.length s then ["Query is too long (maximum 1000 characters)"] else []))
      | _ => Throw "TypeError: query.trim is not a function"
      end
    else Ok [] in
  bind rest (fun e3 => let errors := app (app e1 e2) e3 in Ok (Nat.eqb (length errors) 0, errors)).

End QueryProcessor.

(* ------------------------------------------------------------------ *)
(** ** JSON.parse and the response normalizer (src/unnamed/part_005) *)

Module Json.
Import JS.
Local Open Scope nat_scope.

Definition code := Chars.code.

(** JSON whitespace: space, tab, line feed, carriage return. *)
Definition is_json_ws (c : ascii) : bool :=
  (code c =? 32) || (code c =? 9) || (code c =? 10) || (code c =? 13).

Fixpoint skip_ws (l : list ascii) : list ascii :=
  match l with
  | c :: r => if is_json_ws c then skip_ws r else l
  | [] => []
  end.

Definition hex_digit (c : ascii) : option nat :=
  let n := code c in
  if (48 <=? n) && (n <=? 57) then Some (n - 48)
  else if (97 <=? n) && (n <=? 102) then Some (n - 87)
  else if (65 <=? n) && (n <=? 70) then Some (n - 55)
  else None.

(** The characters of a string literal after its opening quote; code units
    above 255 lie outside the string model. *)
Fixpoint parse_string (l : list ascii) (acc : list ascii) : outcome (string * list ascii) :=
  match l with
  | [] => Throw "SyntaxError: Unterminated string in JSON"
  | c :: r =>
      if code c =? 34 then Ok (Str.of_chars (rev acc), r)
      else if code c =? 92 then
        match r with
        | [] => Throw "SyntaxError: Bad escaped character in JSON"
        | e :: r' =>
            let n := code e in
            if (n =? 34) || (n =? 92) || (n =? 47) then parse_string r' (e :: acc)
            else if n =? 98 then parse_string r' (ascii_of_nat 8 :: acc)
            else if n =? 102 then parse_string r' (ascii_of_nat 12 :: acc)
            else if n =? 110 then parse_string r' (ascii_of_nat 10 :: acc)
            else if n =? 114 then parse_string r' (ascii_of_nat 13 :: acc)
            else if n =? 116 then parse_string r' (ascii_of_nat 9 :: acc)
            else if n =? 117 then
              match r' with
              | h1 :: h2 :: h3 :: h4 :: r'' =>
                  match hex_digit h1, hex_digit h2, hex_digit h3, hex_digit h4 with
                  | Some a, Some b, Some c', Some d =>
                      let u := ((a * 16 + b) * 16 + c') * 16 + d in
                      if u <? 256 then parse_string r'' (ascii_of_nat u :: acc)
                      else Unspecified "a code unit above 255 is outside the string model"
                  | _, _, _, _ => Throw "SyntaxError: Bad Unicode escape in JSON"
                  end
              | _ => Throw "SyntaxError: Bad Unicode escape in JSON"
              end
            else Throw "SyntaxError: Bad escaped character in JSON"
        end
      else if code c <? 32 then Throw "SyntaxError: Bad control character in string literal in JSON"
      else parse_string r (c :: acc)
  end.

(** [-? (0 | [1-9][0-9]* ) (. [0-9]+)? ([eE] [+-]? [0-9]+)?] *)
Definition parse_number (l : list ascii) : outcome (jsnum * list ascii) :=
  let '(neg, l1) := match l with
                    | c :: r => if code c =? 45 then (true, r) else (false, l)
                    | [] => (false, l)
                    end in
  let int_part : option (list ascii * list ascii) :=
    match l1 with
    | c :: r => if code c =? 48 then Some ([c], r)
                else if Chars.is_digit c then Some (span_digits l1)
                else None
    | [] => None
    end in
  match int_part with
  | None => Throw "SyntaxError: No number after minus sign in JSON"
  | Some (ip, r1) =>
      let frac : option (list ascii * list ascii) :=
        match r1 with
        | c :: r => if code c =? 46 then
                      match span_digits r with
                      | ([], _) => None
                      | (fd, r') => Some (fd, r')
                      end
                    else Some ([], r1)
        | [] => Some ([], r1)
        end in
      match frac with
      | None => Throw "SyntaxError: Unterminated fractional number in JSON"
      | Some (fp, r2) =>
          let expo : option (Z * list ascii) :=
            match r2 with
            | c :: r =>
                if (code c =? 101) || (code c =? 69) then
                  let '(sgn, r3) := match r with
                                    | s :: r' => if code s =? 43 then (1%Z, r')
                                                 else if code s =? 45 then ((-1)%Z, r')
                                                 else (1%Z, r)
                                    | [] => (1%Z, r)
                                    end in
                  match span_digits r3 with
                  | ([], _) => None
                  | (ed, r4) => match digits_val 10 ed with
                                | Some x => Some ((sgn * x)%Z, r4)
                                | None => None
                                end
                  end
                else Some (0%Z, r2)
            | [] => Some (0%Z, r2)
            end in
          match expo with
          | None => Throw "SyntaxError: Exponent part is missing a number in JSON"
          | Some (x, r5) =>
              let mant := match digits_val 10 (ip ++ fp) with Some m => m | None => 0%Z end in
              let v := (inject_Z mant * pow10 (x - Z.of_nat (length fp)))%Q in
              Ok (round_double (if neg then (- v)%Q else v), r5)
          end
      end
  end.

(** [CreateDataProperty]: a repeated key keeps its first position and takes
    the last value. *)
Definition define (ps : list (string * jv)) (k : string) (v : jv) : list (string * jv) :=
  match assoc ps k with
  | Some _ => map (fun kv => if String.eqb (fst kv) k then (k, v) else kv) ps
  | None => app ps [(k, v)]
  end.

Fixpoint prefix (p l : list ascii) : option (list ascii) :=
  match p, l with
  | [], _ => Some l
  | c :: p', d :: l' => if Ascii.eqb c d then prefix p' l' else None
  | _, [] => None
  end.

(** A JSON value at the start of [l] (after whitespace) and the rest of the
    input; [fuel] bounds the nesting depth and the length of the member and
    element lists (the input length suffices). *)
Fixpoint parse_value (fuel : nat) (l : list ascii) : outcome (jv * list ascii) :=
  match fuel with
  | O => Unspecified "input longer than the fuel"
  | S k =>
    let fix members (f : nat) (l : list ascii) (acc : list (string * jv)) : outcome (jv * list ascii) :=
      match f with
      | O => Unspecified "input longer than the fuel"
      | S f' =>
        match skip_ws l with
        | c :: r =>
            if code c =? 34 then
              bind (parse_string r []) (fun kr =>
              let '(key, r1) := kr in
              match skip_ws r1 with
              | d :: r2 =>
                  if code d =? 58 then
                    bind (parse_value k r2) (fun vr =>
                    let '(v, r3) := vr in
                    match skip_ws r3 with
                    | e :: r4 =>
                        if code e =? 44 then members f' r4 (define acc key v)
                        else if code e =? 125 then Ok (JObj (define acc key v), r4)
                        else Throw "SyntaxError: Expected ',' or '}' after property value in JSON"
                    | [] => Throw "SyntaxError: Expected ',' or '}' after property value in JSON"
                    end)
                  else Throw "SyntaxError: Expected ':' after property name in JSON"
              | [] => Throw "SyntaxError: Expected ':' after property name in JSON"
              end)
            else Throw "SyntaxError: Expected double-quoted property name in JSON"
        | [] => Throw "SyntaxError: Expected double-quoted property name in JSON"
        end
      end in
    let fix elements (f : nat) (l : list ascii) (acc : list jv) : outcome (jv * list ascii) :=
      match f with
      | O => Unspecified "input longer than the fuel"
      | S f' =>
        bind (parse_value k l) (fun vr =>
        let '(v, r) := vr in
        match skip_ws r with
        | e :: r' =>
            if code e =? 44 then elements f' r' (app acc [v])
            else if code e =? 93 then Ok (JArr (app acc [v]), r')
            else Throw "SyntaxError: Expected ',' or ']' after array element in JSON"
        | [] => Throw "SyntaxError: Expected ',' or ']' after array element in JSON"
        end)
      end in
    match skip_ws l with
    | [] => Throw "SyntaxError: Unexpected end of JSON input"
    | c :: r =>
        if code c =? 123 then
          match skip_ws r with
          | d :: r' => if code d =? 125 then Ok (JObj [], r') else members k r []
          | [] => Throw "SyntaxError: Expected property name or '}' in JSON"
          end
        else if code c =? 91 then
          match skip_ws r with
          | d :: r' => if code d =? 93 then Ok (JArr [], r') else elements k r []
          | [] => Throw "SyntaxError: Unexpected end of JSON input"
          end
        else if code c =? 34 then
          bind (parse_string r []) (fun sr => Ok (JStr (fst sr), snd sr))
        else if (code c =? 45) || Chars.is_digit c then bind (parse_number (c :: r)) (fun nr => Ok (JNum (fst nr), snd nr))
        else match prefix (Str.chars "true") (c :: r) with
             | Some r' => Ok (JBool true, r')
             | None =>
               match prefix (Str.chars "false") (c :: r) with
               | Some r' => Ok (JBool false, r')
               | None =>
                 match prefix (Str.chars "null") (c :: r) with
                 | Some r' => Ok (JNull, r')
                 | None => Throw "SyntaxError: Unexpected token in JSON"
                 end
               end
             end
    end
  end.

(** [JSON.parse(text)] *)
Definition parse (text : string) : outcome jv :=
  let l := Str.chars text in
  bind (parse_value (S (length l)) l) (fun vr =>
  match skip_ws (snd vr) with
  | [] => Ok (fst vr)
  | _ => Throw "SyntaxError: Unexpected non-whitespace character after JSON"
  end).

End Json.

Module ResponseParser.
Import JS Tools.
Local Open Scope nat_scope.

Definition nl : string := String (ascii_of_nat 10) EmptyString.

Fixpoint find_index (p : ascii -> bool) (l : list ascii) (i : nat) : option nat :=
  match l with
  | [] => None
  | c :: r => if p c then Some i else find_index p r (S i)
  end.

(** [content.match(/\{[\s\S]*\}/)]: from the first [{] to the last [}]
    after it. *)
Definition brace_block (s : string) : option string :=
  let l := Str.chars s in
  match find_index (fun c => Chars.code c =? 123) l 0,
        find_index (fun c => Chars.code c =? 125) (rev l) 0 with
  | Some i, Some j =>
      let last := length l - 1 - j in
      if i <? last then Some (substring i (last - i + 1) s) else None
  | _, _ => None
  end.

(** [s.split('\n')] *)
Fixpoint split_lines_aux (l : list ascii) (cur : list ascii) : list string :=
  match l with
  | [] => [Str.of_chars (rev cur)]
  | c :: r => if Chars.code c =? 10 then Str.of_chars (rev cur) :: split_lines_aux r []
              else split_lines_aux r (c :: cur)
  end.

Definition split_lines (s : string) : list string := split_lines_aux (Str.chars s) [].

(** [line.match(/^[\-\*\d\.]\s/)] *)
Definition is_bullet (line : string) : bool :=
  match Str.chars line with
  | c :: d :: _ =>
      ((Chars.code c =? 45) || (Chars.code c =? 42) || (Chars.code c =? 46) || Chars.is_digit c)
      && Chars.is_space d
  | _ => false
  end.

(** [point.replace(/^[\-\*\d\.]\s/, '').trim()] on a bullet line. *)
Definition strip_bullet (line : string) : string :=
  Str.trim (Str.of_chars (skipn 2 (Str.chars line))).

(** The structured response built when [JSON.parse] throws. *)
Definition fallback (content : string) : list (string * jv) :=
  let lines := filter (fun line => negb (String.eqb (Str.trim line) "")) (split_lines content) in
  let bulletPoints := filter is_bullet lines in
  let '(answer, keyPoints) :=
    if 0 <? length bulletPoints
    then (DocumentParser.join (nl ++ nl) (filter (fun line => negb (is_bullet line)) lines),
          map strip_bullet bulletPoints)
    else (content, []) in
  [("answer", JStr (if String.eqb (Str.trim answer) "" then content else Str.trim answer));
   ("sections", JArr []);
   ("keyPoints", JArr (map JStr (firstn 5 keyPoints)));
   ("implications", JStr "Based on the analysis provided above.");
   ("confidence", JStr "medium")].

Definition field (ps : list (string * jv)) (f : string) : jv :=
  match JSObj.get_own ps f with Some v => v | None => JUndef end.

Definition requiredFields : list string := ["answer"; "sections"; "keyPoints"; "implications"].

(** [if (!parsedContent[f]) parsedContent[f] = v] *)
Definition default_if_falsy (ps : list (string * jv)) (f : string) (v : jv) : list (string * jv) :=
  if truthy (field ps f) then ps else JSObj.set ps f v.

(** The check of the required fields and, when one is missing, the
    back-filling of all five fields. *)
Definition backfill (content : string) (ps : list (string * jv)) : list (string * jv) :=
  let missingFields := filter (fun f => negb (truthy (field ps f))) requiredFields in
  if 0 <? length missingFields then
    let ps := default_if_falsy ps "answer" (JStr content) in
    let ps := default_if_falsy ps "sections" (JArr []) in
    let ps := default_if_falsy ps "keyPoints" (JArr []) in
    let ps := default_if_falsy ps "implications" (JStr "See full response for implications") in
    default_if_falsy ps "confidence" (JStr "medium")
  else ps.

(** Decimal numeral of an array index. *)
Fixpoint digits_rev (fuel n : nat) : list ascii :=
  match fuel with
  | O => []
  | S f => ascii_of_nat (48 + n mod 10) :: (if n <? 10 then [] else digits_rev f (n / 10))
  end.

Definition index_key (n : nat) : string := Str.of_chars (rev (digits_rev (S n) n)).

Definition parse_error : string := "Failed to parse Claude response".

(** The own properties of the parsed value on which the fields are read and
    written: an array's elements are its index properties; reading a field
    of [null], or assigning one on a string, number or boolean (class code
    is strict), throws. *)
Definition as_object (v : jv) : outcome (list (string * jv)) :=
  match v with
  | JObj ps => Ok ps
  | JArr l => Ok (combine (map index_key (seq 0 (length l))) l)
  | _ => Throw parse_error
  end.

(** [parseResponse(response)] for [response.content = items]: the own
    properties of the returned object before [metadata] (a fresh object
    holding the model name, request id, usage and a time stamp) is added,
    in the order of the spread [{...parsedContent}]. *)
Definition parseResponse (items : list item) : outcome (list (string * jv)) :=
  match items with
  | [] => Throw parse_error
  | _ =>
    match find (fun it => match it with IText _ => true | _ => false end) items with
    | Some (IText content) =>
        let parsed := Json.parse (match brace_block content with Some m => m | None => content end) in
        let parsedContent := match parsed with
                             | Ok v => Ok v
                             | Throw _ => Ok (JObj (fallback content))
                             | Unspecified w => Unspecified w
                             end in
        bind parsedContent (fun v =>
        bind (as_object v) (fun ps => Ok (JSObj.entries (backfill content ps))))
    | _ => Throw parse_error
    end
  end.

End ResponseParser.

(* ------------------------------------------------------------------ *)
(** ** Hashing: [generateHash] (src/unnamed/part_003) and the cache key
    ([generateKey], src/src/server/services/cacheService.js).  A character's
    [charCodeAt] is its code in the string model. *)

Module Hashing.
Local Open Scope Z_scope.

(** [ToInt32] *)
Definition ToInt32 (z : Z) : Z :=
  let m := z mod 2 ^ 32 in if 2 ^ 31 <=? m then m - 2 ^ 32 else m.

(** One round of the loop: [hash = ((hash << 5) - hash) + char;
    hash = hash & hash]. *)
Definition hash_step (hash : Z) (c : ascii) : Z :=
  let h := (ToInt32 (Z.shiftl (ToInt32 hash) 5) - hash) + Z.of_nat (Chars.code c) in
  Z.land (ToInt32 h) (ToInt32 h).

Definition digit36 (d : Z) : ascii :=
  if d <? 10 then ascii_of_nat (Z.to_nat (48 + d)) else ascii_of_nat (Z.to_nat (87 + d)).

Fixpoint digits36 (fuel : nat) (n : Z) (acc : list ascii) : list ascii :=
  match fuel with
  | O => acc
  | S f =>
      let acc' := digit36 (n mod 36) :: acc in
      if n <? 36 then acc' else digits36 f (n / 36) acc'
  end.

(** [n.toString(36)] for an integer [n >= 0]: each round divides by 36, so
    [log2 n + 1] rounds produce every digit. *)
Definition toString36 (n : Z) : string :=
  Str.of_chars (digits36 (S (Z.to_nat (Z.log2 n))) n []).

(** [generateHash(text)] on a string argument. *)
Definition generateHash (text : string) : string :=
  if String.eqb text "" then ""
  else toString36 (Z.abs (fold_left hash_step (Str.chars text) 0)).

(** [cacheService.generateKey(query)] *)
Definition generateKey (query : string) : string :=
  "query:" ++ generateHash (TextUtils.normalizeText query).

(** The polynomial [sum c_i * 31^(n-1-i)] over the character codes, without
    any wrap-around. *)
Definition poly31 (l : list ascii) : Z :=
  fold_left (fun h c => 31 * h + Z.of_nat (Chars.code c)) l 0.

End Hashing.

(* ------------------------------------------------------------------ *)
(** ** [extractRelevantSentences] (src/unnamed/part_003) *)

Module Sentences.
Import JS.
Local Open Scope nat_scope.

(** The class [[.!?]] *)
Definition is_stop (c : ascii) : bool :=
  (Chars.code c =? 46) || (Chars.code c =? 33) || (Chars.code c =? 63).

(** [text.split(/[.!?]+/)] *)
Fixpoint split_stops_aux (l : list ascii) (cur : list ascii) (in_sep : bool) : list string :=
  match l with
  | [] => [Str.of_chars (rev cur)]
  | c :: r =>
      if is_stop c then
        if in_sep then split_stops_aux r cur true
        else Str.of_chars (rev cur) :: split_stops_aux r [] true
      else split_stops_aux r (c :: cur) false
  end.

Definition split_stops (text : string) : list string := split_stops_aux (Str.chars text) [] false.

Fixpoint starts_with (p l : list ascii) : bool :=
  match p, l with
  | [], _ => true
  | c :: p', d :: l' => Ascii.eqb c d && starts_with p' l'
  | _ :: _, [] => false
  end.

(** [hay.includes(needle)] *)
Fixpoint includes (hay needle : list ascii) : bool :=
  starts_with needle hay || match hay with [] => false | _ :: r => includes r needle end.

(** The [terms.reduce] of a sentence. *)
Definition matchCount (sentence : string) (terms : list string) : nat :=
  let normalizedSentence := Str.chars (TextUtils.normalizeText sentence) in
  fold_left (fun count term =>
               count + (if includes normalizedSentence (Str.chars (TextUtils.normalizeText term))
                        then 1 else 0)) terms 0.

(** [extractRelevantSentences(text, terms, maxSentences)] on a string and an
    array of strings; the sort by descending [matchCount] is stable. *)
Definition extractRelevantSentences (text : string) (terms : list string) (maxSentences : jsnum)
  : list string :=
  if String.eqb text "" then []
  else match terms with
  | [] => []
  | _ =>
    let sentences := filter (fun s => 0 <? String.length (Str.trim s)) (split_stops text) in
    let relevantSentences :=
      filter (fun p => 0 <? snd p) (map (fun s => (Str.trim s, matchCount s terms)) sentences) in
    map fst (slice0 (Search.sort_desc relevantSentences) maxSentences)
  end.

End Sentences.

(* ------------------------------------------------------------------ *)
(** ** [classifyQuery] and [formatResponse] (src/unnamed/part_005) *)

Module Formatting.
Import JS ResponseParser.
Local Open Scope nat_scope.

(** [/\b(w1|w2|...)\b/] on one alternative [w] whose first and last
    characters are word characters: an occurrence of [w] with no word
    character just before or just after it. *)
Fixpoint word_from (w : list ascii) (prev : option ascii) (l : list ascii) : bool :=
  ((match prev with None => true | Some c => negb (Chars.is_word c) end) &&
   match Json.prefix w l with
   | Some [] => true
   | Some (d :: _) => negb (Chars.is_word d)
   | None => false
   end)
  || match l with [] => false | c :: r => word_from w (Some c) r end.

Definition matches_any (s : string) (alternatives : list string) : bool :=
  existsb (fun w => word_from (Str.chars w) None (Str.chars s)) alternatives.

(** [classifyQuery(query)]; [implications?] and [consequences?] are their
    two spellings. *)
Definition classifyQuery (query : string) : string :=
  let normalizedQuery := TextUtils.normalizeText query in
  if matches_any normalizedQuery ["tax"; "taxes"; "taxation"; "income"; "deduction"; "credit"]
  then "tax_related"
  else if matches_any normalizedQuery ["military"; "defense"; "security"; "armed forces"]
  then "defense_related"
  else if matches_any normalizedQuery ["environment"; "climate"; "green"; "emission"; "pollution"]
  then "environment_related"
  else if matches_any normalizedQuery ["agriculture"; "farm"; "food"; "snap"; "nutrition"]
  then "agriculture_related"
  else if matches_any normalizedQuery ["banking"; "finance"; "financial"; "housing"]
  then "banking_related"
  else if matches_any normalizedQuery ["energy"; "oil"; "gas"; "petroleum"; "renewable"]
  then "energy_related"
  else if matches_any normalizedQuery ["how will"; "impact"; "affect"; "implication"; "implications";
                                       "consequence"; "consequences"]
  then "impact_analysis"
  else if matches_any normalizedQuery ["what is"; "what does"; "define"; "explain"]
  then "definition_request"
  else "general_inquiry".

(** [v || d] *)
Definition or_else (v d : jv) : jv := if truthy v then v else d.

(** [v.length] on the value of [(llmResponse.relevantSections || [])]. *)
Definition js_length (v : jv) : jv :=
  match v with
  | JStr s => Tools.jnat (String.length s)
  | JArr l => Tools.jnat (length l)
  | JObj ps => field ps "length"
  | _ => JUndef
  end.

(** [formatResponse(llmResponse, relevantSections, originalQuery)] on the
    own properties of the object [parseResponse] returns; the properties of
    its [metadata] (model, request id, usage, time stamp), spread first into
    the new [metadata], are left out as [parseResponse] leaves them out. *)
Definition formatResponse (llmResponse : list (string * jv)) (originalQuery : string)
  : list (string * jv) :=
  [("success", JBool true);
   ("answer", field llmResponse "answer");
   ("sections", or_else (field llmResponse "sections") (JArr []));
   ("keyPoints", or_else (field llmResponse "keyPoints") (JArr []));
   ("implications", or_else (field llmResponse "implications") (JStr ""));
   ("confidence", or_else (field llmResponse "confidence") (JStr "medium"));
   ("query", JStr originalQuery);
   ("relevantSections", or_else (field llmResponse "relevantSections") (JArr []));
   ("metadata", JObj [("sectionsAnalyzed", js_length (or_else (field llmResponse "relevantSections") (JArr [])));
                      ("queryType", JStr (classifyQuery originalQuery));
                      ("processingMethod", JStr "llm_with_mcp")])].

End Formatting.

(* ------------------------------------------------------------------ *)
(** ** Routes of the API router (src/unnamed/part_003) *)

Module Routes.
Import JS.
Local Open Scope nat_scope.

(** [queryProcessor.getQuerySuggestions(limit)] *)
Definition suggestions : list string :=
  [ "How will this bill affect my taxes as a middle-class family?";
    "What changes are there for small business owners?";
    "How does this impact SNAP benefits and food assistance?";
    "What defense spending changes are included?";
    "How will this affect oil and gas development?";
    "What environmental programs are being cut or funded?";
    "How does this impact agricultural programs?";
    "What banking and financial reforms are included?";
    "How will this affect federal employee benefits?";
    "What changes are there to tax deductions?" ].

Definition getQuerySuggestions (limit : jsnum) : list string := slice0 suggestions limit.

Fixpoint take_while (p : ascii -> bool) (l : list ascii) : list ascii :=
  match l with
  | c :: r => if p c then c :: take_while p r else []
  | [] => []
  end.

Definition radix_digit (radix : Z) (c : ascii) : bool :=
  match digits_val radix [c] with Some _ => true | None => false end.

(** [parseInt(s)]: leading white space, an optional sign, a [0x]/[0X]
    prefix selecting radix 16, then the longest run of digits of the radix
    ([NaN] when it is empty), whose value is rounded to a double. *)
Definition parseInt (s : string) : jsnum :=
  let l := Str.drop_spaces (Str.chars s) in
  let '(sign, l1) := match l with
                     | c :: r => if Ascii.eqb c "-"%char then ((-1)%Z, r)
                                 else if Ascii.eqb c "+"%char then (1%Z, r)
                                 else (1%Z, l)
                     | [] => (1%Z, l)
                     end in
  let '(radix, l2) := match l1 with
                      | z :: x :: r => if Ascii.eqb z "0"%char && (Ascii.eqb x "x"%char || Ascii.eqb x "X"%char)
                                       then (16%Z, r) else (10%Z, l1)
                      | _ => (10%Z, l1)
                      end in
  match take_while (radix_digit radix) l2 with
  | [] => NNaN
  | ds => match digits_val radix ds with
          | Some z => round_double (inject_Z (sign * z))
          | None => NNaN
          end
  end.

(** [GET /api/query/suggestions]: the [suggestions] array of the answer for
    the query parameter [limit] ([None] when absent). *)
Definition suggestions_route (limitParam : option string) : list string :=
  let n := match limitParam with Some s => parseInt s | None => NNaN end in
  getQuerySuggestions (if num_truthy n then n else NFin 5).

(** [GET /api/health]: status and HTTP code, for the query parameter
    [checkLLM] and the boolean [llmService.healthCheck()] resolves to (it
    catches every error itself). *)
Definition health_route (checkLLM : option string) (llmHealthy : bool) : string * nat :=
  let llm := match checkLLM with
             | Some s => if String.eqb s "true" then llmHealthy else false
             | None => false
             end in
  let services := [("api", true); ("documentParser", true); ("cache", true); ("llm", llm)] in
  let status := if forallb snd services then "healthy" else "degraded" in
  (status, if String.eqb status "healthy" then 200 else 503).

(** The cache state the admin routes touch. *)
Record cache_state := mkCache {
  cache_entries : list (string * jv);
  hitCount : nat;
  missCount : nat
}.

(** [cacheService.clear()] *)
Definition clear (c : cache_state) : cache_state := mkCache [] 0 0.

(** [adminKey && authHeader !== `Bearer ${adminKey}`] for [process.env.ADMIN_KEY]
    and the [authorization] header ([None] when unset). *)
Definition unauthorized (adminKey authHeader : option string) : bool :=
  match adminKey with
  | Some k =>
      negb (String.eqb k "") &&
      negb (match authHeader with Some h => String.eqb h ("Bearer " ++ k) | None => false end)
  | None => false
  end.

(** [DELETE /api/cache]: HTTP code and the cache afterwards. *)
Definition delete_cache_route (adminKey authHeader : option string) (c : cache_state)
  : nat * cache_state :=
  if unauthorized adminKey authHeader then (401, c) else (200, clear c).

(** [POST /api/validate] for [req.body.query]: HTTP code and body. *)
Definition validate_route (query : jv) : outcome (nat * jv) :=
  match QueryProcessor.validateQuery query with
  | Ok (valid, errors) =>
      Ok (200, JObj [("success", JBool true); ("valid", JBool valid);
                     ("errors", JArr (map JStr errors))])
  | Throw _ =>
      Ok (500, JObj [("success", JBool false);
                     ("error", JObj [("message", JStr "Failed to validate query")])])
  | Unspecified w => Unspecified w
  end.

End Routes.

(* ================================================================== *)
(** * Proofs *)

Module TextUtilsFacts.
Import TextUtils.

Lemma set_has_In (s : list string) (x : string) : set_has s x = true <-> In x s.
Proof.
  unfold set_has. rewrite existsb_exists. split.
  - intros [y [Hy Heq]]. apply String.eqb_eq in Heq. subst. exact Hy.
  - intros H. exists x. split; [exact H | apply String.eqb_refl].
Qed.

Lemma set_of_In (l : list string) (x : string) : In x (set_of l) <-> In x l.
Proof.
  induction l as [|y r IH]; simpl; [tauto|].
  rewrite filter_In, IH. split.
  - intros [H | [H _]]; [left; exact H | right; exact H].
  - intros [H | H]; [left; exact H|].
    destruct (String.eqb y x) eqn:E.
    + left. apply String.eqb_eq. exact E.
    + right. split; [exact H | reflexivity].
Qed.

Lemma set_of_NoDup (l : list string) : NoDup (set_of l).
Proof.
  induction l as [|y r IH]; simpl; constructor.
  - rewrite filter_In. intros [_ H]. rewrite String.eqb_refl in H. discriminate.
  - apply NoDup_filter. exact IH.
Qed.

Lemma set_of_length_same (l l' : list string) :
  (forall x, In x l <-> In x l') -> length (set_of l) = length (set_of l').
Proof.
  intros H. apply Permutation_length, NoDup_Permutation; try apply set_of_NoDup.
  intros x. rewrite !set_of_In. apply H.
Qed.

Lemma set_of_length_nodup (l W : list string) :
  NoDup W -> (forall x, In x l <-> In x W) -> length (set_of l) = length W.
Proof.
  intros HN H. apply Permutation_length, NoDup_Permutation; [apply set_of_NoDup | exact HN|].
  intros x. rewrite set_of_In. apply H.
Qed.

Lemma set_of_nil (l : list string) : set_of l = [] <-> l = [].
Proof. destruct l; simpl; split; congruence. Qed.

End TextUtilsFacts.

Module TokenizerClaims.
Import TextUtils TextUtilsFacts.
Local Open Scope nat_scope.

(** C8: every token produced by [extractKeywords] is longer than two
    characters, is not one of the stop words and is not purely numeric
    (it does not match [/^\d+$/]). *)
Theorem extractKeywords_tokens_filtered (t w : string) :
  In w (extractKeywords t) ->
  2 < String.length w /\ ~ In w stopWords /\ Str.all_digits w = false.
Proof.
  unfold extractKeywords. destruct (String.eqb t "") ; [simpl; tauto|].
  rewrite !filter_In. intros [[_ H1] H2].
  apply andb_prop in H1. destruct H1 as [Hlen Hstop].
  apply Nat.ltb_lt in Hlen. apply negb_true_iff in Hstop.
  apply negb_true_iff in H2.
  repeat split; [exact Hlen | | exact H2].
  intros Hin. unfold stop_has in Hstop.
  assert (existsb (String.eqb w) stopWords = true) as Hc.
  { apply existsb_exists. exists w. split; [exact Hin | apply String.eqb_refl]. }
  congruence.
Qed.

Lemma extractKeywords_tokens_filtered_witness :
  In "farmers" (extractKeywords "The farm subsidy, for 2025 and 12 farmers!") /\
  2 < String.length "farmers" /\ ~ In "farmers" stopWords /\ Str.all_digits "farmers" = false.
Proof.
  assert (H : In "farmers" (extractKeywords "The farm subsidy, for 2025 and 12 farmers!"))
    by (vm_compute; tauto).
  split; [exact H|]. exact (extractKeywords_tokens_filtered _ _ H).
Defined.

Lemma similarity_sizes (a b : string) :
  length (set_of (filter (set_has (set_of (extractKeywords b))) (set_of (extractKeywords a)))) =
  length (set_of (filter (set_has (set_of (extractKeywords a))) (set_of (extractKeywords b)))) /\
  length (set_of (set_of (extractKeywords a) ++ set_of (extractKeywords b))) =
  length (set_of (set_of (extractKeywords b) ++ set_of (extractKeywords a))).
Proof.
  split; apply set_of_length_same; intros x.
  - rewrite !filter_In, !set_has_In. tauto.
  - rewrite !in_app_iff. tauto.
Qed.

(** C9: [calculateSimilarity] is the Jaccard index of the two token sets:
    it is 1 on equal inputs whose token set is non-empty, symmetric, and 0
    as soon as one side has no tokens. *)
Theorem calculateSimilarity_jaccard :
  (forall t, extractKeywords t <> [] -> (calculateSimilarity t t == 1)%Q) /\
  (forall a b, calculateSimilarity a b = calculateSimilarity b a) /\
  (forall a b, extractKeywords a = [] \/ extractKeywords b = [] ->
               calculateSimilarity a b = 0%Q).
Proof.
  split; [|split].
  - intros t Ht.
    assert (Hne : String.eqb t "" = false).
    { destruct (String.eqb t "") eqn:E; [|reflexivity].
      apply String.eqb_eq in E. subst. exfalso. apply Ht. reflexivity. }
    unfold calculateSimilarity. rewrite Hne. cbn [orb].
    destruct (set_of (extractKeywords t)) as [|w ws] eqn:Hw.
    { apply (proj1 (set_of_nil _)) in Hw. contradiction. }
    assert (HN : NoDup (w :: ws)) by (rewrite <- Hw; apply set_of_NoDup).
    rewrite (set_of_length_nodup _ _ HN) by (intros x; rewrite filter_In, set_has_In; tauto).
    rewrite (set_of_length_nodup _ _ HN) by (intros x; rewrite in_app_iff; tauto).
    unfold Qdiv. apply Qmult_inv_r.
    simpl. intros Hq. unfold Qeq in Hq. simpl in Hq. lia.
  - intros a b. unfold calculateSimilarity.
    rewrite (orb_comm (String.eqb b "")).
    destruct (String.eqb a "" || String.eqb b ""); [reflexivity|].
    destruct (similarity_sizes a b) as [Hi Hu]. revert Hi Hu.
    destruct (set_of (extractKeywords a)) as [|x xs];
      destruct (set_of (extractKeywords b)) as [|y ys]; try reflexivity.
    intros Hi Hu. cbv zeta iota. rewrite Hi, Hu. reflexivity.
  - intros a b Hab. unfold calculateSimilarity.
    destruct (String.eqb a "" || String.eqb b ""); [reflexivity|].
    destruct Hab as [H | H]; rewrite H; simpl;
      [reflexivity | destruct (set_of (extractKeywords a)); reflexivity].
Qed.

Lemma calculateSimilarity_jaccard_witness :
  extractKeywords "farm subsidy program" <> [] /\
  (calculateSimilarity "farm subsidy program" "farm subsidy program" == 1)%Q.
Proof.
  assert (H : extractKeywords "farm subsidy program" <> []) by (vm_compute; discriminate).
  split; [exact H | exact (proj1 calculateSimilarity_jaccard _ H)].
Defined.

Example calculateSimilarity_example :
  calculateSimilarity "farm subsidy program" "farm budget" = (1 # 4)%Q.
Proof. vm_compute. reflexivity. Qed.

End TokenizerClaims.

Module ParserFacts.
Import DocumentParser.
Local Open Scope nat_scope.

Section XvalInd.
Variable P : xval -> Prop.
Hypothesis HStr : forall s, P (XStr s).
Hypothesis HObj : forall ps,
  Forall (fun kp => match snd kp with PArr items => Forall P items | _ => True end) ps ->
  P (XObj ps).

Fixpoint xval_ind' (v : xval) : P v :=
  match v with
  | XStr s => HStr s
  | XObj ps =>
      HObj ps
        ((fix gp (ps : list (string * xprop)) :
            Forall (fun kp => match snd kp with PArr items => Forall P items | _ => True end) ps :=
            match ps with
            | [] => Forall_nil _
            | (k, p) :: r =>
                Forall_cons (k, p)
                  (match p as p0 return (match p0 with PArr items => Forall P items | _ => True end) with
                   | PArr items =>
                       (fix gi (items : list xval) : Forall P items :=
                          match items with
                          | [] => Forall_nil _
                          | it :: rest => Forall_cons it (xval_ind' it) (gi rest)
                          end) items
                   | _ => I
                   end)
                  (gp r)
            end) ps)
  end.
End XvalInd.

Lemma get_own_In {A} (o : JSObj.obj A) k v : JSObj.get_own o k = Some v -> In k (JSObj.keys o).
Proof.
  induction o as [|[k' v'] r IH]; simpl; [discriminate|].
  destruct (String.eqb k k') eqn:E.
  - intros _. left. symmetry. apply String.eqb_eq. exact E.
  - intros H. right. apply IH. exact H.
Qed.

Lemma keys_replace_own {A} (o : JSObj.obj A) k v : JSObj.keys (JSObj.replace_own o k v) = JSObj.keys o.
Proof.
  induction o as [|[k' v'] r IH]; simpl; [reflexivity|].
  destruct (String.eqb k k'); simpl; [reflexivity | rewrite IH; reflexivity].
Qed.

Lemma In_replace_own {A} (o : JSObj.obj A) k v k' v' :
  In (k', v') (JSObj.replace_own o k v) -> In (k', v') o \/ v' = v.
Proof.
  induction o as [|[k0 v0] r IH]; simpl; [tauto|].
  destruct (String.eqb k k0); simpl.
  - intros [H | H]; [inversion H; subst; right; reflexivity | left; right; exact H].
  - intros [H | H]; [left; left; exact H|]. destruct (IH H); [left; right |]; tauto.
Qed.

Lemma set_keys {A} (o : JSObj.obj A) k v k' :
  In k' (JSObj.keys o) -> In k' (JSObj.keys (JSObj.set o k v)).
Proof.
  unfold JSObj.set. destruct (String.eqb k "__proto__"); [tauto|].
  destruct (JSObj.get_own o k).
  - rewrite keys_replace_own. tauto.
  - unfold JSObj.keys. rewrite map_app, in_app_iff. tauto.
Qed.

Lemma set_key_new {A} (o : JSObj.obj A) k v :
  k <> "__proto__" -> In k (JSObj.keys (JSObj.set o k v)).
Proof.
  intros Hk. unfold JSObj.set.
  destruct (String.eqb k "__proto__") eqn:E; [apply String.eqb_eq in E; contradiction|].
  destruct (JSObj.get_own o k) eqn:G.
  - rewrite keys_replace_own. exact (get_own_In _ _ _ G).
  - unfold JSObj.keys. rewrite map_app, in_app_iff. right. simpl. tauto.
Qed.

Lemma set_In {A} (o : JSObj.obj A) k v k' v' :
  In (k', v') (JSObj.set o k v) -> In (k', v') o \/ v' = v.
Proof.
  unfold JSObj.set. destruct (String.eqb k "__proto__"); [tauto|].
  destruct (JSObj.get_own o k).
  - apply In_replace_own.
  - rewrite in_app_iff. intros [H | [H | []]]; [tauto | inversion H; subst; tauto].
Qed.

Lemma parent_ok_mono secs secs' pid :
  (forall k, In k (JSObj.keys secs) -> In k (JSObj.keys secs')) ->
  parent_ok secs pid -> parent_ok secs' pid.
Proof. destruct pid; simpl; auto. Qed.

Lemma extract_parent v pid lvl sec :
  extractSectionDataSimple v pid lvl = Some sec -> sec_parentId sec = pid /\ node_id v = Some (sec_id sec).
Proof.
  unfold extractSectionDataSimple.
  destruct (node_id v) eqn:N; [|discriminate]. destruct v; [discriminate|].
  intros H. inversion H; subst. simpl. split; reflexivity.
Qed.

Definition keys_incl (secs secs' : JSObj.obj Section) : Prop :=
  forall k, In k (JSObj.keys secs) -> In k (JSObj.keys secs').

Definition pss_good (v : xval) : Prop :=
  forall secs pid lvl,
    ~ In "__proto__" (node_ids v) -> parents_ok secs -> parent_ok secs pid ->
    parents_ok (processSectionsSimple v secs pid lvl) /\
    keys_incl secs (processSectionsSimple v secs pid lvl).

Lemma process_items_good op pid lvl (items : list xval) :
  Forall pss_good items -> ~ In "__proto__" (flat_map node_ids items) ->
  forall secs, parents_ok secs -> parent_ok secs op -> parent_ok secs pid ->
  parents_ok (process_items processSectionsSimple op pid lvl items secs) /\
  keys_incl secs (process_items processSectionsSimple op pid lvl items secs).
Proof.
  induction items as [|it rest IH]; intros HF Hn secs H1 H2 H3; simpl.
  - split; [exact H1 | intros k Hk; exact Hk].
  - inversion HF as [|x l Hit Hrest]; subst. simpl in Hn. rewrite in_app_iff in Hn.
    assert (Hstep : parents_ok (match it with
                     | XStr _ => secs
                     | XObj _ => match node_id it with
                                 | Some _ => processSectionsSimple it secs op (S lvl)
                                 | None => processSectionsSimple it secs pid lvl
                                 end
                     end) /\
                   keys_incl secs (match it with
                     | XStr _ => secs
                     | XObj _ => match node_id it with
                                 | Some _ => processSectionsSimple it secs op (S lvl)
                                 | None => processSectionsSimple it secs pid lvl
                                 end
                     end)).
    { destruct it as [s|ps].
      - split; [exact H1 | intros k Hk; exact Hk].
      - destruct (node_id (XObj ps)); apply Hit; tauto. }
    destruct Hstep as [Hp Hk].
    destruct (IH Hrest (fun h => Hn (or_intror h)) _ Hp
                (parent_ok_mono _ _ _ Hk H2) (parent_ok_mono _ _ _ Hk H3)) as [Hp' Hk'].
    split; [exact Hp' | intros k Hin; apply Hk', Hk, Hin].
Qed.

Lemma process_props_good op pid lvl (ps : list (string * xprop)) :
  Forall (fun kp => match snd kp with PArr items => Forall pss_good items | _ => True end) ps ->
  ~ In "__proto__" (flat_map (fun kp => match kp with
                                        | (_, PArr items) => flat_map node_ids items
                                        | _ => []
                                        end) ps) ->
  forall secs, parents_ok secs -> parent_ok secs op -> parent_ok secs pid ->
  parents_ok (process_props processSectionsSimple op pid lvl ps secs) /\
  keys_incl secs (process_props processSectionsSimple op pid lvl ps secs).
Proof.
  induction ps as [|[k p] r IH]; intros HF Hn secs H1 H2 H3; simpl.
  - split; [exact H1 | intros k Hk; exact Hk].
  - inversion HF as [|x l Hkp Hr]; subst. simpl in Hkp.
    destruct p as [a|t|items]; simpl in Hn;
      try (apply IH; assumption).
    rewrite in_app_iff in Hn.
    destruct (process_items_good op pid lvl items Hkp (fun h => Hn (or_introl h)) secs H1 H2 H3)
      as [Hp Hk].
    destruct (IH Hr (fun h => Hn (or_intror h)) _ Hp
                (parent_ok_mono _ _ _ Hk H2) (parent_ok_mono _ _ _ Hk H3)) as [Hp' Hk'].
    split; [exact Hp' | intros k' Hin; apply Hk', Hk, Hin].
Qed.

Lemma processSectionsSimple_good (v : xval) : pss_good v.
Proof.
  induction v as [s|ps HF] using xval_ind'; intros secs pid lvl Hn H1 H2.
  - simpl. split; [exact H1 | intros k Hk; exact Hk].
  - cbn [processSectionsSimple]. simpl in Hn.
    destruct (node_id (XObj ps)) as [i|] eqn:N.
    + destruct (extractSectionDataSimple (XObj ps) pid lvl) as [sec|] eqn:E.
      2:{ unfold extractSectionDataSimple in E. rewrite N in E. discriminate. }
      destruct (extract_parent _ _ _ _ E) as [Hpar Hid].
      rewrite N in Hid. injection Hid as Hid.
      simpl in Hn. apply Decidable.not_or in Hn. destruct Hn as [Hi Hn].
      assert (Hk1 : keys_incl secs (JSObj.set secs (sec_id sec) sec))
        by (intros k Hk; apply set_keys; exact Hk).
      assert (Hp1 : parents_ok (JSObj.set secs (sec_id sec) sec)).
      { intros k s Hin. apply set_In in Hin. destruct Hin as [Hin | ->].
        - exact (parent_ok_mono _ _ _ Hk1 (H1 k s Hin)).
        - rewrite Hpar. exact (parent_ok_mono _ _ _ Hk1 H2). }
      assert (Hi1 : parent_ok (JSObj.set secs (sec_id sec) sec) (Some i)).
      { simpl. rewrite Hid. apply set_key_new. intros Heq. apply Hi. rewrite Hid. exact Heq. }
      destruct (process_props_good (Some i) pid lvl ps HF Hn _ Hp1 Hi1
                  (parent_ok_mono _ _ _ Hk1 H2)) as [Hp Hk].
      split; [exact Hp | intros k Hin; apply Hk, Hk1, Hin].
    + exact (process_props_good pid pid lvl ps HF Hn secs H1 H2 H2).
Qed.

End ParserFacts.

Module SectionMapClaims.
Import DocumentParser ParserFacts.
Local Open Scope nat_scope.

(** The parentId invariant for every parsed document in which no node
    carries the identifier ["__proto__"]. *)
Lemma build_sections_parents_ok (parsedXml : xval) :
  ~ In "__proto__" (node_ids parsedXml) -> parents_ok (build_sections parsedXml).
Proof.
  intros Hn. unfold build_sections.
  destruct (processSectionsSimple_good parsedXml [] None 0 Hn) as [Hp _].
  - intros k sec [].
  - exact I.
  - exact Hp.
Qed.

(** A parsed bill whose outer section has the identifier ["__proto__"]
    (a valid XML attribute value) and whose subsection has the identifier
    ["s1"]. *)
Definition proto_doc : xval :=
  XObj [("section",
         PArr [XObj [("$", PAttrs [("id", "__proto__")]);
                     ("subsection",
                      PArr [XObj [("$", PAttrs [("id", "s1")]);
                                  ("text", PArr [XStr "Farm program."])]])]])].

(** C6: on [proto_doc] the section map has the single own key ["s1"] (the
    assignment [sections["__proto__"] = section] sets the map's prototype),
    while section ["s1"] records ["__proto__"] as its parentId: the
    invariant fails. *)
Theorem proto_doc_parent_missing :
  JSObj.keys (build_sections proto_doc) = ["s1"] /\
  map (fun kv => sec_parentId (snd kv)) (build_sections proto_doc) = [Some "__proto__"] /\
  ~ parents_ok (build_sections proto_doc).
Proof.
  split; [vm_compute; reflexivity|]. split; [vm_compute; reflexivity|].
  intros H.
  destruct (build_sections proto_doc) as [|[k sec] r] eqn:E; [discriminate|].
  specialize (H k sec (or_introl eq_refl)).
  revert H. vm_compute in E. injection E as Hk Hsec Hr. subst. vm_compute.
  intros [H | []]. discriminate.
Qed.

End SectionMapClaims.

Module SearchFacts.
Import JS DocumentParser Search TextUtilsFacts.
Local Open Scope nat_scope.

Lemma get_own_replace {A} (o : JSObj.obj A) k v k' :
  JSObj.get_own (JSObj.replace_own o k v) k' =
  if String.eqb k' k then
    match JSObj.get_own o k with Some _ => Some v | None => None end
  else JSObj.get_own o k'.
Proof.
  induction o as [|[k0 v0] r IH]; simpl.
  - destruct (String.eqb k' k); reflexivity.
  - destruct (String.eqb k k0) eqn:E1.
    + apply String.eqb_eq in E1. subst k0. simpl.
      destruct (String.eqb k' k); reflexivity.
    + simpl. rewrite IH. destruct (String.eqb k' k0) eqn:E2.
      * apply String.eqb_eq in E2. subst k0.
        destruct (String.eqb k' k) eqn:E3; [|reflexivity].
        apply String.eqb_eq in E3. subst. rewrite String.eqb_refl in E1. discriminate.
      * reflexivity.
Qed.

Lemma get_own_app {A} (o o' : JSObj.obj A) k :
  JSObj.get_own (o ++ o')%list k =
  match JSObj.get_own o k with Some v => Some v | None => JSObj.get_own o' k end.
Proof.
  induction o as [|[k0 v0] r IH]; simpl; [reflexivity|].
  destruct (String.eqb k k0); [reflexivity | exact IH].
Qed.

Lemma get_own_set {A} (o : JSObj.obj A) k v k' :
  JSObj.get_own (JSObj.set o k v) k' =
  if String.eqb k "__proto__" then JSObj.get_own o k'
  else if String.eqb k' k then Some v else JSObj.get_own o k'.
Proof.
  unfold JSObj.set. destruct (String.eqb k "__proto__"); [reflexivity|].
  destruct (JSObj.get_own o k) as [a|] eqn:G.
  - rewrite get_own_replace, G. reflexivity.
  - rewrite get_own_app. simpl.
    destruct (String.eqb k' k) eqn:E.
    + apply String.eqb_eq in E. subst. rewrite G. reflexivity.
    + destruct (JSObj.get_own o k'); reflexivity.
Qed.

Lemma existsb_eqb_In (x : string) (l : list string) : existsb (String.eqb x) l = true <-> In x l.
Proof.
  rewrite existsb_exists. split.
  - intros [y [Hy Hxy]]. apply String.eqb_eq in Hxy. subst. exact Hy.
  - intros H. exists x. split; [exact H | apply String.eqb_refl].
Qed.

Lemma existsb_eqb_false (x : string) (l : list string) : existsb (String.eqb x) l = false <-> ~ In x l.
Proof.
  rewrite <- existsb_eqb_In. destruct (existsb (String.eqb x) l); split; congruence.
Qed.

(** Index lists are duplicate-free. *)
Definition idx_nodup (idx : index_obj) : Prop :=
  forall k l, JSObj.get_own idx k = Some l -> NoDup l.

Lemma fold_outcome_inv {A B} (Inv : A -> Prop) (f : A -> B -> outcome A) (l : list B) :
  (forall a x a', Inv a -> f a x = Ok a' -> Inv a') ->
  forall a a', Inv a -> fold_outcome f l a = Ok a' -> Inv a'.
Proof.
  intros Hstep. induction l as [|x r IH]; simpl; intros a a' Ha H.
  - injection H as <-. exact Ha.
  - destruct (f a x) as [b| |] eqn:E; simpl in H; try discriminate.
    exact (IH b a' (Hstep _ _ _ Ha E) H).
Qed.

Lemma index_keyword_nodup sid idx kw idx' :
  idx_nodup idx -> index_keyword sid idx kw = Ok idx' -> idx_nodup idx'.
Proof.
  intros Hn. unfold index_keyword.
  set (idx1 := match JSObj.lookup idx kw with
                | JSObj.LUndef => JSObj.set idx kw []
                | _ => idx end).
  assert (Hn1 : idx_nodup idx1).
  { unfold idx1. destruct (JSObj.lookup idx kw); try exact Hn.
    intros k l. rewrite get_own_set.
    destruct (String.eqb kw "__proto__"); [apply Hn|].
    destruct (String.eqb k kw); [intros H; injection H as <-; constructor | apply Hn]. }
  clearbody idx1.
  destruct (JSObj.lookup idx1 kw) as [l| |] eqn:L; try discriminate.
  unfold JSObj.lookup in L. destruct (JSObj.get_own idx1 kw) as [l0|] eqn:G;
    [injection L as <-|destruct (JSObj.is_proto_member kw); discriminate].
  destruct (existsb (String.eqb sid) l0) eqn:M; intros H; injection H as <-; [exact Hn1|].
  intros k l. rewrite get_own_set.
  destruct (String.eqb kw "__proto__"); [apply Hn1|].
  destruct (String.eqb k kw); [|apply Hn1].
  intros H; injection H as <-.
  apply NoDup_app; [exact (Hn1 _ _ G) | constructor; [intros []|constructor] |].
  intros x Hx [<- | []]. apply existsb_eqb_false in M. contradiction.
Qed.

Lemma buildSearchIndex_nodup secs idx : buildSearchIndex secs = Ok idx -> idx_nodup idx.
Proof.
  unfold buildSearchIndex. intros H.
  refine (fold_outcome_inv idx_nodup _ _ _ [] idx _ H).
  - intros a [sid sec] a' Ha Hf.
    exact (fold_outcome_inv idx_nodup _ _ (fun b x b' Hb E => index_keyword_nodup sid b x b' Hb E) a a' Ha Hf).
  - intros k l G. discriminate.
Qed.

(** Score maps of the shape [{x: f x}] over a duplicate-free key list. *)
Lemma get_own_map (D : list string) (f : string -> nat) id :
  JSObj.get_own (map (fun x => (x, f x)) D) id =
  if existsb (String.eqb id) D then Some (f id) else None.
Proof.
  induction D as [|x r IH]; simpl; [reflexivity|].
  destruct (String.eqb id x) eqn:E; [|exact IH].
  apply String.eqb_eq in E. subst. reflexivity.
Qed.

Lemma replace_own_map (D : list string) (f : string -> nat) id v :
  NoDup D ->
  JSObj.replace_own (map (fun x => (x, f x)) D) id v =
  map (fun x => (x, if String.eqb id x then v else f x)) D.
Proof.
  induction D as [|x r IH]; simpl; intros HN; [reflexivity|].
  inversion HN as [|? ? Hx Hr]; subst.
  destruct (String.eqb id x) eqn:E.
  - f_equal. apply String.eqb_eq in E. subst x.
    apply map_ext_in. intros y Hy.
    destruct (String.eqb id y) eqn:E2; [|reflexivity].
    apply String.eqb_eq in E2. subst. contradiction.
  - f_equal. apply IH. exact Hr.
Qed.

Definition fs_step (acc : list string) (x : string) : list string :=
  if existsb (String.eqb x) acc then acc else app acc [x].

Lemma first_seen_app l x :
  first_seen (l ++ [x])%list =
  if existsb (String.eqb x) (first_seen l) then first_seen l else app (first_seen l) [x].
Proof. unfold first_seen. rewrite fold_left_app. reflexivity. Qed.

Lemma fold_fs_In l : forall acc x, In x (fold_left fs_step l acc) <-> In x acc \/ In x l.
Proof.
  induction l as [|y r IH]; simpl; intros acc x; [tauto|].
  rewrite IH. unfold fs_step. destruct (existsb (String.eqb y) acc) eqn:E.
  - apply existsb_eqb_In in E. split; [tauto|].
    intros [H | [<- | H]]; auto.
  - rewrite in_app_iff. simpl. tauto.
Qed.

Lemma first_seen_In l x : In x (first_seen l) <-> In x l.
Proof. unfold first_seen. change (In x (fold_left fs_step l []) <-> In x l). rewrite fold_fs_In. simpl. tauto. Qed.

Lemma fold_fs_NoDup l : forall acc, NoDup acc -> NoDup (fold_left fs_step l acc).
Proof.
  induction l as [|y r IH]; simpl; intros acc H; [exact H|].
  apply IH. unfold fs_step. destruct (existsb (String.eqb y) acc) eqn:E; [exact H|].
  apply existsb_eqb_false in E. apply NoDup_app; [exact H | constructor; [intros []|constructor] |].
  intros z Hz [<- | []]. contradiction.
Qed.

Lemma first_seen_NoDup l : NoDup (first_seen l).
Proof. unfold first_seen. change (NoDup (fold_left fs_step l [])). apply fold_fs_NoDup. constructor. Qed.

Lemma proto_member_not_proto x : JSObj.is_proto_member x = false -> String.eqb x "__proto__" = false.
Proof.
  intros H. destruct (String.eqb x "__proto__") eqn:E; [|reflexivity].
  apply String.eqb_eq in E. subst. discriminate.
Qed.

Section Scoring.
Variable idx : index_obj.


Lemma query_score_app P t id :
  query_score idx (P ++ [t])%list id =
  query_score idx P id + (if existsb (String.eqb id) ((index_list idx) t) then 1 else 0).
Proof.
  unfold query_score. rewrite filter_app, length_app. simpl.
  destruct (existsb (String.eqb id) (index_list idx t)); reflexivity.
Qed.

Lemma query_score_absent P id : ~ In id (flat_map (index_list idx) P) -> query_score idx P id = 0.
Proof.
  unfold query_score. intros H. induction P as [|t r IH]; simpl in *; [reflexivity|].
  rewrite in_app_iff in H.
  destruct (existsb (String.eqb id) (index_list idx t)) eqn:E.
  - apply existsb_eqb_In in E. exfalso. apply H. left. exact E.
  - apply IH. intros Hr. apply H. right. exact Hr.
Qed.

(** The score map after the tokens [P] and the first ids [l1] of the next
    index list. *)
Definition model (P l1 : list string) : JSObj.obj nat :=
  map (fun x => (x, query_score idx P x + (if existsb (String.eqb x) l1 then 1 else 0)))
      (first_seen (flat_map (index_list idx) P ++ l1)).

Definition no_proto (l : list string) : Prop :=
  forall x, In x l -> JSObj.is_proto_member x = false.

Lemma bump_fold P l2 : forall l1 scores fin,
  NoDup (l1 ++ l2)%list -> scores = model P l1 -> no_proto (flat_map (index_list idx) P ++ l1)%list ->
  fold_outcome bump l2 scores = Ok fin ->
  fin = model P (l1 ++ l2)%list /\ no_proto (flat_map (index_list idx) P ++ l1 ++ l2)%list.
Proof.
  induction l2 as [|id r IH]; simpl; intros l1 scores fin HN Hs Hp Hf.
  - injection Hf as <-. rewrite !app_nil_r. split; assumption.
  - assert (Hid : ~ In id l1).
    { intros H. apply NoDup_remove_2 in HN. apply HN. apply in_app_iff. left. exact H. }
    set (F := first_seen (flat_map (index_list idx) P ++ l1)) in *.
    assert (HF : NoDup F) by apply first_seen_NoDup.
    assert (Hmodel : model P (l1 ++ [id])%list =
      map (fun x => (x, query_score idx P x + (if existsb (String.eqb x) (l1 ++ [id])%list then 1 else 0)))
          (first_seen ((flat_map (index_list idx) P ++ l1) ++ [id])%list)).
    { unfold model. rewrite app_assoc. reflexivity. }
    unfold bump, JSObj.lookup in Hf. rewrite Hs in Hf. unfold model in Hf. fold F in Hf.
    rewrite get_own_map in Hf.
    destruct (existsb (String.eqb id) F) eqn:EF.
    + (* the id already has a score *)
      assert (Hnp : JSObj.is_proto_member id = false).
      { apply Hp. apply first_seen_In. apply existsb_eqb_In. exact EF. }
      unfold JSObj.set in Hf. rewrite (proto_member_not_proto _ Hnp), get_own_map, EF in Hf.
      simpl in Hf. rewrite replace_own_map in Hf by exact HF.
      assert (Hnext : map (fun x => (x, if String.eqb id x
                                         then S (query_score idx P id + (if existsb (String.eqb id) l1 then 1 else 0))
                                         else query_score idx P x + (if existsb (String.eqb x) l1 then 1 else 0))) F
                      = model P (l1 ++ [id])%list).
      { rewrite Hmodel, first_seen_app. fold F. rewrite EF.
        apply map_ext_in. intros x Hx. f_equal.
        rewrite existsb_app. simpl.
        destruct (String.eqb id x) eqn:E.
        - apply String.eqb_eq in E. subst x. rewrite String.eqb_refl.
          apply existsb_eqb_false in Hid. rewrite Hid. simpl. lia.
        - destruct (String.eqb x id) eqn:E2.
          + apply String.eqb_eq in E2. subst. rewrite String.eqb_refl in E. discriminate.
          + rewrite orb_false_r. reflexivity. }
      rewrite Hnext in Hf.
      destruct (IH (l1 ++ [id])%list (model P (l1 ++ [id])%list) fin) as [H1 H2].
      * rewrite <- app_assoc. exact HN.
      * reflexivity.
      * intros x Hx. rewrite app_assoc, in_app_iff in Hx. destruct Hx as [Hx | [<- | []]];
          [apply Hp; exact Hx | exact Hnp].
      * exact Hf.
      * rewrite <- app_assoc in H1, H2. split; assumption.
    + (* a first score for the id *)
      destruct (JSObj.is_proto_member id) eqn:Hnp; [discriminate|].
      unfold JSObj.set in Hf. rewrite (proto_member_not_proto _ Hnp), get_own_map, EF in Hf.
      simpl in Hf.
      assert (Hz : query_score idx P id = 0).
      { apply query_score_absent. intros H. apply existsb_eqb_false in EF. apply EF.
        apply first_seen_In. apply in_app_iff. left. exact H. }
      assert (Hnext : (map (fun x => (x, query_score idx P x + (if existsb (String.eqb x) l1 then 1 else 0))) F
                       ++ [(id, 1)])%list = model P (l1 ++ [id])%list).
      { rewrite Hmodel, first_seen_app. fold F. rewrite EF, map_app. simpl.
        f_equal.
        - apply map_ext_in. intros x Hx. f_equal. rewrite existsb_app. simpl.
          destruct (String.eqb x id) eqn:E2; [|rewrite orb_false_r; reflexivity].
          apply String.eqb_eq in E2. subst. apply existsb_eqb_false in EF. contradiction.
        - rewrite Hz, existsb_app. simpl. rewrite String.eqb_refl, orb_true_r. reflexivity. }
      rewrite Hnext in Hf.
      destruct (IH (l1 ++ [id])%list (model P (l1 ++ [id])%list) fin) as [H1 H2].
      * rewrite <- app_assoc. exact HN.
      * reflexivity.
      * intros x Hx. rewrite app_assoc, in_app_iff in Hx. destruct Hx as [Hx | [<- | []]];
          [apply Hp; exact Hx | exact Hnp].
      * exact Hf.
      * rewrite <- app_assoc in H1, H2. split; assumption.
Qed.

Lemma model_step P t :
  model P ((index_list idx) t) = model (P ++ [t])%list [].
Proof.
  unfold model. rewrite flat_map_app. simpl. rewrite !app_nil_r.
  apply map_ext. intros x. rewrite query_score_app. simpl. f_equal. lia.
Qed.

Lemma score_fold toks : forall P scores fin,
  idx_nodup idx -> scores = model P [] -> no_proto (flat_map (index_list idx) P) ->
  fold_outcome (score_keyword idx) toks scores = Ok fin ->
  fin = model (P ++ toks)%list [] /\ no_proto (flat_map (index_list idx) (P ++ toks)%list).
Proof.
  induction toks as [|t r IH]; simpl; intros P scores fin Hn Hs Hp Hf.
  - injection Hf as <-. rewrite app_nil_r. split; assumption.
  - unfold score_keyword, JSObj.lookup in Hf.
    destruct (JSObj.get_own idx t) as [l|] eqn:G.
    + assert (Hl : (index_list idx) t = l) by (unfold index_list; rewrite G; reflexivity).
      destruct (fold_outcome bump l scores) as [s'| |] eqn:Hb; simpl in Hf; try discriminate.
      destruct (bump_fold P l [] scores s') as [H1 H2].
      * exact (Hn _ _ G).
      * rewrite Hs. unfold model. simpl. rewrite app_nil_r. reflexivity.
      * rewrite app_nil_r. exact Hp.
      * exact Hb.
      * simpl in H1, H2. rewrite <- Hl, model_step in H1.
        replace (P ++ t :: r)%list with ((P ++ [t]) ++ r)%list by (rewrite <- app_assoc; reflexivity).
        apply (IH (P ++ [t])%list s'); try assumption.
        rewrite flat_map_app. simpl. rewrite app_nil_r, Hl. exact H2.
    + assert (Hl : (index_list idx) t = []) by (unfold index_list; rewrite G; reflexivity).
      destruct (JSObj.is_proto_member t); [discriminate|].
      simpl in Hf.
      replace (P ++ t :: r)%list with ((P ++ [t]) ++ r)%list by (rewrite <- app_assoc; reflexivity).
      apply (IH (P ++ [t])%list scores); try assumption.
      * rewrite Hs, <- model_step, Hl. reflexivity.
      * rewrite flat_map_app. simpl. rewrite Hl. simpl. rewrite !app_nil_r. exact Hp.
Qed.

Lemma scores_shape toks fin :
  idx_nodup idx ->
  fold_outcome (score_keyword idx) toks [] = Ok fin ->
  fin = map (fun x => (x, query_score idx toks x)) (first_seen (flat_map (index_list idx) toks)).
Proof.
  intros Hn Hf. destruct (score_fold toks [] [] fin Hn) as [H _].
  - reflexivity.
  - intros x [].
  - exact Hf.
  - rewrite H. unfold model. simpl. rewrite app_nil_r.
    apply map_ext. intros x. rewrite Nat.add_0_r. reflexivity.
Qed.

End Scoring.

(** The comparator sort. *)
Definition desc (a b : string * nat) : Prop := snd b <= snd a.

Lemma insert_desc_perm x l : Permutation (insert_desc x l) (x :: l).
Proof.
  induction l as [|y r IH]; simpl; [reflexivity|].
  destruct (snd y <=? snd x); [reflexivity|].
  rewrite IH. apply perm_swap.
Qed.

Lemma sort_desc_perm l : Permutation (sort_desc l) l.
Proof.
  induction l as [|x r IH]; simpl; [reflexivity|].
  rewrite insert_desc_perm, IH. reflexivity.
Qed.

Lemma insert_desc_sorted x l : StronglySorted desc l -> StronglySorted desc (insert_desc x l).
Proof.
  induction l as [|y r IH]; simpl; intros H.
  - repeat constructor.
  - inversion H as [|? ? Hr Hf]; subst.
    destruct (snd y <=? snd x) eqn:E.
    + apply Nat.leb_le in E. constructor; [exact H|].
      constructor; [exact E|]. rewrite Forall_forall in *. intros z Hz.
      specialize (Hf z Hz). unfold desc in *. lia.
    + apply Nat.leb_gt in E. constructor; [apply IH; exact Hr|].
      rewrite Forall_forall in *. intros z Hz.
      apply (Permutation_in _ (insert_desc_perm x r)) in Hz. destruct Hz as [<- | Hz].
      * unfold desc. lia.
      * apply Hf. exact Hz.
Qed.

Lemma sort_desc_sorted l : StronglySorted desc (sort_desc l).
Proof.
  induction l as [|x r IH]; simpl; [constructor|]. apply insert_desc_sorted. exact IH.
Qed.

Lemma insert_desc_filter n x l :
  filter (fun y => snd y =? n) (insert_desc x l) =
  if snd x =? n then x :: filter (fun y => snd y =? n) l else filter (fun y => snd y =? n) l.
Proof.
  induction l as [|y r IH]; simpl.
  - destruct (snd x =? n); reflexivity.
  - destruct (snd y <=? snd x) eqn:E.
    + simpl. reflexivity.
    + simpl. rewrite IH. apply Nat.leb_gt in E.
      destruct (snd x =? n) eqn:Ex, (snd y =? n) eqn:Ey; try reflexivity.
      apply Nat.eqb_eq in Ex, Ey. lia.
Qed.

Lemma sort_desc_filter n l :
  filter (fun y => snd y =? n) (sort_desc l) = filter (fun y => snd y =? n) l.
Proof.
  induction l as [|x r IH]; simpl; [reflexivity|].
  rewrite insert_desc_filter, IH. reflexivity.
Qed.

Lemma slice_end_nat len n : slice_end len (NFin (inject_Z (Z.of_nat n))) = Nat.min n len.
Proof.
  unfold slice_end. simpl. rewrite Z.quot_1_r.
  destruct (Z.of_nat n <? 0)%Z eqn:E; [apply Z.ltb_lt in E; lia|].
  rewrite Nat2Z.id. reflexivity.
Qed.

End SearchFacts.


Module ToolClaims.
Import JS DocumentParser Search Tools.
Local Open Scope nat_scope.

(** A bill with five sections ["A"] to ["E"], each about a farm program. *)
Definition farm_section (id : string) : xval :=
  XObj [("$", PAttrs [("id", id)]); ("text", PArr [XStr "Farm aid program."])].

Definition five_doc : xval :=
  XObj [("section", PArr (map farm_section ["A"; "B"; "C"; "D"; "E"]))].

(** The number of entries of the [results] array of a tool result. *)
Definition results_length (v : jv) : nat :=
  match v with
  | JObj ps => match assoc ps "results" with Some (JArr l) => length l | _ => 0 end
  | _ => 0
  end.

Definition with_doc (xml : xval) (f : snapshot -> outcome jv) : outcome nat :=
  bind (buildDocumentStructure xml) (fun doc => bind (f doc) (fun v => Ok (results_length v))).

(** C7: with [maxResults = -1], [Math.min(-1, 3)] is [-1] and
    [slice(0, -1)] keeps all matches but the last: on [five_doc] the
    keyword search, the topic search and the financial-impact search each
    return 4 results, more than the cap of 3. *)
Theorem negative_maxResults_exceeds_cap :
  with_doc five_doc (fun doc => executeSearchSections doc
    (JObj [("query", JStr "farm"); ("maxResults", JNum (NFin (-1)))])) = Ok 4 /\
  with_doc five_doc (fun doc => executeSearchByTopic doc
    (JObj [("topic", JStr "agriculture"); ("maxResults", JNum (NFin (-1)))])) = Ok 4 /\
  with_doc five_doc (fun doc => executeSearchFinancialImpact doc
    (JObj [("impactType", JStr "aid program"); ("maxResults", JNum (NFin (-1)))])) = Ok 4.
Proof. split; [|split]; vm_compute; reflexivity. Qed.


(** C5: a [search_by_topic] call whose topic ["weather"] lies outside the
    declared enumeration is not rejected: it runs as a search for the
    literal keyword and yields an ordinary result (no error payload). *)
Theorem out_of_enum_topic_runs :
  bind (buildDocumentStructure five_doc)
       (fun doc => run_call doc ("t1", "search_by_topic", JObj [("topic", JStr "weather")])) =
  Ok (IToolResult "t1" (JObj [("topic", JStr "weather"); ("searchKeywords", JArr [JStr "weather"]);
                             ("results", JArr []); ("totalFound", jnat 0)])).
Proof. vm_compute. reflexivity. Qed.

(** [substring 0 (length s) s] is [s]. *)
Lemma substring_0_length (s : string) : substring 0 (String.length s) s = s.
Proof. induction s as [|c s IH]; simpl; [reflexivity|now rewrite IH]. Qed.

(** [error.message] of a [TypeError] drops the ["TypeError: "] prefix. *)
Lemma error_message_type_error (m : string) : error_message ("TypeError: " ++ m) = m.
Proof.
  unfold error_message. simpl. rewrite Nat.sub_0_r.
  assert (Hp : String.prefix "" m = true) by (destruct m; reflexivity).
  rewrite Hp. apply substring_0_length.
Qed.

(** C5 (amended): tool arguments are not checked against the declared
    schemas.  No tool call aborts the query: a thrown error becomes the
    tool_result payload [{error: error.message}].  For the keyword tools
    ([field] is [topic] or [impactType]): a string whose lower case is an
    own key of the keyword table is searched with that key's keywords, any
    other string that is not an [Object.prototype] member name is searched
    as the literal keyword, a member name such as ["constructor"] fails
    with [keywords.join is not a function], and a missing, [null] or other
    non-string value fails with the [toLowerCase] TypeError of its kind.  A
    [search_sections] call without [query] (and a [maxResults] accepted by
    [ToNumber]) returns no results; a [null] input to any tool that
    destructures it fails with the destructuring TypeError; a negative
    [maxResults] is passed on unchanged and a non-numeric string becomes
    [NaN]. *)
Theorem tool_arguments_not_schema_checked :
  (forall doc call, match run_call doc call with Throw _ => False | _ => True end) /\
  (forall doc id name input e, run_tool doc name input = Throw e ->
     run_call doc (id, name, input) = Ok (IToolResult id (error_payload (error_message e)))) /\
  (forall m, error_message ("TypeError: " ++ m) = m) /\
  (forall table field t l, JSObj.lookup table (Str.toLowerCase t) = JSObj.LOwn l ->
     keywords_for table field (JStr t) = Ok l) /\
  (forall table field t, JSObj.lookup table (Str.toLowerCase t) = JSObj.LUndef ->
     keywords_for table field (JStr t) = Ok [t]) /\
  (forall table field doc input t, get input field = Ok (JStr t) ->
     JSObj.lookup table (Str.toLowerCase t) = JSObj.LProto ->
     keyword_search table field doc input = Throw "TypeError: keywords.join is not a function") /\
  (forall table field doc input, get input field = Ok JUndef ->
     keyword_search table field doc input =
       Throw "TypeError: Cannot read properties of undefined (reading 'toLowerCase')") /\
  (forall table field doc input, get input field = Ok JNull ->
     keyword_search table field doc input =
       Throw "TypeError: Cannot read properties of null (reading 'toLowerCase')") /\
  (forall table field doc input v, get input field = Ok v ->
     match v with JNum _ | JBool _ | JArr _ | JObj _ => True | _ => False end ->
     keyword_search table field doc input =
       Throw ("TypeError: " ++ field ++ ".toLowerCase is not a function")) /\
  keywords_for topicKeywords "topic" (JStr "TAX") =
    Ok ["tax"; "taxes"; "taxation"; "income"; "deduction"; "credit"; "revenue"; "IRS"] /\
  (forall doc ps m n, get (JObj ps) "query" = Ok JUndef -> get (JObj ps) "maxResults" = Ok m ->
     result_limit m = Ok n ->
     executeSearchSections doc (JObj ps) =
       Ok (JObj [("query", JUndef); ("results", JArr []); ("totalFound", jnat 0)])) /\
  (forall doc,
     executeSearchSections doc JNull =
       Throw "TypeError: Cannot destructure property 'query' of 'input' as it is null." /\
     executeGetSectionById doc JNull =
       Throw "TypeError: Cannot destructure property 'sectionId' of 'input' as it is null." /\
     executeSearchByTopic doc JNull =
       Throw "TypeError: Cannot destructure property 'topic' of 'input' as it is null." /\
     executeSearchFinancialImpact doc JNull =
       Throw "TypeError: Cannot destructure property 'impactType' of 'input' as it is null.") /\
  (forall q, (q < 0)%Q -> result_limit (JNum (NFin q)) = Ok (NFin q)) /\
  result_limit (JStr "abc") = Ok NNaN.
Proof.
  repeat split.
  - intros doc [[id name] input]. unfold run_call.
    destruct (run_tool doc name input); exact I.
  - intros doc id name input e H. unfold run_call. rewrite H. reflexivity.
  - exact error_message_type_error.
  - intros table field t l H. unfold keywords_for. rewrite H. reflexivity.
  - intros table field t H. unfold keywords_for. rewrite H. reflexivity.
  - intros table field doc input t Hg Hl. unfold keyword_search. rewrite Hg.
    destruct input; try discriminate; simpl. unfold keywords_for. rewrite Hl. reflexivity.
  - intros table field doc input Hg. unfold keyword_search. rewrite Hg.
    destruct input; try discriminate; reflexivity.
  - intros table field doc input Hg. unfold keyword_search. rewrite Hg.
    destruct input; try discriminate; reflexivity.
  - intros table field doc input v Hg Hv. unfold keyword_search. rewrite Hg.
    destruct input; try discriminate; simpl; destruct v; try contradiction; reflexivity.
  - intros doc ps m n Hq Hm Hr. unfold executeSearchSections. rewrite Hq. cbn [bind].
    rewrite Hm. cbn [bind]. rewrite Hr. cbn [bind].
    unfold searchSections, searchSections_ranked, slice0. simpl.
    rewrite firstn_nil. reflexivity.
  - intros q Hq. unfold result_limit. simpl. unfold num_min.
    replace (Qle_bool q 3) with true; [reflexivity|].
    symmetry. apply Qle_bool_iff. apply Qlt_le_weak. apply (Qlt_trans _ 0); [exact Hq|reflexivity].
Qed.

Lemma tool_arguments_not_schema_checked_witness :
  run_call empty_doc ("t1", "search_by_topic", JObj [("topic", JStr "constructor")]) =
    Ok (IToolResult "t1" (error_payload "keywords.join is not a function")) /\
  run_call empty_doc ("t2", "search_financial_impact", JObj [("impactType", JNum (NFin 5))]) =
    Ok (IToolResult "t2" (error_payload "impactType.toLowerCase is not a function")) /\
  keywords_for topicKeywords "topic" (JStr "weather") = Ok ["weather"] /\
  keywords_for impactKeywords "impactType" (JStr "Cost") =
    Ok ["cost"; "costs"; "expense"; "expenditure"; "budget"] /\
  executeSearchSections empty_doc (JObj [("maxResults", JNum (NFin 2))]) =
    Ok (JObj [("query", JUndef); ("results", JArr []); ("totalFound", jnat 0)]) /\
  result_limit (JNum (NFin (-2))) = Ok (NFin (-2)).
Proof.
  destruct tool_arguments_not_schema_checked as
    [_ [H2 [H3 [H4 [H5 [H6 [_ [_ [H9 [_ [H11 [_ [H13 _]]]]]]]]]]]]].
  split; [|split; [|split; [|split; [|split]]]].
  - rewrite (H2 empty_doc "t1" "search_by_topic" _ "TypeError: keywords.join is not a function").
    + exact (f_equal (fun m => Ok (IToolResult "t1" (error_payload m))) (H3 "keywords.join is not a function")).
    + apply (H6 topicKeywords "topic" empty_doc _ "constructor"); reflexivity.
  - rewrite (H2 empty_doc "t2" "search_financial_impact" _ "TypeError: impactType.toLowerCase is not a function").
    + exact (f_equal (fun m => Ok (IToolResult "t2" (error_payload m))) (H3 "impactType.toLowerCase is not a function")).
    + apply (H9 impactKeywords "impactType" empty_doc _ (JNum (NFin 5))); [reflexivity|exact I].
  - apply H5. vm_compute. reflexivity.
  - apply H4. vm_compute. reflexivity.
  - apply (H11 empty_doc _ (JNum (NFin 2)) (NFin 2)); reflexivity.
  - apply H13. reflexivity.
Defined.

End ToolClaims.

Module QueryClaims.
Import JS QueryProcessor.
Local Open Scope nat_scope.

(** On strings, [validateQuery] accepts exactly the strings that are
    non-empty after trimming and at most 1000 characters long, and reports
    at least one error for every other string. *)
Lemma validateQuery_string (s : string) :
  match validateQuery (JStr s) with
  | Ok (valid, errors) =>
      (valid = true <-> Str.trim s <> "" /\ String.length s <= 1000) /\
      (valid = false -> errors <> [])
  | _ => False
  end.
Proof.
  unfold validateQuery. simpl.
  destruct (String.eqb s "") eqn:E.
  - apply String.eqb_eq in E. subst s. simpl. split; [|discriminate].
    split; [discriminate|]. intros [H _]. exfalso. apply H. reflexivity.
  - simpl.
    assert (Ht : (String.length (Str.trim s) =? 0) = String.eqb (Str.trim s) "").
    { destruct (Str.trim s); reflexivity. }
    rewrite Ht.
    destruct (String.eqb (Str.trim s) "") eqn:T, (1000 <? String.length s) eqn:L; simpl.
    + split; [|discriminate]. split; [discriminate|]. intros [H _]. exfalso. apply H. apply String.eqb_eq. exact T.
    + split; [|discriminate]. split; [discriminate|]. intros [H _]. exfalso. apply H. apply String.eqb_eq. exact T.
    + split; [|discriminate]. split; [discriminate|]. intros [_ H]. apply Nat.ltb_lt in L. exfalso. lia.
    + split; [|discriminate]. split; [intros _; split|reflexivity].
      * intros H. rewrite H in T. discriminate.
      * apply Nat.ltb_ge in L. exact L.
Qed.

(** C10: the JSON body [{"query": 5}] of [POST /api/validate] hands the
    number 5 to [validateQuery], which throws (a number has no [trim]
    method) instead of returning [valid == false] with its errors. *)
Theorem validateQuery_number_throws :
  validateQuery (JNum (NFin 5)) = Throw "TypeError: query.trim is not a function".
Proof. reflexivity. Qed.

End QueryClaims.

Module OrchestratorFacts.
Import JS Search Tools Orchestrator.
Local Open Scope nat_scope.

(** The entry [executeToolCalls] produces for the invocation [u]: the tool's
    result, or the error payload of the error it threw. *)
Definition entry_ok (doc : snapshot) (u : string * string * jv) (r : item) : Prop :=
  (exists v, run_tool doc (snd (fst u)) (snd u) = Ok v /\ r = IToolResult (use_id u) v) \/
  (exists e, run_tool doc (snd (fst u)) (snd u) = Throw e /\ r = IToolResult (use_id u) (error_payload (error_message e))).

Definition pair_msgs (cr : list item * list item) : list message :=
  [mkMessage "assistant" (CItems (fst cr)); mkMessage "user" (CItems (snd cr))].

Lemma map_outcome_Forall2 {A B} (f : A -> outcome B) l r :
  map_outcome f l = Ok r -> Forall2 (fun x y => f x = Ok y) l r.
Proof.
  revert r. induction l as [|x l IH]; simpl; intros r H.
  - injection H as <-. constructor.
  - destruct (f x) as [y| |] eqn:E; simpl in H; try discriminate.
    destruct (map_outcome f l) as [ys| |] eqn:E2; simpl in H; try discriminate.
    injection H as <-. constructor; [exact E | apply IH; reflexivity].
Qed.

Lemma run_call_entry doc u r : run_call doc u = Ok r -> entry_ok doc u r.
Proof.
  destruct u as [[id name] input]. unfold run_call, entry_ok, use_id. simpl.
  destruct (run_tool doc name input) as [v|e|w]; intros H; try discriminate;
    injection H as <-; [left; exists v | right; exists e]; split; reflexivity.
Qed.

Lemma entry_ok_id doc u r : entry_ok doc u r -> result_id r = Some (use_id u).
Proof. intros [[v [_ ->]] | [e [_ ->]]]; reflexivity. Qed.

Lemma entries_ids doc us rs :
  Forall2 (entry_ok doc) us rs -> map result_id rs = map (fun u => Some (use_id u)) us.
Proof.
  induction 1 as [|u r us rs Hur _ IH]; simpl; [reflexivity|].
  rewrite (entry_ok_id _ _ _ Hur), IH. reflexivity.
Qed.

Lemma entries_result_ids doc us rs :
  Forall2 (entry_ok doc) us rs ->
  flat_map (fun r => match result_id r with Some i => [i] | None => [] end) rs = map use_id us.
Proof.
  induction 1 as [|u r us rs Hur _ IH]; simpl; [reflexivity|].
  rewrite (entry_ok_id _ _ _ Hur), IH. reflexivity.
Qed.

Lemma filter_all_present (l : list string) :
  filter (fun i => negb (existsb (String.eqb i) l)) l = [].
Proof.
  assert (H : forall l', incl l' l -> filter (fun i => negb (existsb (String.eqb i) l)) l' = []).
  { induction l' as [|x r IH]; simpl; intros Hi; [reflexivity|].
    assert (Hx : existsb (String.eqb x) l = true).
    { apply SearchFacts.existsb_eqb_In. apply Hi. left. reflexivity. }
    rewrite Hx. simpl. apply IH. intros y Hy. apply Hi. right. exact Hy. }
  apply H. intros y Hy. exact Hy.
Qed.

Lemma executeToolCalls_entries doc content rs :
  executeToolCalls doc content = Ok rs -> Forall2 (entry_ok doc) (tool_uses content) rs.
Proof.
  unfold executeToolCalls.
  destruct (map_outcome (run_call doc) (tool_uses content)) as [results| |] eqn:E;
    simpl; intros H; try discriminate.
  injection H as <-.
  assert (HF : Forall2 (entry_ok doc) (tool_uses content) results).
  { apply map_outcome_Forall2 in E. clear - E.
    induction E; constructor; [apply run_call_entry; assumption | assumption]. }
  rewrite (entries_result_ids _ _ _ HF), filter_all_present. simpl. rewrite app_nil_r. exact HF.
Qed.

Lemma pairing_app l r : pairing_ok l -> pairing_ok r -> pairing_ok (l ++ r)%list.
Proof.
  induction l as [|m l IH]; simpl; intros Hl Hr; [exact Hr|].
  destruct Hl as [Hm Hl]. split; [|apply IH; assumption].
  destruct (String.eqb (role m) "assistant"); [|exact I].
  destruct l as [|m' l']; [contradiction | exact Hm].
Qed.

Lemma pairing_pair doc c res :
  executeToolCalls doc c = Ok res -> pairing_ok (pair_msgs (c, res)).
Proof.
  intros H. simpl. split; [|split; [exact I | exact I]].
  split; [reflexivity|]. exists res. split; [reflexivity|].
  exact (entries_ids _ _ _ (executeToolCalls_entries _ _ _ H)).
Qed.

Lemma pairing_forced : pairing_ok [mkMessage "user" (CItems [IText final_instruction])].
Proof. simpl. split; exact I. Qed.

Section LoopFacts.
Variable doc : snapshot.
Variable reply : payload -> list item.
Variable orig : payload.

Lemma tool_loop_pairing fuel : forall n cur h n' cur' h' posted,
  pairing_ok h ->
  tool_loop doc reply orig fuel n cur h = Ok (n', cur', h', posted) ->
  pairing_ok h' /\ Forall (fun p => pairing_ok (messages p)) posted.
Proof.
  induction fuel as [|k IH]; simpl; intros n cur h n' cur' h' posted Hh H.
  - injection H as _ _ <- <-. split; [exact Hh | constructor].
  - destruct (has_tool_use cur); [|injection H as _ _ <- <-; split; [exact Hh | constructor]].
    destruct (executeToolCalls doc cur) as [res| |] eqn:Ex; simpl in H; try discriminate.
    set (h1 := (h ++ [mkMessage "assistant" (CItems cur); mkMessage "user" (CItems res)])%list) in *.
    assert (H1 : pairing_ok h1) by (apply pairing_app; [exact Hh | exact (pairing_pair _ _ _ Ex)]).
    destruct (tool_loop doc reply orig k (S n) (reply (mkPayload h1 (tools orig))) h1)
      as [[[[a b] c] d]| |] eqn:El; simpl in H; try discriminate.
    injection H as <- <- <- <-.
    destruct (IH _ _ _ _ _ _ _ H1 El) as [Hc Hd].
    split; [exact Hc|]. constructor; [exact H1 | exact Hd].
Qed.

Lemma tool_loop_shape fuel : forall n cur h n' cur' h' posted,
  tool_loop doc reply orig fuel n cur h = Ok (n', cur', h', posted) ->
  exists rs, length rs = length posted /\ n' = n + length posted /\ length posted <= fuel /\
    (length posted = fuel \/ has_tool_use cur' = false) /\
    Forall (fun cr => has_tool_use (fst cr) = true /\ executeToolCalls doc (fst cr) = Ok (snd cr)) rs /\
    (map fst rs ++ [cur'])%list = cur :: map reply posted /\
    h' = (h ++ flat_map pair_msgs rs)%list /\
    Forall (fun p => tools p = tools orig) posted.
Proof.
  induction fuel as [|k IH]; simpl; intros n cur h n' cur' h' posted H.
  - injection H as <- <- <- <-. exists []. simpl.
    split; [reflexivity|]. split; [lia|]. split; [lia|].
    split; [left; reflexivity|]. split; [constructor|]. split; [reflexivity|].
    split; [rewrite app_nil_r; reflexivity | constructor].
  - destruct (has_tool_use cur) eqn:Ht.
    2:{ injection H as <- <- <- <-. exists []. simpl.
        split; [reflexivity|]. split; [lia|]. split; [lia|].
        split; [right; exact Ht|]. split; [constructor|]. split; [reflexivity|].
        split; [rewrite app_nil_r; reflexivity | constructor]. }
    destruct (executeToolCalls doc cur) as [res| |] eqn:Ex; simpl in H; try discriminate.
    set (h1 := (h ++ [mkMessage "assistant" (CItems cur); mkMessage "user" (CItems res)])%list) in *.
    destruct (tool_loop doc reply orig k (S n) (reply (mkPayload h1 (tools orig))) h1)
      as [[[[a b] c] d]| |] eqn:El; simpl in H; try discriminate.
    injection H as <- <- <- <-.
    destruct (IH _ _ _ _ _ _ _ El) as [rs [Hlen [Hn [Hle [Hend [Hall [Hseq [Hh Htools]]]]]]]].
    exists ((cur, res) :: rs). simpl.
    split; [lia|]. split; [lia|]. split; [lia|].
    split; [destruct Hend as [Hend | Hend]; [left; lia | right; exact Hend]|].
    split; [constructor; [split; assumption | exact Hall]|].
    split; [rewrite Hseq; reflexivity|].
    split; [rewrite Hh; unfold h1; rewrite <- app_assoc; reflexivity|].
    constructor; [reflexivity | exact Htools].
Qed.

End LoopFacts.

End OrchestratorFacts.

Module OrchestratorClaims.
Import JS Search Tools Orchestrator OrchestratorFacts.
Local Open Scope nat_scope.

Definition tool_names : list string :=
  ["search_sections"; "get_section_by_id"; "search_by_topic"; "get_bill_overview";
   "search_financial_impact"].

(** The first request of [makeApiCall]: the prompt and the five tools. *)
Definition orig0 : payload :=
  mkPayload [mkMessage "user" (CText "What does the bill change for farms?")] tool_names.

(** A model that requests a tool in every reply. *)
Definition always_tool (p : payload) : list item :=
  [IToolUse "t1" "get_bill_overview" (JObj [])].

(** A reply with a successful and a failing invocation. *)
Definition two_calls : list item :=
  [IText "Looking this up."; IToolUse "t1" "get_bill_overview" (JObj []);
   IToolUse "t2" "search_by_topic" (JObj [("topic", JNum (NFin 5))])].

Definition ok_or {A} (d : A) (o : outcome A) : A :=
  match o with Ok a => a | _ => d end.

(** C1: [executeToolCalls] returns, for the tool invocations of a reply in
    order, exactly one entry each, carrying the invocation's id and either
    the tool's result or the error payload of the error it threw; and in
    every request that [handleToolCallsRecursively] posts, each assistant
    turn is immediately followed by a user turn whose tool_result ids are
    the assistant turn's tool_use ids, in order. *)
Theorem tool_results_paired :
  (forall doc content rs, executeToolCalls doc content = Ok rs ->
     Forall2 (entry_ok doc) (tool_uses content) rs) /\
  (forall doc reply orig response final posts,
     pairing_ok (messages orig) ->
     handleToolCallsRecursively doc reply orig response = Ok (final, posts) ->
     Forall (fun p => pairing_ok (messages p)) posts).
Proof.
  split; [exact executeToolCalls_entries|].
  intros doc reply orig response final posts Ho H.
  unfold handleToolCallsRecursively, handle_with in H.
  destruct (tool_loop doc reply orig maxIterations 0 response (messages orig))
    as [[[[n cur] h] posted]| |] eqn:El; cbn [bind] in H; try discriminate.
  destruct (tool_loop_pairing doc reply orig _ _ _ _ _ _ _ _ Ho El) as [Hh Hp].
  destruct (maxIterations <=? n); destruct (has_tool_use cur); cbn [andb] in H;
    try (injection H as _ <-; exact Hp).
  destruct (executeToolCalls doc cur) as [res| |] eqn:Ex; simpl in H; try discriminate.
  injection H as _ <-. apply Forall_app. split; [exact Hp|]. constructor; [|constructor].
  simpl. change [mkMessage "assistant" (CItems cur); mkMessage "user" (CItems res);
                 mkMessage "user" (CItems [IText final_instruction])]
           with (pair_msgs (cur, res) ++ [mkMessage "user" (CItems [IText final_instruction])])%list.
  rewrite app_assoc. apply pairing_app; [|exact pairing_forced].
  apply pairing_app; [exact Hh | exact (pairing_pair _ _ _ Ex)].
Qed.

Lemma tool_results_paired_witness :
  (exists rs, executeToolCalls empty_doc two_calls = Ok rs /\
     Forall2 (entry_ok empty_doc) (tool_uses two_calls) rs) /\
  (pairing_ok (messages orig0) /\
   exists r, handleToolCallsRecursively empty_doc always_tool orig0 (always_tool orig0) = Ok r /\
     Forall (fun p => pairing_ok (messages p)) (snd r)).
Proof.
  split.
  - exists (ok_or [] (executeToolCalls empty_doc two_calls)).
    assert (E : executeToolCalls empty_doc two_calls = Ok (ok_or [] (executeToolCalls empty_doc two_calls)))
      by (vm_compute; reflexivity).
    split; [exact E|]. exact (proj1 tool_results_paired _ _ _ E).
  - assert (Ho : pairing_ok (messages orig0)) by (simpl; split; exact I).
    split; [exact Ho|].
    set (r := ok_or ([], []) (handleToolCallsRecursively empty_doc always_tool orig0 (always_tool orig0))).
    exists r.
    assert (E : handleToolCallsRecursively empty_doc always_tool orig0 (always_tool orig0) = Ok (fst r, snd r))
      by (vm_compute; reflexivity).
    split; [rewrite <- surjective_pairing in E; exact E|].
    exact (proj2 tool_results_paired _ _ _ _ _ _ Ho E).
Defined.

(** C2: with a model that always requests a tool and the budget 2, the
    requests posted carry 0, 1, 2 and 3 assistant tool turns: the tools run
    three times before the forced round, every request (the forced one
    included) still offers the five tools, and the reply returned is a
    tool request. *)
Theorem budget_two_runs_three_tool_rounds :
  bind (makeApiCall_with empty_doc always_tool orig0 2)
       (fun r => Ok (has_tool_use (fst r),
                     map (fun p => (count_assistant (messages p), length (tools p))) (snd r))) =
  Ok (true, [(0, 5); (1, 5); (2, 5); (3, 5)]).
Proof. vm_compute. reflexivity. Qed.

(** C2 (amended): with the budget [m], either the loop ends on a reply
    without tool requests after at most [m] requests, or it posts [m]
    requests and then exactly one forced request, whose messages are the
    original ones, then [m + 1] assistant turns (the first response and the
    replies to the [m] requests, each with tool requests) each followed by
    the results of its executed calls, then the user text
    [final_instruction]; the forced request carries the original tools and
    its reply is returned unchanged. *)
Theorem budget_exhaustion_forced_round (doc : snapshot) (reply : payload -> list item)
  (orig : payload) (m : nat) (response final : list item) (posts : list payload) :
  handle_with doc reply orig m response = Ok (final, posts) ->
  (has_tool_use final = false /\ length posts <= m) \/
  (exists ps p rs,
     posts = (ps ++ [p])%list /\ length ps = m /\ length rs = S m /\
     Forall (fun cr => has_tool_use (fst cr) = true /\ executeToolCalls doc (fst cr) = Ok (snd cr)) rs /\
     map fst rs = response :: map reply ps /\
     messages p = (messages orig ++ flat_map pair_msgs rs ++
                   [mkMessage "user" (CItems [IText final_instruction])])%list /\
     tools p = tools orig /\ final = reply p).
Proof.
  intros H. unfold handle_with in H.
  destruct (tool_loop doc reply orig m 0 response (messages orig))
    as [[[[n cur] h] posted]| |] eqn:El; cbn [bind] in H; try discriminate.
  destruct (tool_loop_shape doc reply orig _ _ _ _ _ _ _ _ El)
    as [rs [Hlen [Hn [Hle [Hend [Hall [Hseq [Hh Htools]]]]]]]].
  destruct (m <=? n) eqn:Hm; destruct (has_tool_use cur) eqn:Ht; cbn [andb] in H.
  - destruct (executeToolCalls doc cur) as [res| |] eqn:Ex; simpl in H; try discriminate.
    injection H as <- <-. right.
    apply Nat.leb_le in Hm.
    exists posted, (mkPayload (h ++ [mkMessage "assistant" (CItems cur); mkMessage "user" (CItems res);
                                    mkMessage "user" (CItems [IText final_instruction])])%list (tools orig)),
           (rs ++ [(cur, res)])%list.
    split; [reflexivity|]. split; [lia|]. split; [rewrite length_app; simpl; lia|].
    split; [apply Forall_app; split; [exact Hall | constructor; [split; assumption | constructor]]|].
    split; [rewrite map_app; exact Hseq|].
    split; [simpl; rewrite Hh, flat_map_app; simpl; rewrite <- !app_assoc; reflexivity|].
    split; reflexivity.
  - injection H as <- <-. left. split; [exact Ht | exact Hle].
  - injection H as <- <-. left. apply Nat.leb_gt in Hm.
    destruct Hend as [Hend | Hend]; [lia | discriminate].
  - injection H as <- <-. left. split; [exact Ht | exact Hle].
Qed.

Lemma budget_exhaustion_forced_round_witness :
  exists r, handle_with empty_doc always_tool orig0 2 (always_tool orig0) = Ok r /\
  ((has_tool_use (fst r) = false /\ length (snd r) <= 2) \/
   (exists ps p rs,
      snd r = (ps ++ [p])%list /\ length ps = 2 /\ length rs = 3 /\
      Forall (fun cr => has_tool_use (fst cr) = true /\ executeToolCalls empty_doc (fst cr) = Ok (snd cr)) rs /\
      map fst rs = always_tool orig0 :: map always_tool ps /\
      messages p = (messages orig0 ++ flat_map pair_msgs rs ++
                    [mkMessage "user" (CItems [IText final_instruction])])%list /\
      tools p = tools orig0 /\ fst r = always_tool p)).
Proof.
  set (r := ok_or ([], []) (handle_with empty_doc always_tool orig0 2 (always_tool orig0))).
  exists r.
  assert (E : handle_with empty_doc always_tool orig0 2 (always_tool orig0) = Ok (fst r, snd r))
    by (vm_compute; reflexivity).
  split; [rewrite <- surjective_pairing in E; exact E|].
  exact (budget_exhaustion_forced_round empty_doc always_tool orig0 2 (always_tool orig0) (fst r) (snd r) E).
Defined.

End OrchestratorClaims.

Module ResponseFacts.
Import JS Tools ResponseParser.
Local Open Scope nat_scope.

Lemma fallback_shape (content : string) :
  exists ans kp,
    fallback content =
      [("answer", JStr ans); ("sections", JArr []); ("keyPoints", JArr (map JStr kp));
       ("implications", JStr "Based on the analysis provided above.");
       ("confidence", JStr "medium")] /\ length kp <= 5.
Proof.
  unfold fallback.
  destruct (0 <? length _)%nat; do 2 eexists; (split; [reflexivity | apply firstn_le_length]).
Qed.

(** When [JSON.parse] throws, the reply is the five-field structure built
    from the text, with [sections] empty, at most five key points and
    confidence ["medium"]. *)
Lemma parseResponse_fallback_complete (content e : string) :
  Json.parse (match brace_block content with Some m => m | None => content end) = Throw e ->
  exists ans kp,
    parseResponse [IText content] =
      Ok [("answer", JStr ans); ("sections", JArr []); ("keyPoints", JArr (map JStr kp));
          ("implications", JStr "Based on the analysis provided above.");
          ("confidence", JStr "medium")] /\ length kp <= 5.
Proof.
  intros H.
  destruct (fallback_shape content) as (ans & kp & Hf & Hk).
  unfold parseResponse. cbn [find]. rewrite H. cbn [bind as_object]. rewrite Hf.
  destruct (String.eqb ans "") eqn:Ea.
  - exists content, kp. split; [|exact Hk].
    unfold backfill, default_if_falsy, field. simpl. rewrite Ea. reflexivity.
  - exists ans, kp. split; [|exact Hk].
    unfold backfill, default_if_falsy, field. simpl. rewrite Ea. reflexivity.
Qed.

End ResponseFacts.

Module ResponseClaims.
Import JS Tools ResponseParser.

(** [{"answer":"x","sections":["S1"],"keyPoints":["p1"],"implications":"i"}] *)
Definition reply_without_confidence : string :=
  "{" ++ Orchestrator.q "answer" ++ ":" ++ Orchestrator.q "x" ++ "," ++
  Orchestrator.q "sections" ++ ":[" ++ Orchestrator.q "S1" ++ "]," ++
  Orchestrator.q "keyPoints" ++ ":[" ++ Orchestrator.q "p1" ++ "]," ++
  Orchestrator.q "implications" ++ ":" ++ Orchestrator.q "i" ++ "}".

(** The two examples of the normalizer: an embedded payload, and two bullet
    lines without braces. *)
Lemma parseResponse_examples :
  parseResponse [IText ("Here is info: {" ++ Orchestrator.q "answer" ++ ":" ++ Orchestrator.q "x" ++ "," ++
    Orchestrator.q "sections" ++ ":[" ++ Orchestrator.q "S1" ++ "]," ++
    Orchestrator.q "keyPoints" ++ ":[" ++ Orchestrator.q "p1" ++ "]," ++
    Orchestrator.q "implications" ++ ":" ++ Orchestrator.q "i" ++ "," ++
    Orchestrator.q "confidence" ++ ":" ++ Orchestrator.q "high" ++ "}")] =
    Ok [("answer", JStr "x"); ("sections", JArr [JStr "S1"]); ("keyPoints", JArr [JStr "p1"]);
        ("implications", JStr "i"); ("confidence", JStr "high")] /\
  exists ans,
    parseResponse [IText ("- point one" ++ nl ++ "- point two")] =
      Ok [("answer", JStr ans); ("sections", JArr []);
          ("keyPoints", JArr [JStr "point one"; JStr "point two"]);
          ("implications", JStr "Based on the analysis provided above.");
          ("confidence", JStr "medium")].
Proof.
  split; [vm_compute; reflexivity|].
  eexists. vm_compute. reflexivity.
Qed.

(** C4 (code bug). The normalizer does not always return all five fields: a
    parsed payload carrying answer, sections, keyPoints and implications but
    no confidence is returned without confidence, since the defaults are
    filled in only when one of the four required fields is falsy; and a
    payload that parses to a number throws ["Failed to parse Claude response"]
    instead of yielding a structure. *)
Theorem parsed_reply_without_confidence :
  parseResponse [IText reply_without_confidence] =
    Ok [("answer", JStr "x"); ("sections", JArr [JStr "S1"]); ("keyPoints", JArr [JStr "p1"]);
        ("implications", JStr "i")] /\
  parseResponse [IText "42"] = Throw parse_error.
Proof.
  split; vm_compute; reflexivity.
Qed.

End ResponseClaims.

(* ================================================================== *)
(** * Further properties of the modelled code *)

(** ** Character and string lemmas *)

Module StrFacts.
Import Chars Str.
Local Open Scope nat_scope.
Local Open Scope list_scope.

Definition sp : ascii := " "%char.

Lemma chars_of_chars (l : list ascii) : chars (of_chars l) = l.
Proof. apply list_ascii_of_string_of_list_ascii. Qed.

Lemma of_chars_chars (s : string) : of_chars (chars s) = s.
Proof. apply string_of_list_ascii_of_string. Qed.

Lemma to_lower_space (c : ascii) : is_space (to_lower c) = is_space c.
Proof. destruct c as [[] [] [] [] [] [] [] []]; reflexivity. Qed.

Lemma to_lower_not_upper (c : ascii) : is_upper (to_lower c) = false.
Proof. destruct c as [[] [] [] [] [] [] [] []]; reflexivity. Qed.

Lemma to_lower_id (c : ascii) : is_upper c = false -> to_lower c = c.
Proof. unfold to_lower; intros ->; reflexivity. Qed.

Lemma sp_space : is_space sp = true.
Proof. reflexivity. Qed.

Lemma sp_not_upper : is_upper sp = false.
Proof. reflexivity. Qed.

(** Two white-space characters in a row somewhere in [l]. *)
Definition adj (l : list ascii) : Prop :=
  exists l1 l2 c d, l = l1 ++ c :: d :: l2 /\ is_space c = true /\ is_space d = true.

Fixpoint no_adj (l : list ascii) : bool :=
  match l with
  | c :: ((d :: _) as r) => negb (is_space c && is_space d) && no_adj r
  | _ => true
  end.

Lemma no_adj_tail (c : ascii) (r : list ascii) : no_adj (c :: r) = true -> no_adj r = true.
Proof. destruct r as [|d r]; simpl; [reflexivity|]. intros H; apply andb_prop in H; tauto. Qed.

Lemma no_adj_not_adj (l : list ascii) : no_adj l = true -> ~ adj l.
Proof.
  induction l as [|c r IH]; intros H [l1 [l2 [a [b [E [Ha Hb]]]]]].
  - destruct l1; discriminate.
  - destruct l1 as [|x l1].
    + simpl in E; inversion E; subst. simpl in H. rewrite Ha, Hb in H. discriminate.
    + simpl in E; inversion E; subst. apply (IH (no_adj_tail _ _ H)).
      exists l1, l2, a, b; auto.
Qed.

Lemma not_adj_no_adj (l : list ascii) : ~ adj l -> no_adj l = true.
Proof.
  induction l as [|c r IH]; intros H; [reflexivity|].
  destruct r as [|d r]; [reflexivity|].
  change (negb (is_space c && is_space d) && no_adj (d :: r) = true).
  apply andb_true_intro; split.
  - destruct (is_space c) eqn:Ec, (is_space d) eqn:Ed; try reflexivity.
    exfalso; apply H; exists [], r, c, d; auto.
  - apply IH; intros [l1 [l2 [a [b [E [Ha Hb]]]]]].
    apply H; exists (c :: l1), l2, a, b. rewrite E; auto.
Qed.

Lemma adj_app_r (p l : list ascii) : adj l -> adj (p ++ l).
Proof.
  intros [l1 [l2 [a [b [E [Ha Hb]]]]]]; exists (p ++ l1), l2, a, b.
  rewrite E, app_assoc; auto.
Qed.

Lemma adj_app_l (l s : list ascii) : adj l -> adj (l ++ s).
Proof.
  intros [l1 [l2 [a [b [E [Ha Hb]]]]]]; exists l1, (l2 ++ s), a, b.
  rewrite E, <- app_assoc; auto.
Qed.

Lemma adj_rev (l : list ascii) : adj l -> adj (rev l).
Proof.
  intros [l1 [l2 [a [b [E [Ha Hb]]]]]]; exists (rev l2), (rev l1), b, a.
  rewrite E, rev_app_distr; simpl. repeat rewrite <- app_assoc; simpl; auto.
Qed.

Lemma adj_map (f : ascii -> ascii) (l : list ascii) :
  (forall c, is_space (f c) = is_space c) -> adj (map f l) -> adj l.
Proof.
  intros Hf [l1 [l2 [a [b [E [Ha Hb]]]]]].
  apply map_eq_app in E as [m1 [m2 [E1 [E2 E3]]]].
  destruct m2 as [|a' [|b' m2]]; try discriminate.
  simpl in E3; inversion E3; subst.
  exists m1, m2, a', b'. rewrite Hf in Ha, Hb; auto.
Qed.

Lemma drop_spaces_suffix (l : list ascii) :
  exists p, l = p ++ drop_spaces l /\ Forall (fun c => is_space c = true) p.
Proof.
  induction l as [|c r IH]; [exists []; auto|]. simpl.
  destruct (is_space c) eqn:E.
  - destruct IH as [p [Hp Fp]]; exists (c :: p); rewrite Hp at 1; auto.
  - exists []; auto.
Qed.

Lemma drop_spaces_head (l : list ascii) (c : ascii) (r : list ascii) :
  drop_spaces l = c :: r -> is_space c = false.
Proof.
  induction l as [|x l IH]; simpl; [discriminate|].
  destruct (is_space x) eqn:E; [exact IH|]. intros H; inversion H; subst; exact E.
Qed.

Lemma drop_spaces_id (l : list ascii) :
  (forall c r, l = c :: r -> is_space c = false) -> drop_spaces l = l.
Proof.
  destruct l as [|c r]; [reflexivity|]. intros H; simpl.
  rewrite (H c r eq_refl); reflexivity.
Qed.

Lemma collapse_head_true (l : list ascii) (c : ascii) (r : list ascii) :
  collapse_ws l true = c :: r -> is_space c = false.
Proof.
  induction l as [|x l IH]; simpl; [discriminate|].
  destruct (is_space x) eqn:E; [exact IH|]. intros H; inversion H; subst; exact E.
Qed.

Lemma collapse_no_adj (l : list ascii) (b : bool) : no_adj (collapse_ws l b) = true.
Proof.
  revert b; induction l as [|c r IH]; intros b; [reflexivity|]. simpl.
  destruct (is_space c) eqn:E; [destruct b; [apply IH|]|].
  - destruct (collapse_ws r true) as [|d t] eqn:Ec; [reflexivity|].
    change (negb (is_space sp && is_space d) && no_adj (d :: t) = true).
    pose proof (IH true) as H; rewrite Ec in H; rewrite H, (collapse_head_true _ _ _ Ec).
    reflexivity.
  - destruct (collapse_ws r false) as [|d t] eqn:Ec; [reflexivity|].
    change (negb (is_space c && is_space d) && no_adj (d :: t) = true).
    pose proof (IH false) as H; rewrite Ec in H; rewrite H, E. reflexivity.
Qed.

Lemma collapse_spaces (l : list ascii) (b : bool) :
  Forall (fun c => is_space c = true -> c = sp) (collapse_ws l b).
Proof.
  revert b; induction l as [|c r IH]; intros b; simpl; [constructor|].
  destruct (is_space c) eqn:E; [destruct b; [apply IH|]|].
  - constructor; auto.
  - constructor; [congruence|apply IH].
Qed.

Lemma collapse_id (l : list ascii) (b : bool) :
  no_adj l = true -> Forall (fun c => is_space c = true -> c = sp) l ->
  (b = true -> forall c r, l = c :: r -> is_space c = false) ->
  collapse_ws l b = l.
Proof.
  revert b; induction l as [|c r IH]; intros b Hn Hf Hb; [reflexivity|].
  inversion Hf as [|? ? Hc Hr]; subst. simpl.
  destruct (is_space c) eqn:E.
  - destruct b; [rewrite (Hb eq_refl c r eq_refl) in E; discriminate|].
    rewrite (Hc eq_refl). f_equal. apply IH; auto.
    + eapply no_adj_tail; eauto.
    + intros _ d t ->. simpl in Hn. rewrite E in Hn.
      destruct (is_space d); [discriminate|reflexivity].
  - f_equal. apply IH; auto; [eapply no_adj_tail; eauto|discriminate].
Qed.

End StrFacts.

(** ** [normalizeText] *)

Module NormalizeExtras.
Import Chars Str StrFacts TextUtils.
Local Open Scope list_scope.

(** The characters of a normalized text: no upper-case letter, the plain
    space as the only white space, never two spaces in a row, and no space
    at either end. *)
Definition normalized_shape (l : list ascii) : Prop :=
  Forall (fun c => is_upper c = false /\ (is_space c = true -> c = sp)) l /\
  ~ adj l /\
  (forall r, l <> sp :: r) /\ (forall r, l <> r ++ [sp]).

Lemma trim_parts (C : list ascii) :
  let T := rev (drop_spaces (rev (drop_spaces C))) in
  (exists p s, C = p ++ T ++ s) /\
  (forall c r, T = c :: r -> is_space c = false) /\
  (forall c r, T = r ++ [c] -> is_space c = false).
Proof.
  intros T.
  destruct (drop_spaces_suffix C) as [p [Hp _]].
  destruct (drop_spaces_suffix (rev (drop_spaces C))) as [q [Hq _]].
  assert (HD : drop_spaces C = T ++ rev q).
  { unfold T. rewrite <- rev_app_distr, <- Hq, rev_involutive; reflexivity. }
  split; [|split].
  - exists p, (rev q). rewrite Hp at 1. rewrite HD; reflexivity.
  - intros c r HT. apply (drop_spaces_head C c (r ++ rev q)). rewrite HD, HT; reflexivity.
  - intros c r HT. apply (drop_spaces_head (rev (drop_spaces C)) c (rev r)).
    rewrite <- (rev_involutive (drop_spaces (rev (drop_spaces C)))).
    fold T. rewrite HT, rev_app_distr; reflexivity.
Qed.

Lemma map_lower_shape (T : list ascii) :
  Forall (fun c => is_space c = true -> c = sp) T -> ~ adj T ->
  (forall c r, T = c :: r -> is_space c = false) ->
  (forall c r, T = r ++ [c] -> is_space c = false) ->
  normalized_shape (map to_lower T).
Proof.
  intros Hsp Hadj Hh Hl. split; [|split; [|split]].
  - apply Forall_map. rewrite Forall_forall in Hsp |- *. intros x Hx.
    split; [apply to_lower_not_upper|]. rewrite to_lower_space; intros Hs.
    rewrite (Hsp x Hx Hs); reflexivity.
  - intros H. apply adj_map in H; [contradiction|exact to_lower_space].
  - intros r H. destruct T as [|c t]; [discriminate|]. simpl in H; inversion H as [[H1 H2]].
    pose proof (Hh c t eq_refl) as Hc. rewrite <- to_lower_space, H1 in Hc. discriminate.
  - intros r H. apply map_eq_app in H as [m1 [m2 [E1 [E2 E3]]]].
    destruct m2 as [|c [|? ?]]; try discriminate. simpl in E3; inversion E3 as [H1].
    pose proof (Hl c m1 E1) as Hc. rewrite <- to_lower_space, H1 in Hc. discriminate.
Qed.

Lemma shape_fixed (l : list ascii) : normalized_shape l -> normalizeText (of_chars l) = of_chars l.
Proof.
  intros [Hf [Hadj [Hh Hl]]]. unfold normalizeText.
  destruct (String.eqb (of_chars l) "") eqn:E.
  { apply String.eqb_eq in E; rewrite E; reflexivity. }
  assert (Hsp : Forall (fun c => is_space c = true -> c = sp) l).
  { eapply Forall_impl; [|exact Hf]; intros c [_ H]; exact H. }
  assert (Hhd : forall c r, l = c :: r -> is_space c = false).
  { intros c r ->. inversion Hsp as [|? ? Hc]; subst.
    destruct (is_space c) eqn:Ec; [|reflexivity]. rewrite (Hc eq_refl) in Hh.
    exfalso; exact (Hh r eq_refl). }
  unfold toLowerCase, trim, replace_ws. rewrite !chars_of_chars.
  rewrite collapse_id; [|apply not_adj_no_adj; exact Hadj|exact Hsp|discriminate].
  rewrite (drop_spaces_id l Hhd).
  rewrite (drop_spaces_id (rev l)).
  2:{ intros c r Hr. assert (Hl' : l = rev r ++ [c]) by (rewrite <- (rev_involutive l), Hr; reflexivity).
      rewrite Forall_forall in Hsp. destruct (is_space c) eqn:Ec; [|reflexivity].
      rewrite (Hsp c) in Hl' by (auto; rewrite Hl'; apply in_or_app; right; left; reflexivity).
      exfalso; exact (Hl _ Hl'). }
  rewrite rev_involutive. f_equal.
  rewrite <- (map_id l) at 2. apply map_ext_in. intros c Hc.
  rewrite Forall_forall in Hf. apply to_lower_id, (Hf c Hc).
Qed.

Lemma normalized_chars (text : string) : normalized_shape (chars (normalizeText text)).
Proof.
  unfold normalizeText. destruct (String.eqb text "").
  - split; [constructor|split; [|split]].
    + intros [l1 [l2 [c [d [E _]]]]]. destruct l1; discriminate.
    + intros r H; discriminate.
    + intros r H. destruct r; discriminate.
  - unfold toLowerCase, trim, replace_ws. rewrite !chars_of_chars.
    set (C := collapse_ws (chars text) false).
    destruct (trim_parts C) as [[p [s HC]] [Hh Hl]].
    set (T := rev (drop_spaces (rev (drop_spaces C)))) in *.
    apply map_lower_shape; auto.
    + pose proof (collapse_spaces (chars text) false) as H. fold C in H.
      rewrite Forall_forall in H |- *. intros x Hx. apply H. rewrite HC.
      apply in_or_app; right; apply in_or_app; left; exact Hx.
    + intros H. apply (no_adj_not_adj C (collapse_no_adj _ _)). rewrite HC.
      apply adj_app_r, adj_app_l, H.
Qed.

(** X1: whatever the input, the characters of [normalizeText text] contain
    no upper-case letter, no white space other than the plain space, never
    two spaces in a row, and no space at either end. *)
Theorem normalizeText_shape (text : string) : normalized_shape (chars (normalizeText text)).
Proof. apply normalized_chars. Qed.

(** X2: [normalizeText] is idempotent, so normalizing a query before
    [generateKey] does not change its cache key. *)
Theorem normalizeText_idempotent (text : string) :
  normalizeText (normalizeText text) = normalizeText text /\
  Hashing.generateKey (normalizeText text) = Hashing.generateKey text.
Proof.
  assert (H : normalizeText (normalizeText text) = normalizeText text).
  { rewrite <- (of_chars_chars (normalizeText text)).
    apply shape_fixed, normalized_chars. }
  split; [exact H|]. unfold Hashing.generateKey. rewrite H; reflexivity.
Qed.

End NormalizeExtras.

(** ** [generateHash] and [generateKey] *)

Module HashExtras.
Import Hashing.
Local Open Scope Z_scope.

Lemma ToInt32_congr (a b : Z) : a mod 2 ^ 32 = b mod 2 ^ 32 -> ToInt32 a = ToInt32 b.
Proof. unfold ToInt32; intros ->; reflexivity. Qed.

Lemma ToInt32_mod (z : Z) : ToInt32 z mod 2 ^ 32 = z mod 2 ^ 32.
Proof.
  unfold ToInt32. pose proof (Z.mod_pos_bound z (2 ^ 32) ltac:(lia)).
  destruct (2 ^ 31 <=? z mod 2 ^ 32).
  - replace (z mod 2 ^ 32 - 2 ^ 32) with (z mod 2 ^ 32 + (-1) * 2 ^ 32) by ring.
    rewrite Z_mod_plus_full. apply Z.mod_mod; lia.
  - apply Z.mod_mod; lia.
Qed.

Lemma ToInt32_idem (z : Z) : ToInt32 (ToInt32 z) = ToInt32 z.
Proof. apply ToInt32_congr, ToInt32_mod. Qed.

Lemma ToInt32_repr (z : Z) : exists k, ToInt32 z = z + k * 2 ^ 32.
Proof.
  unfold ToInt32. rewrite Z.mod_eq by lia.
  destruct (2 ^ 31 <=? z - 2 ^ 32 * (z / 2 ^ 32)).
  - exists (- (z / 2 ^ 32) - 1); ring.
  - exists (- (z / 2 ^ 32)); ring.
Qed.

Lemma ToInt32_range (z : Z) : - 2 ^ 31 <= ToInt32 z < 2 ^ 31.
Proof.
  unfold ToInt32. pose proof (Z.mod_pos_bound z (2 ^ 32) ltac:(lia)).
  destruct (2 ^ 31 <=? z mod 2 ^ 32) eqn:E; [apply Z.leb_le in E|apply Z.leb_gt in E]; lia.
Qed.

Lemma hash_step_eq (h : Z) (c : ascii) :
  hash_step h c = ToInt32 (31 * h + Z.of_nat (Chars.code c)).
Proof.
  unfold hash_step. rewrite Z.land_diag.
  apply ToInt32_congr. rewrite Z.shiftl_mul_pow2 by lia.
  destruct (ToInt32_repr h) as [k1 ->]. destruct (ToInt32_repr ((h + k1 * 2 ^ 32) * 2 ^ 5)) as [k2 ->].
  replace ((h + k1 * 2 ^ 32) * 2 ^ 5 + k2 * 2 ^ 32 - h + Z.of_nat (Chars.code c))
    with (31 * h + Z.of_nat (Chars.code c) + (32 * k1 + k2) * 2 ^ 32) by ring.
  apply Z_mod_plus_full.
Qed.

Lemma fold_hash (l : list ascii) (a b : Z) :
  ToInt32 a = a -> a mod 2 ^ 32 = b mod 2 ^ 32 ->
  fold_left hash_step l a =
  ToInt32 (fold_left (fun h c => 31 * h + Z.of_nat (Chars.code c)) l b).
Proof.
  revert a b; induction l as [|c r IH]; intros a b Ha Hab; simpl.
  - rewrite <- Ha. apply ToInt32_congr, Hab.
  - apply IH.
    + rewrite hash_step_eq; apply ToInt32_idem.
    + rewrite hash_step_eq, ToInt32_mod, Zplus_mod, Zmult_mod, Hab, <- Zmult_mod, <- Zplus_mod.
      reflexivity.
Qed.

Lemma hash_poly31 (l : list ascii) : fold_left hash_step l 0 = ToInt32 (poly31 l).
Proof. apply fold_hash; reflexivity. Qed.

Lemma chars_app (s t : string) : Str.chars (s ++ t) = (Str.chars s ++ Str.chars t)%list.
Proof. induction s as [|c s IH]; simpl; [reflexivity|]. unfold Str.chars in *; simpl; rewrite IH; reflexivity. Qed.

Lemma length_of_chars (l : list ascii) : String.length (Str.of_chars l) = length l.
Proof. induction l as [|c l IH]; simpl; [reflexivity|]. rewrite IH; reflexivity. Qed.

Lemma digits36_length (fuel : nat) (n : Z) (acc : list ascii) (k : nat) :
  (1 <= k)%nat -> 0 <= n < 36 ^ Z.of_nat k ->
  (length (digits36 fuel n acc) <= k + length acc)%nat.
Proof.
  revert n acc k; induction fuel as [|f IH]; intros n acc k Hk Hn; simpl; [lia|].
  destruct (n <? 36) eqn:E; simpl; [lia|].
  apply Z.ltb_ge in E. destruct k as [|[|k]]; [lia| |].
  - simpl in Hn; lia.
  - specialize (IH (n / 36) (digit36 (n mod 36) :: acc) (S k) ltac:(lia)).
    simpl length in IH. enough (0 <= n / 36 < 36 ^ Z.of_nat (S k)) by (specialize (IH H); lia).
    split; [apply Z.div_pos; lia|]. apply Z.div_lt_upper_bound; [lia|].
    replace (36 * 36 ^ Z.of_nat (S k)) with (36 ^ Z.of_nat (S (S k))); [lia|].
    rewrite (Nat2Z.inj_succ (S k)), Z.pow_succ_r by lia. ring.
Qed.

Lemma digits36_nonempty (fuel : nat) (n : Z) (acc : list ascii) :
  digits36 (S fuel) n acc <> [].
Proof.
  revert n acc; induction fuel as [|f IH]; intros n acc; simpl;
    destruct (n <? 36); try discriminate. apply IH.
Qed.

Lemma digit36_class (d : Z) : 0 <= d < 36 ->
  Chars.is_digit (digit36 d) || Chars.is_lower (digit36 d) = true.
Proof.
  intros Hd. unfold digit36, Chars.is_digit, Chars.is_lower, Chars.code.
  destruct (d <? 10) eqn:E; [apply Z.ltb_lt in E|apply Z.ltb_ge in E];
    rewrite nat_ascii_embedding by lia; apply orb_true_iff;
    [left|right]; apply andb_true_intro; split; apply Nat.leb_le; lia.
Qed.

Lemma digits36_class (fuel : nat) (n : Z) (acc : list ascii) :
  0 <= n -> Forall (fun c => Chars.is_digit c || Chars.is_lower c = true) acc ->
  Forall (fun c => Chars.is_digit c || Chars.is_lower c = true) (digits36 fuel n acc).
Proof.
  revert n acc; induction fuel as [|f IH]; intros n acc Hn Hacc; simpl; [exact Hacc|].
  assert (Hd : Forall (fun c => Chars.is_digit c || Chars.is_lower c = true)
                 (digit36 (n mod 36) :: acc)).
  { constructor; [apply digit36_class, Z.mod_pos_bound; lia|exact Hacc]. }
  destruct (n <? 36); [exact Hd|]. apply IH; [apply Z.div_pos; lia|exact Hd].
Qed.

(** X3: the shift-and-subtract loop of [generateHash] computes the
    polynomial hash [sum code(c_i) * 31^(n-1-i)] reduced to a signed 32-bit
    integer; the result is the base-36 form of its absolute value. *)
Theorem generateHash_polynomial (text : string) :
  generateHash text =
  if String.eqb text "" then "" else toString36 (Z.abs (ToInt32 (poly31 (Str.chars text)))).
Proof. unfold generateHash. rewrite hash_poly31. reflexivity. Qed.

(** X4: two queries whose normalized forms differ only by ["az"] against
    ["b["] at the same place get the same cache key. *)
Theorem generateKey_collision (q1 q2 s t : string) :
  TextUtils.normalizeText q1 = s ++ "az" ++ t ->
  TextUtils.normalizeText q2 = s ++ "b[" ++ t ->
  generateKey q1 = generateKey q2.
Proof.
  intros H1 H2. unfold generateKey. rewrite H1, H2. f_equal.
  unfold generateHash. rewrite !hash_poly31.
  replace (String.eqb (s ++ "az" ++ t) "") with false by (destruct s; reflexivity).
  replace (String.eqb (s ++ "b[" ++ t) "") with false by (destruct s; reflexivity).
  unfold poly31. rewrite !chars_app, !fold_left_app.
  generalize (fold_left (fun h c => 31 * h + Z.of_nat (Chars.code c)) (Str.chars s) 0).
  intros h. cbn [Str.chars list_ascii_of_string fold_left].
  replace (31 * (31 * h + Z.of_nat (Chars.code "a")) + Z.of_nat (Chars.code "z"))
    with (31 * (31 * h + Z.of_nat (Chars.code "b")) + Z.of_nat (Chars.code "["));
    [reflexivity|].
  change (Z.of_nat (Chars.code "a")) with 97. change (Z.of_nat (Chars.code "z")) with 122.
  change (Z.of_nat (Chars.code "b")) with 98. change (Z.of_nat (Chars.code "[")) with 91.
  lia.
Qed.

Lemma generateKey_collision_witness :
  TextUtils.normalizeText "Jazz" = "j" ++ "az" ++ "z" /\
  TextUtils.normalizeText "jb[z" = "j" ++ "b[" ++ "z" /\
  generateKey "Jazz" = generateKey "jb[z".
Proof.
  split; [reflexivity|split; [reflexivity|]].
  apply (generateKey_collision "Jazz" "jb[z" "j" "z"); reflexivity.
Defined.

(** X5: [generateHash] is empty exactly on the empty text; otherwise it is
    at most six characters long, each a digit or a lower-case letter. *)
Theorem generateHash_format (text : string) :
  (generateHash text = "" <-> text = "") /\
  (String.length (generateHash text) <= 6)%nat /\
  Forall (fun c => Chars.is_digit c || Chars.is_lower c = true) (Str.chars (generateHash text)).
Proof.
  unfold generateHash. destruct (String.eqb text "") eqn:E.
  { apply String.eqb_eq in E. split; [tauto|split; [simpl; lia|constructor]]. }
  apply String.eqb_neq in E. unfold toString36.
  set (n := Z.abs (fold_left hash_step (Str.chars text) 0)).
  assert (Hn : 0 <= n < 36 ^ Z.of_nat 6).
  { unfold n. rewrite hash_poly31. pose proof (ToInt32_range (poly31 (Str.chars text))).
    simpl; lia. }
  split; [|split].
  - split; [|contradiction]. intros H.
    apply (f_equal Str.chars) in H. rewrite StrFacts.chars_of_chars in H.
    exfalso; exact (digits36_nonempty _ _ _ H).
  - rewrite length_of_chars.
    pose proof (digits36_length (S (Z.to_nat (Z.log2 n))) n [] 6 ltac:(lia) Hn) as H.
    rewrite Nat.add_0_r in H. exact H.
  - rewrite StrFacts.chars_of_chars. apply digits36_class; [lia|constructor].
Qed.

End HashExtras.

(** ** [truncateText] and [stripTags] *)

Module TextExtras.
Import Chars Str StrFacts.
Local Open Scope nat_scope.
Local Open Scope list_scope.

Lemma length_chars (s : string) : String.length s = length (chars s).
Proof. induction s as [|c s IH]; simpl; [reflexivity|]. rewrite IH; reflexivity. Qed.

Lemma length_append (s t : string) : String.length (s ++ t)%string = String.length s + String.length t.
Proof. induction s as [|c s IH]; simpl; [reflexivity|]. rewrite IH; reflexivity. Qed.

Lemma length_substring0 (n : nat) (s : string) : String.length (substring 0 n s) <= n.
Proof.
  revert s; induction n as [|n IH]; intros s; simpl; [destruct s; simpl; lia|].
  destruct s as [|c s]; simpl; [lia|]. specialize (IH s). lia.
Qed.

Lemma trim_infix (s : string) :
  exists p q, chars s = p ++ chars (trim s) ++ q.
Proof.
  unfold trim. rewrite chars_of_chars.
  destruct (NormalizeExtras.trim_parts (chars s)) as [H _]; exact H.
Qed.

Lemma length_trim (s : string) : String.length (trim s) <= String.length s.
Proof.
  destruct (trim_infix s) as [p [q H]]. rewrite !length_chars, H, !length_app. lia.
Qed.

Lemma trim_trim (s : string) : trim (trim s) = trim s.
Proof.
  unfold trim. rewrite chars_of_chars.
  destruct (NormalizeExtras.trim_parts (chars s)) as [_ [Hh Hl]].
  set (T := rev (drop_spaces (rev (drop_spaces (chars s))))) in *.
  rewrite (drop_spaces_id T Hh), (drop_spaces_id (rev T)), rev_involutive; [reflexivity|].
  intros c r Hr. apply (Hl c (rev r)). rewrite <- (rev_involutive T), Hr; reflexivity.
Qed.

(** No ['<'] with a ['>'] somewhere after it: nothing [/<[^>]*>/] matches. *)
Definition no_tag (l : list ascii) : Prop :=
  forall l1 l2, l = l1 ++ "<"%char :: l2 -> ~ In ">"%char l2.

Lemma after_gt_none (l : list ascii) : DocumentParser.after_gt l = None <-> ~ In ">"%char l.
Proof.
  induction l as [|c r IH]; simpl; [tauto|].
  destruct (Ascii.eqb c ">") eqn:E.
  - apply Ascii.eqb_eq in E; subst. split; [discriminate|tauto].
  - apply Ascii.eqb_neq in E. rewrite IH. intuition.
Qed.

Lemma after_gt_suffix (l r : list ascii) : DocumentParser.after_gt l = Some r -> length r < length l.
Proof.
  induction l as [|c l IH]; simpl; [discriminate|].
  destruct (Ascii.eqb c ">"); [intros H; inversion H; lia|]. intros H; specialize (IH H); lia.
Qed.

Lemma no_tag_cons (c : ascii) (l : list ascii) :
  c <> "<"%char -> no_tag l -> no_tag (c :: l).
Proof.
  intros Hc H [|x l1] l2 E; simpl in E; inversion E; subst; [contradiction|].
  apply (H l1 l2 eq_refl).
Qed.

Lemma no_tag_infix (p l q : list ascii) : no_tag (p ++ l ++ q) -> no_tag l.
Proof.
  intros H l1 l2 E Hin. apply (H (p ++ l1) (l2 ++ q)).
  - rewrite E, <- !app_assoc; reflexivity.
  - apply in_or_app; left; exact Hin.
Qed.

Lemma strip_tags_no_tag (fuel : nat) (l : list ascii) :
  length l <= fuel -> no_tag (DocumentParser.strip_tags_aux fuel l).
Proof.
  revert l; induction fuel as [|f IH]; intros l Hl.
  - destruct l; [|simpl in Hl; lia]. intros [|] ? E; discriminate.
  - destruct l as [|c r]; simpl.
    + intros [|] ? E; discriminate.
    + destruct (Ascii.eqb c "<") eqn:E.
      * apply Ascii.eqb_eq in E; subst.
        destruct (DocumentParser.after_gt r) as [rest|] eqn:A.
        -- apply IH. apply after_gt_suffix in A. simpl in Hl; lia.
        -- intros [|x l1] l2 E'; simpl in E'; inversion E'; subst.
           ++ apply after_gt_none; exact A.
           ++ intros Hin. apply after_gt_none in A. apply A.
              apply in_or_app; right; right; exact Hin.
      * apply Ascii.eqb_neq in E. apply no_tag_cons; [exact E|]. apply IH. simpl in Hl; lia.
Qed.

Lemma strip_tags_id (fuel : nat) (l : list ascii) :
  no_tag l -> DocumentParser.strip_tags_aux fuel l = l.
Proof.
  revert l; induction fuel as [|f IH]; intros l H; [reflexivity|].
  destruct l as [|c r]; simpl; [reflexivity|].
  destruct (Ascii.eqb c "<") eqn:E.
  - apply Ascii.eqb_eq in E; subst.
    assert (A : DocumentParser.after_gt r = None) by (apply after_gt_none, (H [] r eq_refl)).
    rewrite A; reflexivity.
  - f_equal. apply IH. intros l1 l2 E'. apply (H (c :: l1) l2). rewrite E'; reflexivity.
Qed.

Lemma substring0_prefix (n : nat) (s : string) :
  exists q, chars s = chars (substring 0 n s) ++ q.
Proof.
  revert s; induction n as [|n IH]; intros s.
  - exists (chars s); destruct s; reflexivity.
  - destruct s as [|c s]; [exists []; reflexivity|].
    destruct (IH s) as [q Hq]. exists q. simpl. unfold chars in *; simpl; rewrite Hq; reflexivity.
Qed.

Lemma truncateText_length (text : string) (n : nat) :
  String.length (Tools.truncateText text n) <= n + 3.
Proof.
  unfold Tools.truncateText.
  destruct (String.eqb text "") eqn:E; [simpl; lia|].
  destruct (String.length text <=? n) eqn:L; [apply Nat.leb_le in L; lia|].
  rewrite length_append. simpl.
  pose proof (length_trim (substring 0 n text)). pose proof (length_substring0 n text). lia.
Qed.

(** X6: [truncateText text n] is at most [n + 3] characters long; a text of
    at most [n] characters comes back unchanged; a longer one becomes a
    piece of the text of at most [n] characters followed by ["..."]. *)
Theorem truncateText_bounds (text : string) (n : nat) :
  String.length (Tools.truncateText text n) <= n + 3 /\
  (String.length text <= n -> Tools.truncateText text n = text) /\
  (n < String.length text ->
   exists p, Tools.truncateText text n = (p ++ "...")%string /\ String.length p <= n /\
             exists a b, chars text = a ++ chars p ++ b).
Proof.
  unfold Tools.truncateText.
  destruct (String.eqb text "") eqn:E.
  { apply String.eqb_eq in E; subst; simpl. split; [lia|split; [reflexivity|intros H; lia]]. }
  destruct (String.length text <=? n) eqn:L.
  - apply Nat.leb_le in L. split; [lia|split; [reflexivity|intros; lia]].
  - apply Nat.leb_gt in L.
    assert (Hp : String.length (trim (substring 0 n text)) <= n).
    { eapply Nat.le_trans; [apply length_trim|apply length_substring0]. }
    split; [|split].
    + rewrite length_append; simpl; lia.
    + intros; lia.
    + intros _. exists (trim (substring 0 n text)). split; [reflexivity|split; [exact Hp|]].
      destruct (substring0_prefix n text) as [q Hq]. destruct (trim_infix (substring 0 n text)) as [a [b Hab]].
      exists a, (b ++ q). rewrite Hq, Hab, <- !app_assoc; reflexivity.
Qed.

(** X7: the result of [stripTags] has no ['<'] with a ['>'] after it, so
    nothing is left for [/<[^>]*>/]; applying [stripTags] again changes
    nothing. *)
Theorem stripTags_clean (text : string) :
  no_tag (chars (DocumentParser.stripTags text)) /\
  DocumentParser.stripTags (DocumentParser.stripTags text) = DocumentParser.stripTags text.
Proof.
  assert (H : no_tag (chars (DocumentParser.stripTags text))).
  { unfold DocumentParser.stripTags.
    destruct (trim_infix (of_chars (DocumentParser.strip_tags_aux (String.length text) (chars text))))
      as [p [q Hpq]].
    rewrite chars_of_chars in Hpq. apply (no_tag_infix p _ q). rewrite <- Hpq.
    apply strip_tags_no_tag. rewrite length_chars; lia. }
  split; [exact H|].
  unfold DocumentParser.stripTags at 1. rewrite strip_tags_id by exact H.
  rewrite of_chars_chars. unfold DocumentParser.stripTags; apply trim_trim.
Qed.

End TextExtras.

(** ** [calculateSimilarity] *)

Module SimilarityExtras.
Import TextUtils TextUtilsFacts.

(** X8: [calculateSimilarity] always lies between 0 and 1. *)
Theorem calculateSimilarity_range (text1 text2 : string) :
  0 <= calculateSimilarity text1 text2 <= 1.
Proof.
  unfold calculateSimilarity.
  destruct (String.eqb text1 "" || String.eqb text2 "");
    [split; [apply Qle_refl|discriminate]|].
  destruct (set_of (extractKeywords text1)) as [|w1 r1] eqn:E1;
    [split; [apply Qle_refl|discriminate]|].
  destruct (set_of (extractKeywords text2)) as [|w2 r2] eqn:E2;
    [split; [apply Qle_refl|discriminate]|].
  set (inter := set_of (filter (set_has (w2 :: r2)) (w1 :: r1))).
  set (union := set_of ((w1 :: r1) ++ w2 :: r2)).
  assert (Hle : (length inter <= length union)%nat).
  { apply NoDup_incl_length; [apply set_of_NoDup|].
    intros x. unfold inter, union. rewrite !set_of_In, filter_In. intros [H _].
    apply in_or_app; left; exact H. }
  assert (Hpos : (0 < length union)%nat).
  { destruct union as [|u us] eqn:Eu; [|simpl; lia].
    assert (H : In w1 union) by (unfold union; rewrite set_of_In; left; reflexivity).
    rewrite Eu in H; destruct H. }
  assert (Hq : 0 < inject_Z (Z.of_nat (length union))).
  { change (inject_Z 0 < inject_Z (Z.of_nat (length union))). rewrite <- Zlt_Qlt. lia. }
  split.
  - apply Qle_shift_div_l; [exact Hq|]. rewrite Qmult_0_l.
    change (inject_Z 0 <= inject_Z (Z.of_nat (length inter))). rewrite <- Zle_Qle. lia.
  - apply Qle_shift_div_r; [exact Hq|]. rewrite Qmult_1_l, <- Zle_Qle. lia.
Qed.

End SimilarityExtras.

(** ** [extractRelevantSentences] *)

Module SentenceExtras.
Import JS Sentences TextUtils Search SearchFacts.
Local Open Scope nat_scope.

Lemma fold_count (g : string -> bool) (l : list string) (a : nat) :
  fold_left (fun count term => count + (if g term then 1 else 0)) l a = a + length (filter g l).
Proof.
  revert a; induction l as [|t r IH]; intros a; simpl; [lia|].
  rewrite IH. destruct (g t); simpl; lia.
Qed.

Lemma matchCount_filter (s : string) (terms : list string) :
  matchCount s terms =
  length (filter (fun term => includes (Str.chars (normalizeText s))
                                       (Str.chars (normalizeText term))) terms).
Proof.
  unfold matchCount.
  exact (fold_count (fun term => includes (Str.chars (normalizeText s))
                                          (Str.chars (normalizeText term))) terms 0).
Qed.

Lemma firstn_slice {A} (l : list A) (n : nat) :
  slice0 l (NFin (inject_Z (Z.of_nat n))) = firstn n l.
Proof.
  unfold slice0. rewrite slice_end_nat.
  destruct (Nat.le_ge_cases n (length l)).
  - rewrite Nat.min_l by exact H; reflexivity.
  - rewrite Nat.min_r by exact H. rewrite !firstn_all2 by lia; reflexivity.
Qed.

Lemma includes_nil (hay : list ascii) : includes hay [] = true.
Proof. destruct hay; reflexivity. Qed.

Lemma sort_desc_const (l : list (string * nat)) (k : nat) :
  Forall (fun p => snd p = k) l -> sort_desc l = l.
Proof.
  induction l as [|x r IH]; intros H; [reflexivity|].
  apply Forall_cons_iff in H as [Hx Hr]. simpl. rewrite (IH Hr).
  destruct r as [|y r]; [reflexivity|]. simpl.
  apply Forall_cons_iff in Hr as [Hy _]. rewrite Hy, Hx, Nat.leb_refl. reflexivity.
Qed.

(** X9: [extractRelevantSentences text terms n] returns at most [n]
    sentences; each is non-empty, is the trimmed form of a piece of [text]
    between the stops [.], [!], [?], and that piece's normalized form
    contains the normalized form of one of the terms. *)
Theorem extractRelevantSentences_sound (text : string) (terms : list string) (n : nat) :
  let out := extractRelevantSentences text terms (NFin (inject_Z (Z.of_nat n))) in
  length out <= n /\
  forall s, In s out ->
    s <> "" /\
    exists piece, In piece (split_stops text) /\ s = Str.trim piece /\
      exists term, In term terms /\
        includes (Str.chars (normalizeText piece)) (Str.chars (normalizeText term)) = true.
Proof.
  intros out. unfold out, extractRelevantSentences.
  destruct (String.eqb text ""); [split; [simpl; lia|intros s []]|].
  destruct terms as [|t0 ts]; [split; [simpl; lia|intros s []]|].
  rewrite firstn_slice. split.
  - rewrite length_map. apply firstn_le_length.
  - intros s Hs. apply in_map_iff in Hs as [[s' c] [Es Hp]]. simpl in Es; subst s'.
    assert (Hp' : In (s, c) (sort_desc (filter (fun p => 0 <? snd p)
                  (map (fun s0 => (Str.trim s0, matchCount s0 (t0 :: ts)))
                     (filter (fun s0 => 0 <? String.length (Str.trim s0)) (split_stops text))))))
      by (rewrite <- (firstn_skipn n); apply in_or_app; left; exact Hp).
    clear Hp; rename Hp' into Hp.
    apply (Permutation_in _ (sort_desc_perm _)) in Hp.
    apply filter_In in Hp as [Hp Hc]. simpl in Hc.
    apply in_map_iff in Hp as [piece [Ep Hpiece]]. inversion Ep; subst s c.
    apply filter_In in Hpiece as [Hpiece Hlen].
    split.
    + intros E. rewrite E in Hlen. discriminate.
    + exists piece. split; [exact Hpiece|split; [reflexivity|]].
      rewrite matchCount_filter in Hc.
      destruct (filter _ (t0 :: ts)) as [|term rest] eqn:F; [discriminate|].
      assert (Ht : In term (filter (fun term => includes (Str.chars (normalizeText piece))
                                       (Str.chars (normalizeText term))) (t0 :: ts)))
        by (rewrite F; left; reflexivity).
      apply filter_In in Ht. exists term; exact Ht.
Qed.

(** X10: when every search term normalizes to the empty string (blank
    terms such as [" "]), every sentence counts as relevant: the result is
    the first [n] non-blank trimmed sentences in their original order. *)
Theorem extractRelevantSentences_blank_terms (text : string) (terms : list string) (n : nat) :
  terms <> [] -> Forall (fun t => normalizeText t = "") terms ->
  extractRelevantSentences text terms (NFin (inject_Z (Z.of_nat n))) =
  firstn n (map Str.trim (filter (fun s => 0 <? String.length (Str.trim s)) (split_stops text))).
Proof.
  intros Hne Hblank. unfold extractRelevantSentences.
  destruct (String.eqb text "") eqn:E.
  { apply String.eqb_eq in E; subst. destruct n; reflexivity. }
  destruct terms as [|t0 ts]; [contradiction|].
  assert (Hmc : forall s, matchCount s (t0 :: ts) = length (t0 :: ts)).
  { intros s. rewrite matchCount_filter. f_equal. apply forallb_filter_id.
    apply forallb_forall. intros t Ht. rewrite Forall_forall in Hblank.
    rewrite (Hblank t Ht). apply includes_nil. }
  rewrite firstn_slice.
  set (sentences := filter (fun s => 0 <? String.length (Str.trim s)) (split_stops text)).
  assert (Hmap : map (fun s => (Str.trim s, matchCount s (t0 :: ts))) sentences =
                 map (fun s => (Str.trim s, length (t0 :: ts))) sentences)
    by (apply map_ext; intros s; rewrite Hmc; reflexivity).
  rewrite Hmap, forallb_filter_id.
  2:{ apply forallb_forall. intros p Hp. apply in_map_iff in Hp as [s [<- _]]. reflexivity. }
  rewrite (sort_desc_const _ (length (t0 :: ts))).
  2:{ apply Forall_forall. intros p Hp. apply in_map_iff in Hp as [s [<- _]]. reflexivity. }
  rewrite <- firstn_map, map_map. reflexivity.
Qed.

Lemma extractRelevantSentences_blank_terms_witness :
  [" "] <> [] /\ Forall (fun t => normalizeText t = "") [" "] /\
  extractRelevantSentences "Farm aid. Tax cuts!" [" "] (NFin (inject_Z (Z.of_nat 5))) =
  ["Farm aid"; "Tax cuts"].
Proof.
  assert (H1 : [" "] <> []) by discriminate.
  assert (H2 : Forall (fun t => normalizeText t = "") [" "]) by (repeat constructor).
  split; [exact H1|split; [exact H2|]].
  rewrite (extractRelevantSentences_blank_terms "Farm aid. Tax cuts!" [" "] 5 H1 H2).
  reflexivity.
Defined.

End SentenceExtras.

(** ** The section map and the search index *)

Module SectionExtras.
Import JS DocumentParser Search Tools ParserFacts SearchFacts.
Local Open Scope nat_scope.

Section PssInv.
Variable Inv : JSObj.obj Section -> Prop.
Hypothesis Hset : forall secs v pid lvl sec, Inv secs ->
  extractSectionDataSimple v pid lvl = Some sec -> Inv (JSObj.set secs (sec_id sec) sec).

Definition pss_inv (v : xval) : Prop :=
  forall secs pid lvl, Inv secs -> Inv (processSectionsSimple v secs pid lvl).

Lemma process_items_inv op pid lvl (items : list xval) :
  Forall pss_inv items ->
  forall secs, Inv secs -> Inv (process_items processSectionsSimple op pid lvl items secs).
Proof.
  induction items as [|it rest IH]; intros HF secs H; simpl; [exact H|].
  apply Forall_cons_iff in HF as [Hit Hrest]. apply IH; [exact Hrest|].
  destruct it as [s|ps]; [exact H|]. destruct (node_id (XObj ps)); apply Hit; exact H.
Qed.

Lemma process_props_inv op pid lvl (ps : list (string * xprop)) :
  Forall (fun kp => match snd kp with PArr items => Forall pss_inv items | _ => True end) ps ->
  forall secs, Inv secs -> Inv (process_props processSectionsSimple op pid lvl ps secs).
Proof.
  induction ps as [|[k p] r IH]; intros HF secs H; simpl; [exact H|].
  apply Forall_cons_iff in HF as [Hkp Hr]. simpl in Hkp.
  destruct p as [a|t|items]; apply IH; auto. apply process_items_inv; auto.
Qed.

Lemma processSectionsSimple_inv (v : xval) : pss_inv v.
Proof.
  induction v as [s|ps HF] using xval_ind'; intros secs pid lvl H; [exact H|].
  cbn [processSectionsSimple].
  destruct (node_id (XObj ps)) as [i|].
  - destruct (extractSectionDataSimple (XObj ps) pid lvl) as [sec|] eqn:E;
      apply process_props_inv; eauto.
  - apply process_props_inv; auto.
Qed.

End PssInv.

(** Distinct keys, each the identifier of the section stored under it. *)
Definition keyed_by_id (secs : JSObj.obj Section) : Prop :=
  NoDup (JSObj.keys secs) /\ forall k s, In (k, s) secs -> sec_id s = k.

Lemma In_replace_own_key {A} (o : JSObj.obj A) k v k' v' :
  In (k', v') (JSObj.replace_own o k v) -> In (k', v') o \/ (k' = k /\ v' = v).
Proof.
  induction o as [|[k0 v0] r IH]; simpl; [tauto|].
  destruct (String.eqb k k0) eqn:E; simpl.
  - apply String.eqb_eq in E; subst k0.
    intros [H | H]; [inversion H; subst; right; auto | left; right; exact H].
  - intros [H | H]; [left; left; exact H|]. destruct (IH H); [left; right |]; tauto.
Qed.

Lemma get_own_None {A} (o : JSObj.obj A) k : JSObj.get_own o k = None -> ~ In k (JSObj.keys o).
Proof.
  induction o as [|[k' v'] r IH]; simpl; [tauto|].
  destruct (String.eqb k k') eqn:E; [discriminate|]. apply String.eqb_neq in E.
  intros H [H' | H']; [congruence | exact (IH H H')].
Qed.

Lemma get_own_In_nodup {A} (o : JSObj.obj A) k v :
  NoDup (JSObj.keys o) -> In (k, v) o -> JSObj.get_own o k = Some v.
Proof.
  induction o as [|[k' v'] r IH]; simpl; [tauto|]. intros Hn Hin.
  inversion Hn as [|? ? Hk Hr]; subst.
  destruct Hin as [E | Hin].
  - inversion E; subst. rewrite String.eqb_refl; reflexivity.
  - destruct (String.eqb k k') eqn:E.
    + apply String.eqb_eq in E; subst. exfalso; apply Hk.
      apply (in_map fst) in Hin; exact Hin.
    + exact (IH Hr Hin).
Qed.

Lemma get_own_pair {A} (o : JSObj.obj A) k v : JSObj.get_own o k = Some v -> In (k, v) o.
Proof.
  induction o as [|[k' v'] r IH]; simpl; [discriminate|].
  destruct (String.eqb k k') eqn:E.
  - apply String.eqb_eq in E; subst. intros H; injection H as ->. left; reflexivity.
  - intros H; right; exact (IH H).
Qed.

Lemma set_keyed (secs : JSObj.obj Section) (sec : Section) :
  keyed_by_id secs -> keyed_by_id (JSObj.set secs (sec_id sec) sec).
Proof.
  intros [Hn Hk]. unfold JSObj.set.
  destruct (String.eqb (sec_id sec) "__proto__"); [split; assumption|].
  destruct (JSObj.get_own secs (sec_id sec)) as [old|] eqn:G.
  - split; [rewrite keys_replace_own; exact Hn|].
    intros k s Hin. apply In_replace_own_key in Hin as [Hin | [-> ->]]; [exact (Hk k s Hin)|reflexivity].
  - split.
    + unfold JSObj.keys. rewrite map_app. simpl. apply NoDup_app; [exact Hn|repeat constructor; intros []|].
      intros x Hx [<- | []]. exact (get_own_None _ _ G Hx).
    + intros k s Hin. apply in_app_iff in Hin as [Hin | [E | []]]; [exact (Hk k s Hin)|].
      inversion E; reflexivity.
Qed.

Lemma build_sections_keyed (parsedXml : xval) : keyed_by_id (build_sections parsedXml).
Proof.
  apply (processSectionsSimple_inv keyed_by_id (fun secs _ _ _ sec H _ => set_keyed secs sec H)).
  split; [constructor|intros k s []].
Qed.

(** X11: in the section map built from any parsed document, every section
    is stored under its own identifier, and no identifier is stored twice. *)
Theorem build_sections_keyed_by_id (parsedXml : xval) :
  NoDup (JSObj.keys (build_sections parsedXml)) /\
  forall k s, JSObj.get_own (build_sections parsedXml) k = Some s -> sec_id s = k.
Proof.
  destruct (build_sections_keyed parsedXml) as [Hn Hk]. split; [exact Hn|].
  intros k s G. exact (Hk k s (get_own_pair _ _ _ G)).
Qed.

End SectionExtras.

Module IndexExtras.
Import JS DocumentParser Search Tools ParserFacts SearchFacts SectionExtras.
Local Open Scope nat_scope.
Local Open Scope list_scope.

(** The keywords [buildSearchIndex] indexes a section under. *)
Definition keywords_of (s : Section) : list string :=
  TextUtils.extractKeywords (sec_title s) ++ TextUtils.extractKeywords (sec_fullText s).

Definition idx_has (idx : index_obj) (kw id : string) : Prop :=
  exists l, JSObj.get_own idx kw = Some l /\ In id l.

Lemma insert_by_index_perm {A} (x : N * (string * A)) l :
  Permutation (JSObj.insert_by_index x l) (x :: l).
Proof.
  induction l as [|y r IH]; simpl; [reflexivity|].
  destruct (fst x <? fst y)%N; [reflexivity|]. rewrite IH. apply perm_swap.
Qed.

Lemma index_keyed_In {A} (o : JSObj.obj A) n kv : In (n, kv) (JSObj.index_keyed o) -> In kv o.
Proof.
  induction o as [|[k v] r IH]; simpl; [tauto|].
  destruct (JSObj.array_index k).
  - intros H. apply (Permutation_in _ (insert_by_index_perm _ _)) in H.
    destruct H as [H | H]; [inversion H; left; reflexivity|right; exact (IH H)].
  - intros H; right; exact (IH H).
Qed.

Lemma index_keyed_complete {A} (o : JSObj.obj A) kv n :
  In kv o -> JSObj.array_index (fst kv) = Some n -> In (n, kv) (JSObj.index_keyed o).
Proof.
  induction o as [|[k v] r IH]; simpl; [tauto|]. intros [E | H] Hn.
  - subst kv. simpl in Hn. rewrite Hn.
    apply (Permutation_in _ (Permutation_sym (insert_by_index_perm _ _))). left; reflexivity.
  - specialize (IH H Hn). destruct (JSObj.array_index k); [|exact IH].
    apply (Permutation_in _ (Permutation_sym (insert_by_index_perm _ _))). right; exact IH.
Qed.

Lemma entries_In {A} (o : JSObj.obj A) kv : In kv (JSObj.entries o) <-> In kv o.
Proof.
  unfold JSObj.entries. rewrite in_app_iff, filter_In. split.
  - intros [H | [H _]]; [|exact H].
    apply in_map_iff in H as [[n kv'] [E H]]. simpl in E; subst kv'. exact (index_keyed_In _ _ _ H).
  - intros H. destruct (JSObj.array_index (fst kv)) as [n|] eqn:E.
    + left. apply (in_map snd (JSObj.index_keyed o) (n, kv)). exact (index_keyed_complete _ _ _ H E).
    + right. split; [exact H|reflexivity].
Qed.

Lemma fold_outcome_inv_in {A B} (Inv : A -> Prop) (f : A -> B -> outcome A) (l : list B) :
  (forall a x a', In x l -> Inv a -> f a x = Ok a' -> Inv a') ->
  forall a a', Inv a -> fold_outcome f l a = Ok a' -> Inv a'.
Proof.
  induction l as [|x r IH]; simpl; intros Hstep a a' Ha H.
  - injection H as <-. exact Ha.
  - destruct (f a x) as [b| |] eqn:E; simpl in H; try discriminate.
    apply (IH (fun a0 x0 a1 Hin => Hstep a0 x0 a1 (or_intror Hin)) b a'); [|exact H].
    exact (Hstep a x b (or_introl eq_refl) Ha E).
Qed.

Lemma fold_collect {A B} (Inv : A -> Prop) (Q : B -> A -> Prop) (f : A -> B -> outcome A)
  (l : list B) :
  (forall a x a', Inv a -> f a x = Ok a' -> Inv a') ->
  (forall a x a', Inv a -> f a x = Ok a' -> Q x a') ->
  (forall a x a' y, Inv a -> Q y a -> f a x = Ok a' -> Q y a') ->
  forall a a', Inv a -> fold_outcome f l a = Ok a' -> forall y, In y l -> Q y a'.
Proof.
  intros Hinv Hnew Hkeep. induction l as [|x r IH]; simpl; intros a a' Ha H y Hy; [destruct Hy|].
  destruct (f a x) as [b| |] eqn:E; simpl in H; try discriminate.
  destruct Hy as [<- | Hy]; [|exact (IH b a' (Hinv _ _ _ Ha E) H y Hy)].
  refine (proj2 (fold_outcome_inv (fun a0 => Inv a0 /\ Q x a0) f r _ b a' _ H)).
  - intros a0 x0 a1 [Ha0 Hq] Hf. split; [exact (Hinv _ _ _ Ha0 Hf)|exact (Hkeep _ _ _ _ Ha0 Hq Hf)].
  - split; [exact (Hinv _ _ _ Ha E)|exact (Hnew _ _ _ Ha E)].
Qed.

Definition ok_or_throw {A} (msg : string) (o : outcome A) : Prop :=
  match o with Ok _ => True | Throw m => m = msg | Unspecified _ => False end.

Lemma fold_ok_or_throw {A B} (f : A -> B -> outcome A) (l : list B) msg :
  (forall a x, ok_or_throw msg (f a x)) -> forall a, ok_or_throw msg (fold_outcome f l a).
Proof.
  intros Hf. induction l as [|x r IH]; intros a; simpl; [exact I|].
  specialize (Hf a x). destruct (f a x); simpl in *; auto.
Qed.

Lemma fold_throw {A B} (Inv : A -> Prop) (f : A -> B -> outcome A) (l : list B) x0 msg :
  (forall a x, ok_or_throw msg (f a x)) ->
  (forall a x a', Inv a -> f a x = Ok a' -> Inv a') ->
  (forall a, Inv a -> f a x0 = Throw msg) ->
  In x0 l -> forall a, Inv a -> fold_outcome f l a = Throw msg.
Proof.
  intros Hm Hstep Hx0. induction l as [|x r IH]; simpl; intros Hin a Ha; [destruct Hin|].
  pose proof (Hm a x) as Hax.
  destruct (f a x) as [b|m|w] eqn:E; simpl in Hax |- *.
  - destruct Hin as [<- | Hin]; [rewrite (Hx0 a Ha) in E; discriminate|].
    exact (IH Hin b (Hstep _ _ _ Ha E)).
  - subst; reflexivity.
  - destruct Hax.
Qed.

Definition type_error : string := "TypeError: searchIndex[keyword].includes is not a function".

Lemma index_keyword_ok_or_throw sid idx kw : ok_or_throw type_error (index_keyword sid idx kw).
Proof.
  unfold index_keyword.
  set (idx1 := match JSObj.lookup idx kw with
                | JSObj.LUndef => JSObj.set idx kw []
                | _ => idx end).
  clearbody idx1.
  destruct (JSObj.lookup idx1 kw) as [l| |];
    [destruct (existsb (String.eqb sid) l)| |]; simpl; exact I || reflexivity.
Qed.

(** [searchIndex] after [if (!searchIndex[keyword]) searchIndex[keyword] = [];] *)
Definition idx_prep (idx : index_obj) (kw : string) : index_obj :=
  match JSObj.lookup idx kw with
  | JSObj.LUndef => JSObj.set idx kw []
  | _ => idx
  end.

Lemma index_keyword_unfold sid idx kw :
  index_keyword sid idx kw =
  match JSObj.lookup (idx_prep idx kw) kw with
  | JSObj.LOwn l =>
      if existsb (String.eqb sid) l then Ok (idx_prep idx kw)
      else Ok (JSObj.set (idx_prep idx kw) kw (l ++ [sid]))
  | _ => Throw type_error
  end.
Proof. reflexivity. Qed.

Lemma index_keyword_cases sid idx kw idx' :
  index_keyword sid idx kw = Ok idx' ->
  exists l0, JSObj.get_own (idx_prep idx kw) kw = Some l0 /\
    (idx' = idx_prep idx kw /\ In sid l0 \/
     idx' = JSObj.set (idx_prep idx kw) kw (l0 ++ [sid]) /\ ~ In sid l0).
Proof.
  intros H. rewrite index_keyword_unfold in H. unfold JSObj.lookup at 1 in H.
  destruct (JSObj.get_own (idx_prep idx kw) kw) as [l0|] eqn:G.
  - exists l0; split; [reflexivity|].
    destruct (existsb (String.eqb sid) l0) eqn:M; injection H as <-.
    + left; split; [reflexivity|]. apply existsb_eqb_In; exact M.
    + right; split; [reflexivity|]. apply existsb_eqb_false; exact M.
  - destruct (JSObj.is_proto_member kw); discriminate.
Qed.

Lemma get_own_prep idx kw k :
  JSObj.get_own (idx_prep idx kw) k =
  match JSObj.lookup idx kw with
  | JSObj.LUndef => if String.eqb kw "__proto__" then JSObj.get_own idx k
                    else if String.eqb k kw then Some [] else JSObj.get_own idx k
  | _ => JSObj.get_own idx k
  end.
Proof. unfold idx_prep. destruct (JSObj.lookup idx kw); [reflexivity|reflexivity|apply get_own_set]. Qed.

Definition idx_sound (secs : JSObj.obj Section) (idx : index_obj) : Prop :=
  forall kw id, idx_has idx kw id -> exists s, In (id, s) secs /\ In kw (keywords_of s).

(** No own property named after an [Object.prototype] member. *)
Definition no_proto_keys (idx : index_obj) : Prop :=
  forall k, JSObj.is_proto_member k = true -> JSObj.get_own idx k = None.

Lemma lookup_undef {A} (o : JSObj.obj A) k :
  JSObj.lookup o k = JSObj.LUndef -> JSObj.get_own o k = None /\ JSObj.is_proto_member k = false.
Proof.
  unfold JSObj.lookup. destruct (JSObj.get_own o k); [discriminate|].
  destruct (JSObj.is_proto_member k); [discriminate|]. auto.
Qed.

Lemma index_keyword_sound secs sid sec idx kw idx' :
  In (sid, sec) secs -> In kw (keywords_of sec) -> idx_sound secs idx ->
  index_keyword sid idx kw = Ok idx' -> idx_sound secs idx'.
Proof.
  intros Hs Hkw Hi H.
  assert (Hp : idx_sound secs (idx_prep idx kw)).
  { intros k id [l [G Hin]]. rewrite get_own_prep in G.
    destruct (JSObj.lookup idx kw); [apply Hi; exists l; auto|apply Hi; exists l; auto|].
    destruct (String.eqb kw "__proto__"); [apply Hi; exists l; auto|].
    destruct (String.eqb k kw); [injection G as <-; destruct Hin|apply Hi; exists l; auto]. }
  destruct (index_keyword_cases _ _ _ _ H) as [l0 [G0 [[-> _] | [-> _]]]]; [exact Hp|].
  intros k id [l [G Hin]]. rewrite get_own_set in G.
  destruct (String.eqb kw "__proto__"); [apply Hp; exists l; auto|].
  destruct (String.eqb k kw) eqn:E.
  - apply String.eqb_eq in E; subst k. injection G as <-. apply in_app_iff in Hin as [Hin | [<- | []]].
    + apply Hp; exists l0; auto.
    + exists sec; auto.
  - apply Hp; exists l; auto.
Qed.

Lemma index_keyword_no_proto sid idx kw idx' :
  no_proto_keys idx -> index_keyword sid idx kw = Ok idx' -> no_proto_keys idx'.
Proof.
  intros Hi H.
  assert (Hp : no_proto_keys (idx_prep idx kw)).
  { intros k Hk. rewrite get_own_prep.
    destruct (JSObj.lookup idx kw) eqn:L; [apply Hi; exact Hk|apply Hi; exact Hk|].
    apply lookup_undef in L as [_ Lp].
    destruct (String.eqb kw "__proto__"); [apply Hi; exact Hk|].
    destruct (String.eqb k kw) eqn:E; [|apply Hi; exact Hk].
    apply String.eqb_eq in E; subst k. congruence. }
  destruct (index_keyword_cases _ _ _ _ H) as [l0 [G0 [[-> _] | [-> _]]]]; [exact Hp|].
  intros k Hk. rewrite get_own_set.
  destruct (String.eqb kw "__proto__"); [apply Hp; exact Hk|].
  destruct (String.eqb k kw) eqn:E; [|apply Hp; exact Hk].
  apply String.eqb_eq in E; subst k. rewrite (Hp kw Hk) in G0. discriminate.
Qed.

Lemma index_keyword_proto sid idx kw :
  no_proto_keys idx -> JSObj.is_proto_member kw = true -> index_keyword sid idx kw = Throw type_error.
Proof.
  intros Hi Hk. rewrite index_keyword_unfold.
  assert (L : JSObj.lookup idx kw = JSObj.LProto) by (unfold JSObj.lookup; rewrite (Hi kw Hk), Hk; reflexivity).
  assert (P : idx_prep idx kw = idx) by (unfold idx_prep; rewrite L; reflexivity).
  rewrite P, L. reflexivity.
Qed.

Lemma index_keyword_has sid idx kw idx' :
  no_proto_keys idx -> index_keyword sid idx kw = Ok idx' -> idx_has idx' kw sid.
Proof.
  intros Hi H.
  destruct (index_keyword_cases _ _ _ _ H) as [l0 [G0 [[-> Hin] | [-> _]]]]; [exists l0; auto|].
  exists (l0 ++ [sid]). rewrite get_own_set, String.eqb_refl.
  destruct (String.eqb kw "__proto__") eqn:E.
  - apply String.eqb_eq in E; subst kw.
    assert (Hk : JSObj.is_proto_member "__proto__" = true) by reflexivity.
    assert (L : JSObj.lookup idx "__proto__" = JSObj.LProto)
      by (unfold JSObj.lookup; rewrite (Hi _ Hk), Hk; reflexivity).
    unfold idx_prep in G0. rewrite L, (Hi _ Hk) in G0. discriminate.
  - split; [reflexivity|]. apply in_app_iff; right; left; reflexivity.
Qed.

Lemma index_keyword_mono sid idx kw idx' kw0 id :
  idx_has idx kw0 id -> index_keyword sid idx kw = Ok idx' -> idx_has idx' kw0 id.
Proof.
  intros Hh H.
  assert (Hp : idx_has (idx_prep idx kw) kw0 id).
  { destruct Hh as [l [G Hin]]. exists l. rewrite get_own_prep.
    destruct (JSObj.lookup idx kw) eqn:L; [auto|auto|].
    apply lookup_undef in L as [Lg _].
    destruct (String.eqb kw "__proto__"); [auto|].
    destruct (String.eqb kw0 kw) eqn:E; [|auto].
    apply String.eqb_eq in E; subst kw0. congruence. }
  destruct (index_keyword_cases _ _ _ _ H) as [l0 [G0 [[-> _] | [-> _]]]]; [exact Hp|].
  destruct Hp as [l [G Hin]]. unfold idx_has. rewrite get_own_set.
  destruct (String.eqb kw "__proto__"); [exists l; auto|].
  destruct (String.eqb kw0 kw) eqn:E; [|exists l; auto].
  apply String.eqb_eq in E; subst kw0. rewrite G in G0. injection G0 as ->.
  exists (l0 ++ [sid]); split; [reflexivity|]. apply in_app_iff; left; exact Hin.
Qed.

Lemma buildSearchIndex_no_proto secs idx : buildSearchIndex secs = Ok idx -> no_proto_keys idx.
Proof.
  unfold buildSearchIndex. intros H.
  refine (fold_outcome_inv no_proto_keys _ _ _ [] idx _ H).
  - intros a [sid sec] a' Ha Hf.
    exact (fold_outcome_inv no_proto_keys _ _
             (fun b x b' Hb E => index_keyword_no_proto sid b x b' Hb E) a a' Ha Hf).
  - intros k _; reflexivity.
Qed.

Lemma buildSearchIndex_sound secs idx : buildSearchIndex secs = Ok idx -> idx_sound secs idx.
Proof.
  unfold buildSearchIndex. intros H.
  refine (fold_outcome_inv_in (idx_sound secs) _ _ _ [] idx _ H).
  - intros a [sid sec] a' Hin Ha Hf. rewrite entries_In in Hin.
    refine (fold_outcome_inv_in (idx_sound secs) _ _ _ a a' Ha Hf).
    intros b kw b' Hkw Hb E. exact (index_keyword_sound secs sid sec b kw b' Hin Hkw Hb E).
  - intros kw id [l [G _]]; discriminate.
Qed.

Lemma inner_fold_mono sid kws a a' kw0 id :
  idx_has a kw0 id -> fold_outcome (index_keyword sid) kws a = Ok a' -> idx_has a' kw0 id.
Proof.
  intros Hh H. refine (fold_outcome_inv (fun b => idx_has b kw0 id) _ _ _ a a' Hh H).
  intros b x b' Hb E. exact (index_keyword_mono _ _ _ _ _ _ Hb E).
Qed.

Lemma inner_fold_no_proto sid kws a a' :
  no_proto_keys a -> fold_outcome (index_keyword sid) kws a = Ok a' -> no_proto_keys a'.
Proof.
  intros Ha H. refine (fold_outcome_inv no_proto_keys _ _ _ a a' Ha H).
  intros b x b' Hb E. exact (index_keyword_no_proto _ _ _ _ Hb E).
Qed.

Lemma buildSearchIndex_complete secs idx :
  buildSearchIndex secs = Ok idx ->
  forall sid sec, In (sid, sec) secs -> forall kw, In kw (keywords_of sec) -> idx_has idx kw sid.
Proof.
  unfold buildSearchIndex. intros H sid sec Hin.
  rewrite <- entries_In in Hin.
  refine (fold_collect no_proto_keys
            (fun kv b => forall kw, In kw (keywords_of (snd kv)) -> idx_has b kw (fst kv))
            _ _ _ _ _ [] idx _ H (sid, sec) Hin).
  - intros a [sid' sec'] a' Ha Hf. exact (inner_fold_no_proto _ _ _ _ Ha Hf).
  - intros a [sid' sec'] a' Ha Hf kw Hkw. simpl in *.
    refine (fold_collect no_proto_keys (fun kw b => idx_has b kw sid') _ _ _ _ _ a a' Ha Hf kw Hkw).
    + intros b x b' Hb E. exact (index_keyword_no_proto _ _ _ _ Hb E).
    + intros b x b' Hb E. exact (index_keyword_has _ _ _ _ Hb E).
    + intros b x b' y _ Hy E. exact (index_keyword_mono _ _ _ _ _ _ Hy E).
  - intros a [sid' sec'] a' [sid0 sec0] Ha Hq Hf kw Hkw. simpl in *.
    exact (inner_fold_mono _ _ _ _ _ _ (Hq kw Hkw) Hf).
  - intros k _; reflexivity.
Qed.

Lemma buildDocumentStructure_sections x doc :
  buildDocumentStructure x = Ok doc ->
  sections doc = build_sections x /\ buildSearchIndex (build_sections x) = Ok (searchIndex doc).
Proof.
  unfold buildDocumentStructure. destruct (buildSearchIndex (build_sections x)) eqn:E;
    simpl; intros H; [injection H as <-; simpl; auto|discriminate|discriminate].
Qed.

End IndexExtras.

Module DocumentExtras.
Import JS DocumentParser Search Tools ParserFacts SearchFacts SectionExtras IndexExtras.
Local Open Scope nat_scope.

Lemma extract_children v pid lvl sec :
  extractSectionDataSimple v pid lvl = Some sec -> sec_children sec = [].
Proof.
  unfold extractSectionDataSimple.
  destruct (node_id v); [|discriminate]. destruct v; [discriminate|].
  intros H. inversion H; reflexivity.
Qed.

Lemma build_sections_children (parsedXml : xval) :
  forall k s, In (k, s) (build_sections parsedXml) -> sec_children s = [].
Proof.
  apply (processSectionsSimple_inv (fun secs => forall k s, In (k, s) secs -> sec_children s = [])).
  - intros secs v pid lvl sec Hi E k s Hin. apply set_In in Hin as [Hin | ->].
    + exact (Hi k s Hin).
    + exact (extract_children _ _ _ _ E).
  - intros k s [].
Qed.

(** A bill with one section ["s1"] about a farm program. *)
Definition farm_bill : xval :=
  XObj [("section",
         PArr [XObj [("$", PAttrs [("id", "s1")]);
                     ("header", PArr [XStr "Farm aid"]);
                     ("text", PArr [XStr "Farm aid program."])]])].

(** A bill with one section ["s1"] whose text contains the word
    ["constructor"]. *)
Definition constructor_bill : xval :=
  XObj [("section",
         PArr [XObj [("$", PAttrs [("id", "s1")]);
                     ("text", PArr [XStr "The constructor clause."])]])].

Definition snapshot_of (x : xval) : snapshot :=
  match buildDocumentStructure x with Ok d => d | _ => empty_doc end.

(** X12: after [buildDocumentStructure], [get_section_by_id] for an own key
    [k] of the section map returns the section with identifier [k], its
    full text cut by [truncateText] to at most 603 characters, an undefined
    [parent] and an empty [children] list. *)
Theorem getSectionById_after_build (x : xval) (doc : snapshot) (k : string) (s : Section) :
  buildDocumentStructure x = Ok doc -> JSObj.get_own (sections doc) k = Some s ->
  executeGetSectionById doc (JObj [("sectionId", JStr k)]) =
  Ok (JObj [("id", JStr k); ("title", JStr (sec_title s));
            ("content", JStr (truncateText (sec_fullText s) 600));
            ("level", jnat (sec_level s)); ("type", JStr (sec_type s));
            ("parent", JUndef); ("children", JArr [])]) /\
  String.length (truncateText (sec_fullText s) 600) <= 603.
Proof.
  intros H G. destruct (buildDocumentStructure_sections _ _ H) as [Hs _].
  rewrite Hs in G. pose proof (get_own_pair _ _ _ G) as Hin.
  destruct (build_sections_keyed x) as [_ Hk].
  split.
  - unfold executeGetSectionById. simpl. rewrite Hs. unfold JSObj.lookup. rewrite G.
    rewrite (Hk _ _ Hin), (build_sections_children x _ _ Hin). reflexivity.
  - apply TextExtras.truncateText_length.
Qed.

Lemma getSectionById_after_build_witness :
  exists s,
    buildDocumentStructure farm_bill = Ok (snapshot_of farm_bill) /\
    JSObj.get_own (sections (snapshot_of farm_bill)) "s1" = Some s /\
    (executeGetSectionById (snapshot_of farm_bill) (JObj [("sectionId", JStr "s1")]) =
     Ok (JObj [("id", JStr "s1"); ("title", JStr (sec_title s));
               ("content", JStr (truncateText (sec_fullText s) 600));
               ("level", jnat (sec_level s)); ("type", JStr (sec_type s));
               ("parent", JUndef); ("children", JArr [])]) /\
     String.length (truncateText (sec_fullText s) 600) <= 603).
Proof.
  assert (B : buildDocumentStructure farm_bill = Ok (snapshot_of farm_bill)) by (vm_compute; reflexivity).
  destruct (JSObj.get_own (sections (snapshot_of farm_bill)) "s1") as [s|] eqn:G;
    [|vm_compute in G; discriminate].
  exists s. split; [exact B|split; [reflexivity|]].
  exact (getSectionById_after_build farm_bill (snapshot_of farm_bill) "s1" s B G).
Defined.

(** X13: after [buildDocumentStructure], the search index lists a section
    identifier under a keyword exactly when that identifier is an own key
    of the section map whose section has the keyword among the keywords of
    its title and full text. *)
Theorem searchIndex_exact (x : xval) (doc : snapshot) :
  buildDocumentStructure x = Ok doc ->
  forall kw id,
    (exists l, JSObj.get_own (searchIndex doc) kw = Some l /\ In id l) <->
    (exists s, JSObj.get_own (sections doc) id = Some s /\ In kw (keywords_of s)).
Proof.
  intros H kw id. destruct (buildDocumentStructure_sections _ _ H) as [Hs Hi]. rewrite Hs. split.
  - intros Hh. destruct (buildSearchIndex_sound _ _ Hi kw id Hh) as [s [Hin Hk]].
    exists s. split; [|exact Hk].
    apply get_own_In_nodup; [apply (build_sections_keyed x)|exact Hin].
  - intros [s [G Hk]]. exact (buildSearchIndex_complete _ _ Hi id s (get_own_pair _ _ _ G) kw Hk).
Qed.

Lemma searchIndex_exact_witness :
  buildDocumentStructure farm_bill = Ok (snapshot_of farm_bill) /\
  ((exists l, JSObj.get_own (searchIndex (snapshot_of farm_bill)) "farm" = Some l /\ In "s1" l) <->
   (exists s, JSObj.get_own (sections (snapshot_of farm_bill)) "s1" = Some s /\
              In "farm" (keywords_of s))).
Proof.
  assert (B : buildDocumentStructure farm_bill = Ok (snapshot_of farm_bill)) by (vm_compute; reflexivity).
  split; [exact B|]. exact (searchIndex_exact farm_bill (snapshot_of farm_bill) B "farm" "s1").
Defined.

(** X14: when a section of the map has the keyword ["constructor"] or
    ["__proto__"] (names of [Object.prototype] members) in its title or
    full text, [buildSearchIndex] reads the inherited member,
    [searchIndex[keyword].includes] is not a function, and
    [buildDocumentStructure] throws a [TypeError]. *)
Theorem buildDocumentStructure_proto_keyword (x : xval) (id kw : string) (s : Section) :
  JSObj.get_own (build_sections x) id = Some s -> In kw (keywords_of s) ->
  JSObj.is_proto_member kw = true ->
  buildDocumentStructure x = Throw "TypeError: searchIndex[keyword].includes is not a function".
Proof.
  intros G Hkw Hp. unfold buildDocumentStructure.
  enough (E : buildSearchIndex (build_sections x) = Throw type_error) by (rewrite E; reflexivity).
  unfold buildSearchIndex.
  apply (fold_throw no_proto_keys _ _ (id, s)).
  - intros a [sid sec]. apply fold_ok_or_throw. intros b kw'. apply index_keyword_ok_or_throw.
  - intros a [sid sec] a' Ha Hf. exact (inner_fold_no_proto _ _ _ _ Ha Hf).
  - intros a Ha. apply (fold_throw no_proto_keys _ _ kw).
    + intros b kw'. apply index_keyword_ok_or_throw.
    + intros b kw' b' Hb E. exact (index_keyword_no_proto _ _ _ _ Hb E).
    + intros b Hb. exact (index_keyword_proto _ _ _ Hb Hp).
    + exact Hkw.
    + exact Ha.
  - rewrite entries_In. exact (get_own_pair _ _ _ G).
  - intros k _; reflexivity.
Qed.

Lemma buildDocumentStructure_proto_keyword_witness :
  exists s,
    JSObj.get_own (build_sections constructor_bill) "s1" = Some s /\
    In "constructor" (keywords_of s) /\
    JSObj.is_proto_member "constructor" = true /\
    buildDocumentStructure constructor_bill =
    Throw "TypeError: searchIndex[keyword].includes is not a function".
Proof.
  destruct (JSObj.get_own (build_sections constructor_bill) "s1") as [s|] eqn:G;
    [|vm_compute in G; discriminate].
  assert (Hk : In "constructor" (keywords_of s)).
  { vm_compute in G. injection G as <-. vm_compute. tauto. }
  assert (Hp : JSObj.is_proto_member "constructor" = true) by reflexivity.
  exists s. split; [reflexivity|split; [exact Hk|split; [exact Hp|]]].
  exact (buildDocumentStructure_proto_keyword constructor_bill "s1" "constructor" s G Hk Hp).
Defined.

End DocumentExtras.

Module RouteExtras.
Import JS Routes.
Local Open Scope nat_scope.

(** The double nearest to an integer is an infinity or an integer. *)
Lemma round_double_inject_Z (z : Z) :
  round_double (inject_Z z) = NPosInf \/ round_double (inject_Z z) = NNegInf \/
  exists z', round_double (inject_Z z) = NFin (inject_Z z').
Proof.
  unfold round_double. cbv zeta.
  change (Qnum (inject_Z z)) with z. change (Z.pos (Qden (inject_Z z))) with 1%Z.
  destruct (z =? 0)%Z; [right; right; exists 0%Z; reflexivity|].
  set (e := Z.max _ (-1074)).
  destruct (0 <=? e)%Z eqn:He.
  - destruct (2 ^ 1024 <=? _)%Z; [destruct (z <? 0)%Z; [right; left|left]; reflexivity|].
    right; right; eexists; reflexivity.
  - apply Z.leb_gt in He.
    assert (Hm : round_half_even (Z.abs z * 2 ^ (- e)) 1 = (Z.abs z * 2 ^ (- e))%Z).
    { unfold round_half_even. rewrite Z.div_1_r, Z.mod_1_r. reflexivity. }
    rewrite Hm, Z.mul_assoc.
    replace (Z.sgn z * Z.abs z)%Z with z by (destruct z; reflexivity).
    rewrite Z.mod_mul by (apply Z.pow_nonzero; lia).
    right; right; eexists; reflexivity.
Qed.

Lemma parseInt_int (s : string) :
  parseInt s = NNaN \/ parseInt s = NPosInf \/ parseInt s = NNegInf \/
  exists z, parseInt s = NFin (inject_Z z).
Proof.
  unfold parseInt.
  repeat match goal with |- context [match ?t with pair _ _ => _ end] => destruct t end.
  destruct (take_while _ _); [left; reflexivity|].
  destruct (digits_val _ _) as [v|]; [|left; reflexivity].
  right. apply round_double_inject_Z.
Qed.

Lemma num_truthy_int (z : Z) : num_truthy (NFin (inject_Z z)) = negb (z =? 0)%Z.
Proof.
  unfold num_truthy. f_equal.
  destruct (Z.eqb_spec z 0) as [->|Hz]; [reflexivity|].
  destruct (Qeq_bool (inject_Z z) 0) eqn:E; [|reflexivity].
  apply Qeq_bool_eq in E. unfold Qeq in E. simpl in E. lia.
Qed.

Lemma slice_end_int (len : nat) (z : Z) :
  slice_end len (NFin (inject_Z z)) =
  if (z <? 0)%Z then Z.to_nat (Z.of_nat len + z) else Nat.min (Z.to_nat z) len.
Proof.
  unfold slice_end. simpl. rewrite Z.quot_1_r.
  destruct (z <? 0)%Z; [|reflexivity].
  destruct (Z.max_spec (Z.of_nat len + z) 0) as [[H ->]|[H ->]]; [|reflexivity].
  destruct (Z.of_nat len + z)%Z; [reflexivity|lia|reflexivity].
Qed.

(** X15: [GET /api/query/suggestions] answers a prefix of the ten fixed
    suggestions.  [parseInt] of the [limit] parameter is [NaN], an
    infinity (more than 308 digits) or an integer [z]; an absent parameter,
    [NaN] and [0] give the default of 5 suggestions, [Infinity] gives all
    10, [-Infinity] gives none, a positive [z] gives [min z 10] of them, and
    a negative [z] gives [max (10 + z) 0] of them ([slice] counts it from
    the end). *)
Theorem suggestions_route_count (p : option string) :
  exists k,
    suggestions_route p = firstn k suggestions /\
    (forall s, p = Some s -> parseInt s = NNaN \/ parseInt s = NPosInf \/ parseInt s = NNegInf \/
                             exists z, parseInt s = NFin (inject_Z z)) /\
    ((p = None \/ exists s, p = Some s /\ parseInt s = NNaN) -> k = 5) /\
    (forall s, p = Some s -> parseInt s = NPosInf -> k = 10) /\
    (forall s, p = Some s -> parseInt s = NNegInf -> k = 0) /\
    (forall s z, p = Some s -> parseInt s = NFin (inject_Z z) ->
       k = if (z =? 0)%Z then 5
           else if (z <? 0)%Z then Z.to_nat (10 + z) else Nat.min (Z.to_nat z) 10).
Proof.
  eexists. split; [reflexivity|]. split; [intros s _; apply parseInt_int|]. split; [|split; [|split]].
  - intros [->|[s [-> E]]]; [reflexivity|]. unfold getQuerySuggestions, slice0. rewrite E. reflexivity.
  - intros s -> E. rewrite E. reflexivity.
  - intros s -> E. rewrite E. reflexivity.
  - intros s z -> E. rewrite E, num_truthy_int.
    destruct (Z.eqb_spec z 0) as [->|Hz]; [reflexivity|]. simpl negb. cbv iota beta.
    rewrite slice_end_int. reflexivity.
Qed.

(** X16: [GET /api/health] answers [("healthy", 200)] exactly when the
    query parameter [checkLLM] is the string ["true"] and the LLM health
    check resolves to [true]; in every other case, including a request
    without [checkLLM], it answers [("degraded", 503)]. *)
Theorem health_route_status (checkLLM : option string) (llmHealthy : bool) :
  (health_route checkLLM llmHealthy = ("healthy", 200) <->
   checkLLM = Some "true" /\ llmHealthy = true) /\
  (health_route checkLLM llmHealthy <> ("healthy", 200) ->
   health_route checkLLM llmHealthy = ("degraded", 503)).
Proof.
  unfold health_route.
  destruct checkLLM as [s|].
  - destruct (String.eqb_spec s "true") as [->|Hs]; destruct llmHealthy; simpl.
    + split; [split; [intros _; split; reflexivity|reflexivity]|intros H; contradiction H; reflexivity].
    + split; [split; [discriminate|intros [_ H]; discriminate]|reflexivity].
    + split; [split; [discriminate|intros [H _]; injection H as H; contradiction]|reflexivity].
    + split; [split; [discriminate|intros [H _]; injection H as H; contradiction]|reflexivity].
  - simpl. split; [split; [discriminate|intros [H _]; discriminate]|reflexivity].
Qed.

(** X17: [DELETE /api/cache] clears the cache (entries and both counters)
    and answers 200 exactly when [ADMIN_KEY] is unset or empty or the
    [authorization] header is ["Bearer "] followed by the key; otherwise it
    answers 401 and leaves the cache as it was. *)
Theorem delete_cache_route_auth (adminKey authHeader : option string) (c : cache_state) :
  (delete_cache_route adminKey authHeader c = (200, mkCache [] 0 0) <->
   forall key, adminKey = Some key -> key = "" \/ authHeader = Some ("Bearer " ++ key)) /\
  (delete_cache_route adminKey authHeader c <> (200, mkCache [] 0 0) ->
   delete_cache_route adminKey authHeader c = (401, c)).
Proof.
  unfold delete_cache_route.
  assert (HU : unauthorized adminKey authHeader = false <->
               forall key, adminKey = Some key -> key = "" \/ authHeader = Some ("Bearer " ++ key)).
  { unfold unauthorized. destruct adminKey as [k|]; [|split; [intros _ key H; discriminate|reflexivity]].
    rewrite Bool.andb_false_iff, !Bool.negb_false_iff, String.eqb_eq. split.
    - intros [E|E] key Hk; injection Hk as <-; [left; exact E|right].
      destruct authHeader as [h|]; [apply String.eqb_eq in E; rewrite E; reflexivity|discriminate].
    - intros H. destruct (H k eq_refl) as [E|E]; [left; exact E|right; rewrite E; apply String.eqb_refl]. }
  destruct (unauthorized adminKey authHeader) eqn:U.
  - split; [split; [discriminate|intros H; apply (proj2 HU) in H; discriminate]|reflexivity].
  - split; [split; [intros _; apply (proj1 HU); reflexivity|intros _; reflexivity]|].
    intros H; contradiction H; reflexivity.
Qed.

(** X18: [POST /api/validate] for a string query answers 200 with [valid]
    true exactly when the trimmed query is non-empty and the query has at
    most 1000 characters; for a falsy non-string (missing, [null], [false],
    [0], [NaN]) it answers 200 with [valid] false and the two errors
    ["Query is required"] and ["Query must be a string"]; for a truthy
    non-string (a non-zero number, [true], an array or an object)
    [validateQuery] throws and the route answers 500. *)
Theorem validate_route_cases (query : jv) :
  match query with
  | JStr s =>
      exists errors,
        validate_route query =
        Ok (200, JObj [("success", JBool true);
                       ("valid", JBool (negb (String.eqb (Str.trim s) "") &&
                                        (String.length s <=? 1000)));
                       ("errors", JArr (map JStr errors))])
  | _ =>
      if truthy query then
        validate_route query =
        Ok (500, JObj [("success", JBool false);
                       ("error", JObj [("message", JStr "Failed to validate query")])])
      else
        validate_route query =
        Ok (200, JObj [("success", JBool true); ("valid", JBool false);
                       ("errors", JArr [JStr "Query is required"; JStr "Query must be a string"])])
  end.
Proof.
  destruct query as [| |b|n|s|items|props]; try reflexivity.
  - destruct b; reflexivity.
  - unfold validate_route, QueryProcessor.validateQuery. simpl.
    destruct (num_truthy n); reflexivity.
  - pose proof (QueryClaims.validateQuery_string s) as V.
    unfold validate_route.
    destruct (QueryProcessor.validateQuery (JStr s)) as [[valid errors]| |]; [|contradiction|contradiction].
    exists errors. destruct V as [V _].
    replace (negb (String.eqb (Str.trim s) "") && (String.length s <=? 1000)) with valid; [reflexivity|].
    destruct valid.
    + destruct (proj1 V eq_refl) as [H1 H2].
      apply String.eqb_neq in H1. rewrite H1. apply Nat.leb_le in H2. rewrite H2. reflexivity.
    + symmetry. apply Bool.not_true_iff_false. intros H.
      apply andb_prop in H as [H1 H2]. apply Bool.negb_true_iff, String.eqb_neq in H1.
      apply Nat.leb_le in H2. discriminate (proj2 V (conj H1 H2)).
Qed.

End RouteExtras.

Module ResponseExtras.
Import JS Tools ResponseParser ParserFacts SearchFacts SectionExtras IndexExtras.
Local Open Scope nat_scope.

Lemma dif_other (ps : list (string * jv)) f v f' :
  f <> "__proto__" -> f' <> f ->
  JSObj.get_own (default_if_falsy ps f v) f' = JSObj.get_own ps f'.
Proof.
  intros Hf Hf'. unfold default_if_falsy. destruct (truthy (field ps f)); [reflexivity|].
  rewrite get_own_set. apply String.eqb_neq in Hf. rewrite Hf.
  apply String.eqb_neq in Hf'. rewrite Hf'. reflexivity.
Qed.

Lemma dif_self (ps : list (string * jv)) f v :
  f <> "__proto__" ->
  exists w, JSObj.get_own (default_if_falsy ps f v) f = Some w /\ (truthy w = true \/ w = v).
Proof.
  intros Hf. unfold default_if_falsy, field.
  destruct (JSObj.get_own ps f) as [w|] eqn:G.
  - destruct (truthy w) eqn:T.
    + exists w. split; [exact G|left; exact T].
    + exists v. rewrite get_own_set. apply String.eqb_neq in Hf. rewrite Hf, String.eqb_refl.
      split; [reflexivity|right; reflexivity].
  - exists v. simpl. rewrite get_own_set. apply String.eqb_neq in Hf. rewrite Hf, String.eqb_refl.
    split; [reflexivity|right; reflexivity].
Qed.

Lemma backfill_fields (content : string) (ps : list (string * jv)) :
  (forall f, In f ["sections"; "keyPoints"; "implications"] ->
     exists v, JSObj.get_own (backfill content ps) f = Some v /\ truthy v = true) /\
  (exists v, JSObj.get_own (backfill content ps) "answer" = Some v /\
             (truthy v = true \/ v = JStr content)).
Proof.
  unfold backfill.
  destruct (0 <? length (filter _ requiredFields)) eqn:M.
  - split.
    + intros f Hf.
      destruct Hf as [<-|[<-|[<-|[]]]].
      * rewrite dif_other, dif_other, dif_other by discriminate.
        destruct (dif_self (default_if_falsy ps "answer" (JStr content)) "sections" (JArr [])
                    ltac:(discriminate)) as [w [G T]].
        exists w. split; [exact G|]. destruct T as [T| ->]; [exact T|reflexivity].
      * rewrite dif_other, dif_other by discriminate.
        destruct (dif_self (default_if_falsy (default_if_falsy ps "answer" (JStr content)) "sections" (JArr []))
                    "keyPoints" (JArr []) ltac:(discriminate)) as [w [G T]].
        exists w. split; [exact G|]. destruct T as [T| ->]; [exact T|reflexivity].
      * rewrite dif_other by discriminate.
        destruct (dif_self (default_if_falsy (default_if_falsy (default_if_falsy ps "answer" (JStr content))
                    "sections" (JArr [])) "keyPoints" (JArr []))
                    "implications" (JStr "See full response for implications") ltac:(discriminate))
          as [w [G T]].
        exists w. split; [exact G|]. destruct T as [T| ->]; [exact T|reflexivity].
    + rewrite !dif_other by discriminate. apply dif_self. discriminate.
  - assert (Hall : forall f, In f requiredFields -> truthy (field ps f) = true).
    { intros f Hf. destruct (truthy (field ps f)) eqn:T; [reflexivity|].
      assert (Hin : In f (filter (fun f => negb (truthy (field ps f))) requiredFields))
        by (apply filter_In; rewrite T; split; [exact Hf|reflexivity]).
      destruct (filter _ requiredFields); [contradiction|discriminate]. }
    assert (Hget : forall f, In f requiredFields -> exists v, JSObj.get_own ps f = Some v /\ truthy v = true).
    { intros f Hf. specialize (Hall f Hf). unfold field in Hall.
      destruct (JSObj.get_own ps f) as [v|]; [exists v; split; [reflexivity|exact Hall]|discriminate]. }
    split.
    + intros f Hf. apply Hget. simpl in Hf |- *. tauto.
    + destruct (Hget "answer") as [v [G T]]; [left; reflexivity|]. exists v. split; [exact G|left; exact T].
Qed.

Lemma parseResponse_Ok_backfill (items : list item) ps :
  parseResponse items = Ok ps -> exists content ps0, ps = JSObj.entries (backfill content ps0).
Proof.
  unfold parseResponse. destruct items as [|it0 r]; [discriminate|].
  destruct (find _ _) as [it|]; [|discriminate]. destruct it as [content| |]; try discriminate.
  destruct (Json.parse _); cbn [bind];
    [|destruct (as_object (JObj (fallback content))); cbn [bind]|]; try discriminate;
    try (destruct (as_object _); cbn [bind]; try discriminate);
    intros H; injection H as <-; eauto.
Qed.

(** X19: a reply [parseResponse] returns always has [sections], [keyPoints]
    and [implications] with truthy values, and an [answer] that is truthy or
    the empty string: the back-filling runs whenever one of the four
    required fields is falsy, and the fallback structure used when
    [JSON.parse] throws has all of them. *)
Theorem parseResponse_required_fields (items : list item) (ps : list (string * jv)) :
  parseResponse items = Ok ps ->
  (forall f, In f ["sections"; "keyPoints"; "implications"] ->
     exists v, In (f, v) ps /\ truthy v = true) /\
  (exists v, In ("answer", v) ps /\ (truthy v = true \/ v = JStr "")).
Proof.
  intros H. destruct (parseResponse_Ok_backfill _ _ H) as [content [ps0 ->]].
  destruct (backfill_fields content ps0) as [H1 [v [G T]]]. split.
  - intros f Hf. destruct (H1 f Hf) as [w [Gw Tw]]. exists w. split; [|exact Tw].
    apply entries_In, get_own_pair, Gw.
  - exists v. split; [apply entries_In, get_own_pair, G|].
    destruct T as [T| ->]; [left; exact T|].
    destruct (truthy (JStr content)) eqn:T; [left; reflexivity|right].
    simpl in T. destruct (String.eqb_spec content ""); [subst; reflexivity|discriminate].
Qed.

Lemma parseResponse_required_fields_witness :
  exists ps,
    parseResponse [IText ("{" ++ Orchestrator.q "answer" ++ ":" ++ Orchestrator.q "x" ++ "}")] = Ok ps /\
    (forall f, In f ["sections"; "keyPoints"; "implications"] ->
       exists v, In (f, v) ps /\ truthy v = true) /\
    (exists v, In ("answer", v) ps /\ (truthy v = true \/ v = JStr "")).
Proof.
  destruct (parseResponse [IText ("{" ++ Orchestrator.q "answer" ++ ":" ++ Orchestrator.q "x" ++ "}")])
    as [ps| |] eqn:P; [|vm_compute in P; discriminate|vm_compute in P; discriminate].
  exists ps. split; [reflexivity|].
  exact (parseResponse_required_fields _ ps P).
Defined.

End ResponseExtras.

Module ClassifyExtras.
Import Chars Str StrFacts TextUtils NormalizeExtras Formatting.
Local Open Scope list_scope.

Lemma normalizeText_idem (text : string) : normalizeText (normalizeText text) = normalizeText text.
Proof.
  rewrite <- (of_chars_chars (normalizeText text)). apply shape_fixed, normalized_chars.
Qed.

(** X20: [classifyQuery] and [extractKeywords] see their argument only
    through [normalizeText]: normalizing the text first (lower case, runs of
    white space collapsed, ends trimmed) changes neither the query type nor
    the keywords. *)
Theorem classify_keywords_normalized (text : string) :
  classifyQuery (normalizeText text) = classifyQuery text /\
  extractKeywords (normalizeText text) = extractKeywords text.
Proof.
  split.
  - unfold classifyQuery. rewrite normalizeText_idem. reflexivity.
  - unfold extractKeywords at 1. rewrite normalizeText_idem.
    unfold extractKeywords.
    destruct (String.eqb (normalizeText text) "") eqn:E.
    + apply String.eqb_eq in E. rewrite E.
      destruct (String.eqb text ""); reflexivity.
    + destruct (String.eqb_spec text "") as [->|]; [discriminate|reflexivity].
Qed.

End ClassifyExtras.

Module SearchTotality.
Import JS DocumentParser Search SearchFacts SectionExtras IndexExtras.
Local Open Scope nat_scope.

Lemma bump_ok (scores : JSObj.obj nat) (sid : string) :
  JSObj.is_proto_member sid = false -> exists scores', bump scores sid = Ok scores'.
Proof.
  intros Hp. unfold bump, JSObj.lookup.
  destruct (JSObj.get_own scores sid); [eexists; reflexivity|]. rewrite Hp. eexists; reflexivity.
Qed.

Lemma fold_bump_ok (l : list string) :
  (forall sid, In sid l -> JSObj.is_proto_member sid = false) ->
  forall scores, exists scores', fold_outcome bump l scores = Ok scores'.
Proof.
  induction l as [|sid r IH]; intros Hl scores; simpl; [eexists; reflexivity|].
  destruct (bump_ok scores sid (Hl sid (or_introl eq_refl))) as [s1 E]. rewrite E. simpl.
  apply IH. intros x Hx. apply Hl. right. exact Hx.
Qed.

Lemma index_list_has (idx : index_obj) kw id : In id (index_list idx kw) <-> idx_has idx kw id.
Proof.
  unfold index_list, idx_has. destruct (JSObj.get_own idx kw) as [l|].
  - split; [intros H; exists l; split; [reflexivity|exact H]|intros [l' [E H]]; injection E as <-; exact H].
  - split; [intros []|intros [l' [E _]]; discriminate].
Qed.

Lemma in_firstn {A} (k : nat) (l : list A) (a : A) : In a (firstn k l) -> In a l.
Proof. intros H. rewrite <- (firstn_skipn k l). apply in_or_app. left. exact H. Qed.

(** Every id of a list of the built index is the id of a section. *)
Lemma built_index_ids x doc :
  buildDocumentStructure x = Ok doc ->
  forall k l, JSObj.get_own (searchIndex doc) k = Some l ->
  forall sid, In sid l -> exists s, In (sid, s) (sections doc).
Proof.
  intros Hb k l G sid Hin.
  destruct (buildDocumentStructure_sections _ _ Hb) as [Hsec Hi].
  destruct (buildSearchIndex_sound _ _ Hi k sid (ex_intro _ l (conj G Hin))) as [s [Hs _]].
  rewrite Hsec. exists s. exact Hs.
Qed.

(** The scoring loop of [searchSections] over a built document returns when
    neither the section ids nor the keywords name [Object.prototype] members. *)
Lemma score_fold_ok x doc toks :
  buildDocumentStructure x = Ok doc ->
  (forall id s, In (id, s) (sections doc) -> JSObj.is_proto_member id = false) ->
  (forall t, In t toks -> JSObj.is_proto_member t = false) ->
  forall scores, exists fin, fold_outcome (score_keyword (searchIndex doc)) toks scores = Ok fin.
Proof.
  intros Hb Hids. induction toks as [|t r IH]; intros Ht scores; [eexists; reflexivity|].
  cbn [fold_outcome]. unfold score_keyword at 1, JSObj.lookup.
  destruct (JSObj.get_own (searchIndex doc) t) as [l|] eqn:G.
  - assert (Hl : forall sid, In sid l -> JSObj.is_proto_member sid = false).
    { intros sid Hin. destruct (built_index_ids x doc Hb t l G sid Hin) as [s Hs]. exact (Hids sid s Hs). }
    destruct (fold_bump_ok l Hl scores) as [s1 E]. rewrite E. cbn [bind].
    apply IH. intros u Hu. apply Ht. right. exact Hu.
  - rewrite (Ht t (or_introl eq_refl)). cbn [bind].
    apply IH. intros u Hu. apply Ht. right. exact Hu.
Qed.

(** [Object.entries] of an object without array-index keys is the object. *)
Lemma entries_plain {A} (o : JSObj.obj A) :
  (forall kv, In kv o -> JSObj.array_index (fst kv) = None) -> JSObj.entries o = o.
Proof.
  intros H. unfold JSObj.entries.
  assert (E : JSObj.index_keyed o = [] /\
              filter (fun kv => match JSObj.array_index (fst kv) with
                                | Some _ => false | None => true end) o = o).
  { induction o as [|[k v] r IH]; [split; reflexivity|]. simpl.
    pose proof (H (k, v) (or_introl eq_refl)) as Hk. simpl in Hk. rewrite Hk.
    destruct IH as [I1 I2]; [intros kv Hkv; apply H; right; exact Hkv|].
    rewrite I1, I2. split; reflexivity. }
  destruct E as [-> ->]. reflexivity.
Qed.

(** The score of a section of a built document is the number of query
    tokens, repetitions included, that are keywords of the section. *)
Lemma query_score_keywords x doc toks id s :
  buildDocumentStructure x = Ok doc -> In (id, s) (sections doc) ->
  query_score (searchIndex doc) toks id =
  length (filter (fun t => existsb (String.eqb t) (keywords_of s)) toks).
Proof.
  intros Hb Hin.
  destruct (buildDocumentStructure_sections _ _ Hb) as [Hsec Hi].
  pose proof (buildSearchIndex_sound _ _ Hi) as Hsound.
  pose proof (build_sections_keyed x) as [Hnd _].
  rewrite Hsec in Hin. pose proof (get_own_In_nodup _ _ _ Hnd Hin) as G.
  unfold query_score. f_equal. apply filter_ext. intros t.
  destruct (existsb (String.eqb id) (index_list (searchIndex doc) t)) eqn:A,
           (existsb (String.eqb t) (keywords_of s)) eqn:B; try reflexivity.
  - apply existsb_eqb_In, index_list_has, Hsound in A as [s' [Hs' Hk]].
    rewrite (get_own_In_nodup _ _ _ Hnd Hs') in G. injection G as ->.
    apply existsb_eqb_false in B. contradiction.
  - apply existsb_eqb_In in B. apply existsb_eqb_false in A. exfalso. apply A, index_list_has.
    exact (buildSearchIndex_complete _ _ Hi id s Hin t B).
Qed.

(** The ids met while walking the query tokens and their index lists are
    the ids of the sections that have one of the tokens as a keyword. *)
Lemma first_seen_sections x doc toks id :
  buildDocumentStructure x = Ok doc ->
  In id (first_seen (flat_map (index_list (searchIndex doc)) toks)) <->
  exists s, In (id, s) (sections doc) /\ exists t, In t toks /\ In t (keywords_of s).
Proof.
  intros Hb.
  destruct (buildDocumentStructure_sections _ _ Hb) as [Hsec Hi].
  rewrite first_seen_In, in_flat_map. split.
  - intros [t [Ht Hid]]. apply index_list_has, (buildSearchIndex_sound _ _ Hi) in Hid as [s [Hs Hk]].
    exists s. rewrite Hsec. split; [exact Hs|exists t; split; assumption].
  - intros [s [Hs [t [Ht Hk]]]]. exists t. split; [exact Ht|]. apply index_list_has.
    rewrite Hsec in Hs. exact (buildSearchIndex_complete _ _ Hi id s Hs t Hk).
Qed.

Lemma filter_keywords_pos (s : Section) toks t :
  In t toks -> In t (keywords_of s) ->
  0 < length (filter (fun u => existsb (String.eqb u) (keywords_of s)) toks).
Proof.
  intros Ht Hk.
  destruct (filter (fun u => existsb (String.eqb u) (keywords_of s)) toks) eqn:F; [|simpl; lia].
  assert (Hin0 : In t (filter (fun u => existsb (String.eqb u) (keywords_of s)) toks))
    by (apply filter_In; split; [exact Ht|apply existsb_eqb_In; exact Hk]).
  rewrite F in Hin0. destruct Hin0.
Qed.

End SearchTotality.

Module SearchExtras.
Import JS DocumentParser Search SearchFacts SectionExtras IndexExtras DocumentExtras SearchTotality.
Local Open Scope nat_scope.

(** X21: after [buildDocumentStructure] of a bill whose section ids are not
    [Object.prototype] member names, [searchSections] for a string query
    none of whose keywords is such a name returns, and every result
    [{section, score}] carries a section of the map (never [undefined]) and
    a positive score, which is the number of keywords of the query,
    repetitions included, that are keywords of that section's title or full
    text. *)
Theorem searchSections_after_build (x : xval) (doc : snapshot) (query : string) (limit : jsnum) :
  buildDocumentStructure x = Ok doc ->
  (forall id s, In (id, s) (sections doc) -> JSObj.is_proto_member id = false) ->
  (forall t, In t (TextUtils.extractKeywords query) -> JSObj.is_proto_member t = false) ->
  exists res, searchSections doc (JStr query) limit = Ok res /\
  forall o n, In (o, n) res ->
    exists s, o = Some s /\
      n = length (filter (fun t => existsb (String.eqb t) (keywords_of s))
                         (TextUtils.extractKeywords query)) /\
      0 < n.
Proof.
  intros Hb Hids Hq.
  set (toks := TextUtils.extractKeywords query) in *.
  destruct (score_fold_ok x doc toks Hb Hids Hq []) as [fin Hf].
  destruct (buildDocumentStructure_sections _ _ Hb) as [Hsec Hi].
  pose proof (build_sections_keyed x) as [Hnd _].
  unfold searchSections, searchSections_ranked. simpl. fold toks. rewrite Hf. cbn [bind].
  eexists. split; [reflexivity|].
  intros o n Hin.
  rewrite (scores_shape (searchIndex doc) _ fin (buildSearchIndex_nodup _ _ Hi) Hf) in Hin.
  apply in_map_iff in Hin as [[id n'] [E Hin]]. simpl in E. injection E as <- <-.
  unfold slice0 in Hin. apply in_firstn in Hin.
  apply (Permutation_in _ (sort_desc_perm _)), entries_In, in_map_iff in Hin.
  destruct Hin as [id' [E Hid]]. injection E as -> <-.
  apply (first_seen_sections x doc toks id Hb) in Hid as [s [Hs [t0 [Ht0 Hk0]]]].
  exists s. split; [rewrite Hsec in Hs; rewrite Hsec; exact (get_own_In_nodup _ _ _ Hnd Hs)|].
  rewrite (query_score_keywords x doc toks id s Hb Hs).
  split; [reflexivity|exact (filter_keywords_pos s toks t0 Ht0 Hk0)].
Qed.

Lemma searchSections_after_build_witness :
  buildDocumentStructure farm_bill = Ok (snapshot_of farm_bill) /\
  (forall id s, In (id, s) (sections (snapshot_of farm_bill)) -> JSObj.is_proto_member id = false) /\
  (forall t, In t (TextUtils.extractKeywords "farm aid") -> JSObj.is_proto_member t = false) /\
  exists res, searchSections (snapshot_of farm_bill) (JStr "farm aid") (NFin 10) = Ok res /\
  forall o n, In (o, n) res ->
    exists s, o = Some s /\
      n = length (filter (fun t => existsb (String.eqb t) (keywords_of s))
                         (TextUtils.extractKeywords "farm aid")) /\
      0 < n.
Proof.
  assert (B : buildDocumentStructure farm_bill = Ok (snapshot_of farm_bill)) by (vm_compute; reflexivity).
  assert (Hids : forall id s, In (id, s) (sections (snapshot_of farm_bill)) ->
                              JSObj.is_proto_member id = false).
  { intros id s Hin. vm_compute in Hin. destruct Hin as [E|[]]. injection E as <- _. reflexivity. }
  assert (Hq : forall t, In t (TextUtils.extractKeywords "farm aid") -> JSObj.is_proto_member t = false).
  { intros t Hin. vm_compute in Hin. destruct Hin as [<-|[<-|[]]]; reflexivity. }
  split; [exact B|split; [exact Hids|split; [exact Hq|]]].
  exact (searchSections_after_build farm_bill (snapshot_of farm_bill) "farm aid" (NFin 10) B Hids Hq).
Defined.

End SearchExtras.

Module ToolExtras.
Import JS DocumentParser Search Tools SearchFacts SectionExtras IndexExtras DocumentExtras SearchTotality.
Local Open Scope nat_scope.

(** X22: in the section map built from a bill none of whose nodes has the
    id ["__proto__"] (so the map keeps [Object.prototype] as its
    prototype), [get_section_by_id] with a [sectionId] that is not an own
    key throws ["Section with ID \"k\" not found"], except for the names of
    [Object.prototype] members, for which it returns a payload whose [id],
    [title], [level] and [type] are undefined and whose [content] is empty;
    an input without [sectionId] looks up the key ["undefined"]. *)
Theorem getSectionById_missing (x : xval) (doc : snapshot) (k : string) :
  buildDocumentStructure x = Ok doc ->
  ~ In "__proto__" (node_ids x) ->
  JSObj.get_own (sections doc) k = None ->
  executeGetSectionById doc (JObj [("sectionId", JStr k)]) =
  (if JSObj.is_proto_member k
   then Ok (JObj [("id", JUndef); ("title", JUndef); ("content", JStr "");
                  ("level", JUndef); ("type", JUndef); ("parent", JUndef); ("children", JArr [])])
   else Throw ("Section with ID " ++ dq ++ k ++ dq ++ " not found")) /\
  executeGetSectionById doc (JObj []) =
  executeGetSectionById doc (JObj [("sectionId", JStr "undefined")]).
Proof.
  intros _ _ G. split.
  - unfold executeGetSectionById. simpl. unfold JSObj.lookup. rewrite G.
    destruct (JSObj.is_proto_member k); reflexivity.
  - reflexivity.
Qed.

Lemma getSectionById_missing_witness :
  buildDocumentStructure farm_bill = Ok (snapshot_of farm_bill) /\
  ~ In "__proto__" (node_ids farm_bill) /\
  JSObj.get_own (sections (snapshot_of farm_bill)) "s9" = None /\
  executeGetSectionById (snapshot_of farm_bill) (JObj [("sectionId", JStr "s9")]) =
  (if JSObj.is_proto_member "s9"
   then Ok (JObj [("id", JUndef); ("title", JUndef); ("content", JStr "");
                  ("level", JUndef); ("type", JUndef); ("parent", JUndef); ("children", JArr [])])
   else Throw ("Section with ID " ++ dq ++ "s9" ++ dq ++ " not found")) /\
  executeGetSectionById (snapshot_of farm_bill) (JObj []) =
  executeGetSectionById (snapshot_of farm_bill) (JObj [("sectionId", JStr "undefined")]).
Proof.
  assert (B : buildDocumentStructure farm_bill = Ok (snapshot_of farm_bill)) by (vm_compute; reflexivity).
  assert (N : ~ In "__proto__" (node_ids farm_bill)) by (vm_compute; intros [H|[]]; discriminate).
  assert (G : JSObj.get_own (sections (snapshot_of farm_bill)) "s9" = None) by (vm_compute; reflexivity).
  split; [exact B|split; [exact N|split; [exact G|]]].
  exact (getSectionById_missing farm_bill (snapshot_of farm_bill) "s9" B N G).
Defined.

Definition forEach_error : string := "TypeError: matchingSections.forEach is not a function".


(** X23: after [buildDocumentStructure] of a bill whose section identifiers
    are not [Object.prototype] member names, [searchSections] for a query
    one of whose keywords is such a name (["constructor"], ["__proto__"])
    reads the inherited member instead of a list of matching sections and
    throws a [TypeError]. *)
Theorem searchSections_proto_keyword (x : xval) (doc : snapshot) (query kw : string) (limit : jsnum) :
  buildDocumentStructure x = Ok doc ->
  (forall id s, In (id, s) (sections doc) -> JSObj.is_proto_member id = false) ->
  In kw (TextUtils.extractKeywords query) -> JSObj.is_proto_member kw = true ->
  searchSections doc (JStr query) limit = Throw "TypeError: matchingSections.forEach is not a function".
Proof.
  intros Hb Hids Hkw Hp.
  destruct (buildDocumentStructure_sections _ _ Hb) as [Hsec Hi].
  pose proof (buildSearchIndex_sound _ _ Hi) as Hsound.
  pose proof (buildSearchIndex_no_proto _ _ Hi) as Hnp.
  assert (Hl : forall k l, JSObj.get_own (searchIndex doc) k = Some l ->
                           forall sid, In sid l -> JSObj.is_proto_member sid = false).
  { intros k l G sid Hin. destruct (Hsound k sid (ex_intro _ l (conj G Hin))) as [s [Hs _]].
    rewrite <- Hsec in Hs. exact (Hids sid s Hs). }
  unfold searchSections, searchSections_ranked. simpl.
  enough (E : fold_outcome (score_keyword (searchIndex doc)) (TextUtils.extractKeywords query) [] =
              Throw forEach_error) by (rewrite E; reflexivity).
  apply (fold_throw (fun _ => True) _ _ kw); [| |intros a _|exact Hkw|exact I].
  - intros a k. unfold score_keyword, JSObj.lookup.
    destruct (JSObj.get_own (searchIndex doc) k) as [l|] eqn:G.
    + destruct (fold_bump_ok l (Hl k l G) a) as [a' E]. rewrite E. exact I.
    + destruct (JSObj.is_proto_member k); reflexivity.
  - intros; exact I.
  - unfold score_keyword, JSObj.lookup. rewrite (Hnp kw Hp), Hp. reflexivity.
Qed.

Lemma searchSections_proto_keyword_witness :
  buildDocumentStructure farm_bill = Ok (snapshot_of farm_bill) /\
  (forall id s, In (id, s) (sections (snapshot_of farm_bill)) -> JSObj.is_proto_member id = false) /\
  In "constructor" (TextUtils.extractKeywords "farm constructor") /\
  JSObj.is_proto_member "constructor" = true /\
  searchSections (snapshot_of farm_bill) (JStr "farm constructor") (NFin 10) =
  Throw "TypeError: matchingSections.forEach is not a function".
Proof.
  assert (B : buildDocumentStructure farm_bill = Ok (snapshot_of farm_bill)) by (vm_compute; reflexivity).
  assert (Hids : forall id s, In (id, s) (sections (snapshot_of farm_bill)) ->
                              JSObj.is_proto_member id = false).
  { intros id s Hin. vm_compute in Hin. destruct Hin as [E|[]]. injection E as <- _. reflexivity. }
  assert (Hk : In "constructor" (TextUtils.extractKeywords "farm constructor"))
    by (vm_compute; tauto).
  assert (Hp : JSObj.is_proto_member "constructor" = true) by reflexivity.
  split; [exact B|split; [exact Hids|split; [exact Hk|split; [exact Hp|]]]].
  exact (searchSections_proto_keyword farm_bill (snapshot_of farm_bill) "farm constructor"
           "constructor" (NFin 10) B Hids Hk Hp).
Defined.

End ToolExtras.

Module SearchClaims.
Import JS DocumentParser Search SearchFacts SectionExtras IndexExtras DocumentExtras SearchTotality.
Local Open Scope nat_scope.

(** A bill with the single section ["A"]. *)
Definition farm_doc : xval :=
  XObj [("section",
         PArr [XObj [("$", PAttrs [("id", "A")]);
                     ("text", PArr [XStr "Farm subsidy program."])]])].

(** C3: with the query ["farm farm"], whose token set is [{farm}], section
    ["A"] (matched by that single distinct token) gets the score 2: each
    occurrence of a repeated token counts. *)
Theorem search_repeated_token_scores_twice :
  TextUtils.set_of (TextUtils.extractKeywords "farm farm") = ["farm"] /\
  bind (buildDocumentStructure farm_doc)
       (fun doc => searchSections_ranked doc (JStr "farm farm") (NFin 10)) = Ok [("A", 2)].
Proof. split; vm_compute; reflexivity. Qed.

(** A bill with three sections: ["A"] about farm aid, ["B"] about a tax
    credit for farms and ["C"] about tax relief. *)
Definition tie_section (id txt : string) : xval :=
  XObj [("$", PAttrs [("id", id)]); ("text", PArr [XStr txt])].

Definition tie_bill : xval :=
  XObj [("section", PArr [tie_section "A" "Farm aid."; tie_section "B" "Tax farm credit.";
                          tie_section "C" "Tax relief."])].

(** C3 (amended): after [buildDocumentStructure], for a query string such
    that no section id and no query keyword is the name of an
    [Object.prototype] member and no section id is an array index,
    [searchSections] returns; the sections it scores are exactly the
    sections having a query token as a keyword, in first-encountered order
    [E] (walking the query tokens in order and, for each, the sections
    indexed under it), each with the number of query tokens, repetitions
    included, that are its keywords; the ranked list is [E] sorted by
    descending score, entries of equal score keeping their order in [E],
    cut by [slice(0, limit)]; an integer limit [n] bounds its length by
    [n]. *)
Theorem searchSections_ranked_spec (x : xval) (doc : snapshot) (query : string) (limit : jsnum) :
  buildDocumentStructure x = Ok doc ->
  (forall id s, In (id, s) (sections doc) ->
     JSObj.is_proto_member id = false /\ JSObj.array_index id = None) ->
  (forall t, In t (TextUtils.extractKeywords query) -> JSObj.is_proto_member t = false) ->
  let toks := TextUtils.extractKeywords query in
  let E := map (fun id => (id, query_score (searchIndex doc) toks id))
               (first_seen (flat_map (index_list (searchIndex doc)) toks)) in
  (forall id, In id (map fst E) <->
     exists s, In (id, s) (sections doc) /\ exists t, In t toks /\ In t (keywords_of s)) /\
  (forall id n s, In (id, n) E -> In (id, s) (sections doc) ->
     n = length (filter (fun t => existsb (String.eqb t) (keywords_of s)) toks)) /\
  exists hits S,
    searchSections_ranked doc (JStr query) limit = Ok hits /\
    Permutation S E /\ StronglySorted desc S /\
    (forall n, filter (fun x => snd x =? n) S = filter (fun x => snd x =? n) E) /\
    hits = firstn (slice_end (length E) limit) S /\
    (forall n : nat, limit = NFin (inject_Z (Z.of_nat n)) -> length hits <= n).
Proof.
  intros Hb Hids Hq toks E.
  assert (Hp : forall id s, In (id, s) (sections doc) -> JSObj.is_proto_member id = false)
    by (intros id s H; exact (proj1 (Hids id s H))).
  destruct (buildDocumentStructure_sections _ _ Hb) as [Hsec Hi].
  split; [|split].
  - intros id. unfold E. rewrite map_map, map_id. apply (first_seen_sections x doc toks id Hb).
  - intros id n s Hin Hs. unfold E in Hin. apply in_map_iff in Hin as [id' [Ee _]].
    injection Ee as -> <-. exact (query_score_keywords x doc toks id s Hb Hs).
  - destruct (score_fold_ok x doc toks Hb Hp Hq []) as [fin Hf].
    pose proof (scores_shape (searchIndex doc) _ fin (buildSearchIndex_nodup _ _ Hi) Hf) as Hfin.
    assert (Hent : JSObj.entries fin = E).
    { rewrite Hfin. fold E. apply entries_plain. intros [id n] Hin. simpl.
      unfold E in Hin. apply in_map_iff in Hin as [id' [Ee Hid]]. injection Ee as -> _.
      apply (first_seen_sections x doc toks id Hb) in Hid as [s [Hs _]].
      exact (proj2 (Hids id s Hs)). }
    exists (slice0 (sort_desc E) limit), (sort_desc E).
    assert (HL : length (sort_desc E) = length E) by apply (Permutation_length (sort_desc_perm E)).
    split; [unfold searchSections_ranked; simpl; fold toks; rewrite Hf; cbn [bind]; rewrite Hent; reflexivity|].
    split; [apply sort_desc_perm|]. split; [apply sort_desc_sorted|].
    split; [intros n; apply sort_desc_filter|]. unfold slice0. split; [rewrite HL; reflexivity|].
    intros n ->. rewrite length_firstn, slice_end_nat. lia.
Qed.

Lemma searchSections_ranked_spec_witness :
  buildDocumentStructure tie_bill = Ok (snapshot_of tie_bill) /\
  (forall id s, In (id, s) (sections (snapshot_of tie_bill)) ->
     JSObj.is_proto_member id = false /\ JSObj.array_index id = None) /\
  (forall t, In t (TextUtils.extractKeywords "tax farm") -> JSObj.is_proto_member t = false) /\
  searchSections_ranked (snapshot_of tie_bill) (JStr "tax farm") (NFin 2) = Ok [("B", 2); ("C", 1)] /\
  let toks := TextUtils.extractKeywords "tax farm" in
  let E := map (fun id => (id, query_score (searchIndex (snapshot_of tie_bill)) toks id))
               (first_seen (flat_map (index_list (searchIndex (snapshot_of tie_bill))) toks)) in
  E = [("B", 2); ("C", 1); ("A", 1)] /\
  (forall id, In id (map fst E) <->
     exists s, In (id, s) (sections (snapshot_of tie_bill)) /\
               exists t, In t toks /\ In t (keywords_of s)) /\
  (forall id n s, In (id, n) E -> In (id, s) (sections (snapshot_of tie_bill)) ->
     n = length (filter (fun t => existsb (String.eqb t) (keywords_of s)) toks)) /\
  exists hits S,
    searchSections_ranked (snapshot_of tie_bill) (JStr "tax farm") (NFin 2) = Ok hits /\
    Permutation S E /\ StronglySorted desc S /\
    (forall n, filter (fun x => snd x =? n) S = filter (fun x => snd x =? n) E) /\
    hits = firstn (slice_end (length E) (NFin 2)) S /\
    (forall n : nat, NFin 2 = NFin (inject_Z (Z.of_nat n)) -> length hits <= n).
Proof.
  assert (B : buildDocumentStructure tie_bill = Ok (snapshot_of tie_bill)) by (vm_compute; reflexivity).
  assert (Hids : forall id s, In (id, s) (sections (snapshot_of tie_bill)) ->
                   JSObj.is_proto_member id = false /\ JSObj.array_index id = None).
  { intros id s Hin. vm_compute in Hin.
    destruct Hin as [E|[E|[E|[]]]]; injection E as <- _; split; reflexivity. }
  assert (Hq : forall t, In t (TextUtils.extractKeywords "tax farm") -> JSObj.is_proto_member t = false).
  { intros t Hin. vm_compute in Hin. destruct Hin as [<-|[<-|[]]]; reflexivity. }
  split; [exact B|split; [exact Hids|split; [exact Hq|split; [vm_compute; reflexivity|]]]].
  intros toks E. split; [vm_compute; reflexivity|].
  exact (searchSections_ranked_spec tie_bill (snapshot_of tie_bill) "tax farm" (NFin 2) B Hids Hq).
Defined.

End SearchClaims.
